(** * Booking service of shelf.nu: [app/modules/booking/service.server.ts]

    The service is a thin layer over the ORM client [db.booking]: every
    exported function assembles an argument object ([data], [where], [skip],
    [take]) and hands it to the store.  The development follows that split.

    - [Js]: the JavaScript the service relies on (truthiness of strings and
      arrays, [trim], arithmetic on numbers).
    - [Store]: the booking table behind [db.booking] and the operations the
      service calls.
    - the service functions, written against [Store] as computations that
      change the store, resolve or reject, and leave a record of every store
      call they issue.
    - the properties of the service.

    A number is modelled by the integer it holds: page numbers and page
    sizes, and dates as their time value.  Arithmetic on numbers rounds as
    the number type does ([Js.round]); a number with a fraction is outside
    the model.  A string is the sequence of its code units, which are taken
    to be below 256. *)

From Stdlib Require Import Ascii String.
From stdpp Require Import base decidable option list numbers strings pretty gmap
  sorting.

Open Scope Z_scope.

(** ** JavaScript values *)

Module Js.

(** [if (s)] on a [string | null | undefined]: the string when the test
    passes.  Absent and empty strings are falsy. *)
Definition truthy (s : option string) : option string :=
  match s with
  | Some ((String _ _) as v) => Some v
  | _ => None
  end.

(** [if (xs?.length)] on an optional array: the array when the test
    passes. *)
Definition has_length {A} (xs : option (list A)) : option (list A) :=
  match xs with
  | Some ((_ :: _) as v) => Some v
  | _ => None
  end.

(** [if (a && b)] on two optional [Date] objects: an object is truthy,
    whatever instant it holds. *)
Definition both {A B} (a : option A) (b : option B) : option (A * B) :=
  match a, b with
  | Some x, Some y => Some (x, y)
  | _, _ => None
  end.

(** White space and line terminators removed by [String.prototype.trim],
    among the code units below 256: TAB, LF, VT, FF, CR, SPACE and the
    no-break space U+00A0. *)
Definition is_white (c : ascii) : bool :=
  let n := nat_of_ascii c in
  ((9 <=? n)%nat && (n <=? 13)%nat) || (n =? 32)%nat || (n =? 160)%nat.

Fixpoint trimStart (s : string) : string :=
  match s with
  | String c s' => if is_white c then trimStart s' else s
  | EmptyString => EmptyString
  end.

Definition trim (s : string) : string :=
  String.rev (trimStart (String.rev (trimStart s))).

(** Arithmetic on numbers that hold integers.  The result of an operation
    is the exact result rounded to the nearest number, a value with a
    significand of 53 bits, ties going to the even significand.  Every
    integer below [2 ^ 53] in size is a number, so that rounding only shows
    from there on.  (Results beyond the largest finite number, which the
    type turns into an infinity, are outside the model.) *)
Definition round (n : Z) : Z :=
  let m := Z.abs n in
  if m <? 2 ^ 53 then n
  else
    let ulp := 2 ^ (Z.log2 m - 52) in
    let q := m / ulp in
    let r := m mod ulp in
    let up := (ulp <? 2 * r) || ((ulp =? 2 * r) && Z.odd q) in
    Z.sgn n * ((if up then q + 1 else q) * ulp).

Definition minus (a b : Z) : Z := round (a - b).
Definition times (a b : Z) : Z := round (a * b).

End Js.

(** ** Data model *)

(** Modelled from the spec: the members of the [BookingStatus] enumeration
    (the schema is not part of the sources; the service itself names only
    [ONGOING] and [OVERDUE]). *)
Inductive BookingStatus :=
  DRAFT | RESERVED | ONGOING | OVERDUE | COMPLETE | ARCHIVED | CANCELLED.

Global Instance BookingStatus_eq_dec : EqDecision BookingStatus.
Proof. solve_decision. Defined.

(** Identifiers are strings; a [Date] is its time value, an integer number of
    milliseconds. *)
Abbreviation Id := string (only parsing).
Abbreviation Date := Z (only parsing).

(** A row of the booking table together with its asset links.  The two
    custodian columns are independent nullable foreign keys. *)
Record Booking := mkBooking {
  id : Id;
  name : string;
  status : BookingStatus;
  from : option Date;
  to : option Date;
  organizationId : Id;
  creatorId : Id;
  custodianUserId : option Id;
  custodianTeamMemberId : option Id;
  assets : gset Id;
  createdAt : Date;
}.

Global Instance Booking_eq_dec : EqDecision Booking.
Proof. solve_decision. Defined.

(** ** Argument objects of the store operations *)

(** Directive on an optional to-one relation:
    [{ connect: { id } }] or [{ disconnect: true }]. *)
Inductive ToOne :=
| Connect (target : Id)
| Disconnect.

(** Directive on the many-to-many relation [assets]:
    [{ connect: [{ id }, ...] }] or [{ disconnect: [{ id }, ...] }]. *)
Inductive ToMany :=
| ConnectMany (targets : list Id)
| DisconnectMany (targets : list Id).

(** The [data] object ([Prisma.BookingUpdateInput], cast to the create input
    on creation).  [None] is a key that is not set.  [creator] and
    [organization] are required relations and can only be connected. *)
Record BookingData := mkData {
  data_name : option string;
  data_status : option BookingStatus;
  data_from : option (option Date);
  data_to : option (option Date);
  data_assets : option ToMany;
  data_custodianUser : option ToOne;
  data_custodianTeamMember : option ToOne;
  data_creator : option Id;
  data_organization : option Id;
}.

(** A date condition [{ lte: d }] or [{ gte: d }]. *)
Inductive DateFilter :=
| lte (d : Date)
| gte (d : Date).

(** One member of a [where.OR] list: [{ from: ..., to: ... }]. *)
Record Period := mkPeriod {
  period_from : DateFilter;
  period_to : DateFilter;
}.

(** The [where] object ([Prisma.BookingWhereInput]) as far as the service
    fills it in.  All keys that are set must hold together; of the members of
    [OR] at least one must hold. *)
Record BookingWhere := mkWhere {
  where_organizationId : Id;
  where_name_contains : option string;
  where_custodianTeamMemberId : option Id;
  where_custodianUserId : option Id;
  where_status_in : option (list BookingStatus);
  where_assets_some_in : option (list Id);
  where_id_notIn : option (list Id);
  where_OR : option (list Period);
}.

(** Every call the service issues on [db.booking]. *)
Inductive Call :=
| booking_update (where_id : Id) (data : BookingData)
| booking_create (data : BookingData)
| booking_findMany (skip take : Z) (where_ : BookingWhere)
| booking_count (where_ : BookingWhere)
| booking_delete (where_id : Id)
| booking_findFirst (where_id : Id).

(** Ways in which the store rejects a call. *)
Inductive Error :=
| RecordNotFound      (* the row to update, or a row to connect, is missing *)
| InvalidData         (* a [data] object the call does not take: a create
                         without a required field or relation, or with a
                         directive that only an update has *)
| UniqueViolation     (* a create with an id that is taken *)
| InvalidArgument.    (* a negative [skip] *)

Abbreviation Result A := (Error + A)%type (only parsing).

(** ** The store behind [db.booking] *)

(** The ORM client and the schema are not part of the sources.  The
    operations below give the calls of the service the meaning the ORM
    documents for them:
    - [update] and [delete] reject when no row has the given id; a
      [connect] rejects when the row to connect does not exist;
    - on the many-to-many relation [assets], [connect] adds links to those
      already there, and [disconnect] removes the given links, ignoring
      those that are not there;
    - on a to-one relation, [connect] sets the foreign key and, in an
      update, [disconnect: true] clears it; the input of [create] has no
      [disconnect], and a [data] object that holds one is refused;
    - the keys of a [where] object hold together, of the members of [OR] at
      least one holds, and a comparison with a null column never holds;
    - [contains] with [mode: "insensitive"] is the pattern match [ILIKE] of
      the database, on the text placed between two [%] as it is;
    - [orderBy] fixes the order of two rows only where they differ in the
      column; [findMany] refuses a negative [skip].
    Of the schema, [create] takes that a booking needs a name, a creator and
    an organization (the spec: creation requires creatorId and
    organizationId), that [from], [to] and the custodians may be null, and
    that the store fills in the id, the creation time and the status a
    payload leaves out. *)

Module Store.

(** The booking table, and the ids present in the tables that bookings
    refer to. *)
Record Db := mkDb {
  bookings : list Booking;
  users : gset Id;
  teamMembers : gset Id;
  organizations : gset Id;
  assetTable : gset Id;
}.

Definition set_bookings (bs : list Booking) (db : Db) : Db :=
  mkDb bs (users db) (teamMembers db) (organizations db) (assetTable db).

Definition find (i : Id) (db : Db) : option Booking :=
  List.find (fun b => bool_decide (id b = i)) (bookings db).

(** *** Writing *)

(** A connected row must exist. *)
Definition known (table : gset Id) (i : Id) : bool := bool_decide (i ∈ table).

Definition targets_known (db : Db) (data : BookingData) : bool :=
  match data_assets data with
  | Some (ConnectMany ids) => forallb (known (assetTable db)) ids
  | _ => true
  end
  && match data_custodianUser data with
     | Some (Connect u) => known (users db) u
     | _ => true
     end
  && match data_custodianTeamMember data with
     | Some (Connect t) => known (teamMembers db) t
     | _ => true
     end
  && from_option (known (users db)) true (data_creator data)
  && from_option (known (organizations db)) true (data_organization data).

(** [connect] adds links to the ones already there, [disconnect] removes
    the given links and ignores those that are not there. *)
Definition link (d : option ToMany) (old : gset Id) : gset Id :=
  match d with
  | Some (ConnectMany ids) => old ∪ list_to_set ids
  | Some (DisconnectMany ids) => old ∖ list_to_set ids
  | None => old
  end.

Definition point (d : option ToOne) (old : option Id) : option Id :=
  match d with
  | Some (Connect i) => Some i
  | Some Disconnect => None
  | None => old
  end.

(** The row after [data] is written over [b]. *)
Definition write (data : BookingData) (b : Booking) : Booking :=
  {| id := id b;
     name := default (name b) (data_name data);
     status := default (status b) (data_status data);
     from := default (from b) (data_from data);
     to := default (to b) (data_to data);
     organizationId := default (organizationId b) (data_organization data);
     creatorId := default (creatorId b) (data_creator data);
     custodianUserId := point (data_custodianUser data) (custodianUserId b);
     custodianTeamMemberId :=
       point (data_custodianTeamMember data) (custodianTeamMemberId b);
     assets := link (data_assets data) (assets b);
     createdAt := createdAt b |}.

Definition replace (b' : Booking) (bs : list Booking) : list Booking :=
  (fun b => if bool_decide (id b = id b') then b' else b) <$> bs.

(** [db.booking.update({ where: { id }, data })]. *)
Definition update (i : Id) (data : BookingData) (db : Db)
  : Result (Booking * Db) :=
  match find i db with
  | None => inl RecordNotFound
  | Some b =>
      if targets_known db data then
        let b' := write data b in
        inr (b', set_bookings (replace b' (bookings db)) db)
      else inl RecordNotFound
  end.

(** What the store fills in for a new row: its id, its creation time, and
    the status when [data] has none. *)
Record Generated := mkGenerated {
  new_id : Id;
  now : Date;
  default_status : BookingStatus;
}.

(** The directives the input of [create] has a place for: on a new row
    there is nothing to detach, and [disconnect] is not among its keys. *)
Definition creatable (data : BookingData) : bool :=
  match data_assets data with
  | Some (DisconnectMany _) => false
  | _ => true
  end
  && match data_custodianUser data with
     | Some Disconnect => false
     | _ => true
     end
  && match data_custodianTeamMember data with
     | Some Disconnect => false
     | _ => true
     end.

(** [db.booking.create({ data })].  The name, the creator and the
    organization are required, and [data] may hold no [disconnect]: a [data]
    object that is not a create input is refused as it is, before any row
    is looked at. *)
Definition create (g : Generated) (data : BookingData) (db : Db)
  : Result (Booking * Db) :=
  match data_name data, data_creator data, data_organization data with
  | Some n, Some c, Some o =>
      if negb (creatable data) then inl InvalidData
      else if negb (targets_known db data) then inl RecordNotFound
      else
        match find (new_id g) db with
        | Some _ => inl UniqueViolation
        | None =>
            let blank :=
              mkBooking (new_id g) n (default_status g) None None o c
                None None ∅ (now g) in
            let b' := write data blank in
            inr (b', set_bookings (bookings db ++ [b']) db)
        end
  | _, _, _ => inl InvalidData
  end.

(** [db.booking.delete({ where: { id } })]: the row goes, and its asset
    links with it. *)
Definition delete (i : Id) (db : Db) : Result (Booking * Db) :=
  match find i db with
  | None => inl RecordNotFound
  | Some b =>
      inr (b, set_bookings
                (List.filter (fun x => negb (bool_decide (id x = i)))
                   (bookings db)) db)
  end.

(** *** Reading *)

(** [db.booking.findFirst({ where: { id } })]: [null] when there is none. *)
Definition findFirst (i : Id) (db : Db) : option Booking := find i db.

(** A comparison with a column that is null never holds. *)
Definition holds_date (f : DateFilter) (v : option Date) : bool :=
  match v, f with
  | Some x, lte d => x <=? d
  | Some x, gte d => d <=? x
  | None, _ => false
  end.

Definition holds_period (p : Period) (b : Booking) : bool :=
  holds_date (period_from p) (from b) && holds_date (period_to p) (to b).

(** The pattern match [text ILIKE pattern] of the database.  In the
    pattern [%] stands for any run of characters, [_] for any one character,
    and a backslash takes the character after it as it is; a letter matches
    in either case.  Letters are folded in the ASCII range (what is folded
    beyond it depends on the locale of the database). *)
Definition fold (c : ascii) : ascii :=
  let n := nat_of_ascii c in
  if (65 <=? n)%nat && (n <=? 90)%nat then ascii_of_nat (n + 32) else c.

Definition same (c d : ascii) : bool := Ascii.eqb (fold c) (fold d).

Definition any_run : ascii := "%".
Definition any_one : ascii := "_".
Definition escape : ascii := ascii_of_nat 92.   (* the backslash *)

Fixpoint ilike (pattern text : string) {struct pattern} : bool :=
  match pattern with
  | EmptyString =>
      match text with
      | EmptyString => true
      | String _ _ => false
      end
  | String p rest =>
      if Ascii.eqb p any_run then
        (fix from (t : string) : bool :=
           ilike rest t
           || match t with
              | String _ t' => from t'
              | EmptyString => false
              end) text
      else if Ascii.eqb p any_one then
        match text with
        | String _ t' => ilike rest t'
        | EmptyString => false
        end
      else if Ascii.eqb p escape then
        match rest, text with
        | String c rest', String d t' => same c d && ilike rest' t'
        | _, _ => false
        end
      else
        match text with
        | String d t' => same p d && ilike rest t'
        | EmptyString => false
        end
  end.

(** [{ contains: s, mode: "insensitive" }]: the text [s] goes into the
    pattern unescaped, so that a [%], a [_] or a backslash in it acts as it
    does in a pattern. *)
Definition contains_insensitive (s : string) (field : string) : bool :=
  ilike (String any_run (s +:+ String any_run EmptyString)) field.

(** Does row [b] satisfy the [where] object? *)
Definition matches (w : BookingWhere) (b : Booking) : bool :=
  bool_decide (organizationId b = where_organizationId w)
  && from_option (fun s => contains_insensitive s (name b)) true
       (where_name_contains w)
  && from_option (fun t => bool_decide (custodianTeamMemberId b = Some t)) true
       (where_custodianTeamMemberId w)
  && from_option (fun u => bool_decide (custodianUserId b = Some u)) true
       (where_custodianUserId w)
  && from_option (fun ss => bool_decide (status b ∈ ss)) true
       (where_status_in w)
  && from_option (existsb (fun a => bool_decide (a ∈ assets b))) true
       (where_assets_some_in w)
  && from_option (fun ids => bool_decide (id b ∉ ids)) true
       (where_id_notIn w)
  && from_option (existsb (fun p => holds_period p b)) true
       (where_OR w).

Definition selected (w : BookingWhere) (db : Db) : list Booking :=
  List.filter (matches w) (bookings db).

(** [orderBy: { createdAt: "desc" }].  Rows created at the same instant
    come in an order the store is free to choose, query by query;
    [newest_first] is one such order.  Where a property depends on the place
    of a row in the listing, it is stated for rows that differ in
    [createdAt], which leaves the store no choice. *)
Definition newer (a b : Booking) : Prop := createdAt b ≤ createdAt a.

Global Instance newer_dec : RelDecision newer.
Proof. intros a b. unfold newer. apply _. Defined.

Definition newest_first : list Booking → list Booking := merge_sort newer.

(** [db.booking.findMany({ skip, take, where, orderBy })].  A negative
    [skip] is refused.  The service only ever asks for between 1 and 100
    rows, so a negative [take] (paging backwards) does not arise. *)
Definition findMany (skip take : Z) (w : BookingWhere) (db : Db)
  : Result (list Booking) :=
  if skip <? 0 then inl InvalidArgument
  else
    inr (firstn (Z.to_nat take)
           (skipn (Z.to_nat skip) (newest_first (selected w db)))).

(** [db.booking.count({ where })]. *)
Definition count (w : BookingWhere) (db : Db) : nat :=
  length (selected w db).

End Store.

(** ** Running the service against the store *)

(** The store together with the record of the calls issued on it so far. *)
Record World := mkWorld {
  db : Store.Db;
  journal : list Call;
}.

(** An asynchronous computation: it may change the store, it resolves to a
    value or rejects with the store's error. *)
Definition Async (A : Type) : Type := World → Result A * World.

(** Issue call [c]; [op] is what the store does with it.  A rejected call
    leaves the tables as they were. *)
Definition issue {A} (c : Call) (op : Store.Db → Result (A * Store.Db))
  : Async A :=
  fun w =>
    let log := journal w ++ [c] in
    match op (db w) with
    | inr (a, db') => (inr a, mkWorld db' log)
    | inl e => (inl e, mkWorld (db w) log)
    end.

(** [Promise.all([p, q])]: both calls are issued, and the pair resolves when
    both do. *)
Definition all {A B} (p : Async A) (q : Async B) : Async (A * B) :=
  fun w =>
    let '(a, w1) := p w in
    let '(b, w2) := q w1 in
    (match a, b with
     | inr x, inr y => inr (x, y)
     | inl e, _ => inl e
     | _, inl e => inl e
     end, w2).

Definition reading {A} (q : Store.Db → Result A) (d : Store.Db)
  : Result (A * Store.Db) :=
  match q d with
  | inr a => inr (a, d)
  | inl e => inl e
  end.

Definition db_booking_update (i : Id) (data : BookingData) : Async Booking :=
  issue (booking_update i data) (Store.update i data).

Definition db_booking_create (g : Store.Generated) (data : BookingData)
  : Async Booking :=
  issue (booking_create data) (Store.create g data).

Definition db_booking_findMany (skip take : Z) (w : BookingWhere)
  : Async (list Booking) :=
  issue (booking_findMany skip take w) (reading (Store.findMany skip take w)).

Definition db_booking_count (w : BookingWhere) : Async nat :=
  issue (booking_count w) (reading (fun d => inr (Store.count w d))).

Definition db_booking_delete (i : Id) : Async Booking :=
  issue (booking_delete i) (Store.delete i).

Definition db_booking_findFirst (i : Id) : Async (option Booking) :=
  issue (booking_findFirst i) (reading (fun d => inr (Store.findFirst i d))).

(** ** The service *)

(** Assignments to the keys of a [data] object. *)
Definition set_assets (v : ToMany) (d : BookingData) : BookingData :=
  mkData (data_name d) (data_status d) (data_from d) (data_to d) (Some v)
    (data_custodianUser d) (data_custodianTeamMember d)
    (data_creator d) (data_organization d).

Definition set_custodianUser (v : ToOne) (d : BookingData) : BookingData :=
  mkData (data_name d) (data_status d) (data_from d) (data_to d)
    (data_assets d) (Some v) (data_custodianTeamMember d)
    (data_creator d) (data_organization d).

Definition set_custodianTeamMember (v : ToOne) (d : BookingData)
  : BookingData :=
  mkData (data_name d) (data_status d) (data_from d) (data_to d)
    (data_assets d) (data_custodianUser d) (Some v)
    (data_creator d) (data_organization d).

Definition set_creator (v : Id) (d : BookingData) : BookingData :=
  mkData (data_name d) (data_status d) (data_from d) (data_to d)
    (data_assets d) (data_custodianUser d) (data_custodianTeamMember d)
    (Some v) (data_organization d).

Definition set_organization (v : Id) (d : BookingData) : BookingData :=
  mkData (data_name d) (data_status d) (data_from d) (data_to d)
    (data_assets d) (data_custodianUser d) (data_custodianTeamMember d)
    (data_creator d) (Some v).

(** The argument of [upsertBooking]: every key may be missing. *)
Module Upsert.
Record payload := mkPayload {
  from : option (option Date);
  id : option Id;
  creatorId : option Id;
  name : option string;
  organizationId : option Id;
  status : option BookingStatus;
  to : option (option Date);
  custodianTeamMemberId : option Id;
  custodianUserId : option Id;
  assetIds : option (list Id);
}.
End Upsert.

(** The [data] object [upsertBooking] has assembled when it looks at [id]:
    [{ ...rest }], then the asset and custodian directives. *)
Definition upsert_data (booking : Upsert.payload) : BookingData :=
  let data :=
    mkData (Upsert.name booking) (Upsert.status booking)
      (Upsert.from booking) (Upsert.to booking) None None None None None in
  let data :=
    match Js.has_length (Upsert.assetIds booking) with
    | Some assetIds => set_assets (ConnectMany assetIds) data
    | None => data
    end in
  match Js.truthy (Upsert.custodianUserId booking) with
  | Some custodianUserId =>
      set_custodianTeamMember Disconnect
        (set_custodianUser (Connect custodianUserId) data)
  | None =>
      match Js.truthy (Upsert.custodianTeamMemberId booking) with
      | Some custodianTeamMemberId =>
          set_custodianUser Disconnect
            (set_custodianTeamMember (Connect custodianTeamMemberId) data)
      | None => data
      end
  end.

(** What is added to [data] on the way to [create]. *)
Definition create_data (booking : Upsert.payload) : BookingData :=
  let data := upsert_data booking in
  let data :=
    match Js.truthy (Upsert.creatorId booking) with
    | Some creatorId => set_creator creatorId data
    | None => data
    end in
  match Js.truthy (Upsert.organizationId booking) with
  | Some organizationId => set_organization organizationId data
  | None => data
  end.

Definition upsertBooking (g : Store.Generated) (booking : Upsert.payload)
  : Async Booking :=
  match Js.truthy (Upsert.id booking) with
  | Some id => db_booking_update id (upsert_data booking)
  | None => db_booking_create g (create_data booking)
  end.

(** The argument of [getBookings]. *)
Module Listing.
Record args := mkArgs {
  organizationId : Id;
  page : option Z;
  perPage : option Z;
  search : option string;
  statuses : option (list BookingStatus);
  custodianUserId : option Id;
  custodianTeamMemberId : option Id;
  assetIds : option (list Id);
  bookingTo : option Date;
  excludeBookingIds : option (list Id);
  bookingFrom : option Date;
}.
End Listing.

(** [const skip] and [const take] of [getBookings]. *)
Definition skip (page perPage : Z) : Z :=
  if 1 <? page then Js.times (Js.minus page 1) perPage else 0.

Definition take (perPage : Z) : Z :=
  if (1 <=? perPage) && (perPage <=? 100) then perPage else 20.

(** The two members of [where.OR] for the window from [bookingFrom] to
    [bookingTo]. *)
Definition overlap_periods (bookingFrom bookingTo : Date) : list Period :=
  [ mkPeriod (lte bookingTo) (gte bookingFrom);
    mkPeriod (gte bookingFrom) (lte bookingTo) ].

(** The [where] object [getBookings] builds. *)
Definition bookings_where (a : Listing.args) : BookingWhere :=
  {| where_organizationId := Listing.organizationId a;
     where_name_contains := Js.truthy (Js.trim <$> Listing.search a);
     where_custodianTeamMemberId := Js.truthy (Listing.custodianTeamMemberId a);
     where_custodianUserId := Js.truthy (Listing.custodianUserId a);
     where_status_in := Js.has_length (Listing.statuses a);
     where_assets_some_in := Js.has_length (Listing.assetIds a);
     where_id_notIn := Js.has_length (Listing.excludeBookingIds a);
     where_OR :=
       match Js.both (Listing.bookingFrom a) (Listing.bookingTo a) with
       | Some (f, t) => Some (overlap_periods f t)
       | None => None
       end |}.

(** The value [getBookings] resolves to. *)
Record Page := mkPage {
  bookings : list Booking;
  bookingCount : nat;
}.

Definition getBookings (a : Listing.args) : Async Page :=
  let page := default 1 (Listing.page a) in
  let perPage := default 8 (Listing.perPage a) in
  let where_ := bookings_where a in
  fun w =>
    let '(r, w') :=
      all (db_booking_findMany (skip page perPage) (take perPage) where_)
          (db_booking_count where_) w in
    (match r with
     | inr (bs, n) => inr (mkPage bs n)
     | inl e => inl e
     end, w').

Definition removeAssets (i : Id) (assetIds : list Id) : Async Booking :=
  db_booking_update i
    (mkData None None None None (Some (DisconnectMany assetIds))
       None None None None).

(** The test of the status that follows the call guards an empty block. *)
Definition deleteBooking (i : Id) : Async Booking :=
  db_booking_delete i.

Definition getBooking (i : Id) : Async (option Booking) :=
  db_booking_findFirst i.

(** * Vocabulary of the properties *)

(** The two-member condition [getBookings] places in [where.OR] for the
    window from [targetFrom] to [targetTo], read on one booking. *)
Definition in_window (b : Booking) (targetFrom targetTo : Date) : bool :=
  existsb (fun p => Store.holds_period p b)
    (overlap_periods targetFrom targetTo).

(** The general overlap test [from <= targetTo AND to >= targetFrom]. *)
Definition overlaps (b : Booking) (targetFrom targetTo : Date) : Prop :=
  ∃ f t, from b = Some f ∧ to b = Some t ∧ f ≤ targetTo ∧ targetFrom ≤ t.

(** Some instant lies both between [f] and [t] and between [D1] and [D2]. *)
Definition intersects (f t D1 D2 : Date) : Prop :=
  ∃ x, (f ≤ x ≤ t) ∧ (D1 ≤ x ≤ D2).

(** The same test on the endpoints of the booking taken in order. *)
Definition span_overlaps (b : Booking) (targetFrom targetTo : Date) : Prop :=
  ∃ f t, from b = Some f ∧ to b = Some t
         ∧ Z.min f t ≤ targetTo ∧ targetFrom ≤ Z.max f t.

(** The arguments without the time window, and the test a booking has to
    pass for all the other filters. *)
Definition clear_window (a : Listing.args) : Listing.args :=
  Listing.mkArgs (Listing.organizationId a) (Listing.page a)
    (Listing.perPage a) (Listing.search a) (Listing.statuses a)
    (Listing.custodianUserId a) (Listing.custodianTeamMemberId a)
    (Listing.assetIds a) None (Listing.excludeBookingIds a) None.

Definition other_filters (a : Listing.args) (b : Booking) : bool :=
  Store.matches (bookings_where (clear_window a)) b.

(** The rows a listing is drawn from, in the order of the listing, and the
    part of them a page shows. *)
Definition listed (a : Listing.args) (w : World) : list Booking :=
  Store.newest_first (Store.selected (bookings_where a) (db w)).

Definition slice (skip take : Z) (l : list Booking) : list Booking :=
  firstn (Z.to_nat take) (skipn (Z.to_nat skip) l).

(** At most one custodian. *)
Definition exclusive (b : Booking) : Prop :=
  custodianUserId b = None ∨ custodianTeamMemberId b = None.

(** The worlds the service produces, from a store without bookings. *)
Inductive Reachable : World → Prop :=
| reach_start d : Store.bookings d = [] → Reachable (mkWorld d [])
| reach_upsertBooking g booking w :
    Reachable w → Reachable (snd (upsertBooking g booking w))
| reach_removeAssets i assetIds w :
    Reachable w → Reachable (snd (removeAssets i assetIds w))
| reach_getBookings a w :
    Reachable w → Reachable (snd (getBookings a w))
| reach_deleteBooking i w :
    Reachable w → Reachable (snd (deleteBooking i w))
| reach_getBooking i w :
    Reachable w → Reachable (snd (getBooking i w)).

(** The booking [removeAssets] leaves behind. *)
Definition without (assetIds : list Id) (b : Booking) : Booking :=
  mkBooking (id b) (name b) (status b) (from b) (to b) (organizationId b)
    (creatorId b) (custodianUserId b) (custodianTeamMemberId b)
    (assets b ∖ list_to_set assetIds) (createdAt b).

(** ** Sample stores *)

Module Sample.

Local Open Scope string_scope.

(** No booking yet; two users, one team member, two organizations and four
    assets. *)
Definition tables : Store.Db :=
  {| Store.bookings := [];
     Store.users := {["ann"; "bob"]};
     Store.teamMembers := {["tom"]};
     Store.organizations := {["acme"; "bolt"]};
     Store.assetTable := {["1"; "2"; "3"; "4"]} |}.

Definition start : World := mkWorld tables [].

Definition first : Store.Generated := Store.mkGenerated "b1" 100 DRAFT.
Definition second : Store.Generated := Store.mkGenerated "b2" 200 DRAFT.
Definition third : Store.Generated := Store.mkGenerated "b3" 300 DRAFT.

(** A booking that ends before it starts: nothing on the way to the store
    compares [from] with [to]. *)
Definition backwards_payload : Upsert.payload :=
  {| Upsert.from := Some (Some 5);
     Upsert.id := None;
     Upsert.creatorId := Some "ann";
     Upsert.name := Some "drill";
     Upsert.organizationId := Some "acme";
     Upsert.status := None;
     Upsert.to := Some (Some 3);
     Upsert.custodianTeamMemberId := None;
     Upsert.custodianUserId := None;
     Upsert.assetIds := None |}.

Definition backwards : Booking :=
  {| id := "b1"; name := "drill"; status := DRAFT;
     from := Some 5; to := Some 3;
     organizationId := "acme"; creatorId := "ann";
     custodianUserId := None; custodianTeamMemberId := None;
     assets := ∅; createdAt := 100 |}.

Definition one_booking : World :=
  snd (upsertBooking first backwards_payload start).

(** A booking of the other organization, with three assets. *)
Definition saw_payload : Upsert.payload :=
  {| Upsert.from := Some (Some 1);
     Upsert.id := None;
     Upsert.creatorId := Some "ann";
     Upsert.name := Some "saw";
     Upsert.organizationId := Some "bolt";
     Upsert.status := None;
     Upsert.to := Some (Some 9);
     Upsert.custodianTeamMemberId := None;
     Upsert.custodianUserId := None;
     Upsert.assetIds := Some ["1"; "2"; "3"] |}.

Definition saw_holding (custodian : option Id) (held : gset Id) : Booking :=
  {| id := "b2"; name := "saw"; status := DRAFT;
     from := Some 1; to := Some 9;
     organizationId := "bolt"; creatorId := "ann";
     custodianUserId := custodian; custodianTeamMemberId := None;
     assets := held; createdAt := 200 |}.

Definition saw : Booking := saw_holding None {["1"; "2"; "3"]}.

Definition two_bookings : World :=
  snd (upsertBooking second saw_payload one_booking).

Definition saw_of_ann : Booking := saw_holding (Some "ann") {["1"; "2"; "3"]}.
Definition saw_with_four : Booking := saw_holding None {["1"; "2"; "3"; "4"]}.
Definition saw_without_two : Booking := saw_holding None {["1"; "3"]}.

(** Updates of the second booking. *)
Definition hand_to_ann : Upsert.payload :=
  {| Upsert.from := None;
     Upsert.id := Some "b2";
     Upsert.creatorId := None;
     Upsert.name := None;
     Upsert.organizationId := None;
     Upsert.status := None;
     Upsert.to := None;
     Upsert.custodianTeamMemberId := None;
     Upsert.custodianUserId := Some "ann";
     Upsert.assetIds := None |}.

Definition add_fourth_asset : Upsert.payload :=
  {| Upsert.from := None;
     Upsert.id := Some "b2";
     Upsert.creatorId := None;
     Upsert.name := None;
     Upsert.organizationId := None;
     Upsert.status := None;
     Upsert.to := None;
     Upsert.custodianTeamMemberId := None;
     Upsert.custodianUserId := None;
     Upsert.assetIds := Some ["4"] |}.

Definition change_owner : Upsert.payload :=
  {| Upsert.from := None;
     Upsert.id := Some "b2";
     Upsert.creatorId := Some "bob";
     Upsert.name := None;
     Upsert.organizationId := Some "acme";
     Upsert.status := None;
     Upsert.to := None;
     Upsert.custodianTeamMemberId := None;
     Upsert.custodianUserId := None;
     Upsert.assetIds := None |}.

(** A create that names a custodian: the second sample booking, for [ann]
    from the start. *)
Definition saw_for_ann : Upsert.payload :=
  {| Upsert.from := Some (Some 1);
     Upsert.id := None;
     Upsert.creatorId := Some "ann";
     Upsert.name := Some "saw";
     Upsert.organizationId := Some "bolt";
     Upsert.status := None;
     Upsert.to := Some (Some 9);
     Upsert.custodianTeamMemberId := None;
     Upsert.custodianUserId := Some "ann";
     Upsert.assetIds := Some ["1"; "2"; "3"] |}.

(** A create that names no creator. *)
Definition no_creator : Upsert.payload :=
  {| Upsert.from := Some (Some 1);
     Upsert.id := None;
     Upsert.creatorId := None;
     Upsert.name := Some "drill";
     Upsert.organizationId := Some "acme";
     Upsert.status := None;
     Upsert.to := Some (Some 2);
     Upsert.custodianTeamMemberId := None;
     Upsert.custodianUserId := None;
     Upsert.assetIds := None |}.

(** A create that names no organization. *)
Definition no_organization : Upsert.payload :=
  {| Upsert.from := Some (Some 1);
     Upsert.id := None;
     Upsert.creatorId := Some "ann";
     Upsert.name := Some "saw";
     Upsert.organizationId := None;
     Upsert.status := None;
     Upsert.to := Some (Some 9);
     Upsert.custodianTeamMemberId := None;
     Upsert.custodianUserId := None;
     Upsert.assetIds := None |}.

(** A booking of [acme] from day [f] to day [t] of January. *)
Definition spanning (f t : Date) : Booking :=
  {| id := "b9"; name := "lathe"; status := RESERVED;
     from := Some f; to := Some t;
     organizationId := "acme"; creatorId := "ann";
     custodianUserId := None; custodianTeamMemberId := None;
     assets := ∅; createdAt := 0 |}.

(** A store with one booking, from day 1 to day 10. *)
Definition one_lathe : World :=
  mkWorld (Store.set_bookings [spanning 1 10] tables) [].

(** Listings of organization [acme]: everything on the first page; the
    window from 4 to 4; a window that ends, on day 3, before it starts, on
    day 7; the second page of 250. *)
Definition everything : Listing.args :=
  {| Listing.organizationId := "acme";
     Listing.page := None;
     Listing.perPage := None;
     Listing.search := None;
     Listing.statuses := None;
     Listing.custodianUserId := None;
     Listing.custodianTeamMemberId := None;
     Listing.assetIds := None;
     Listing.bookingTo := None;
     Listing.excludeBookingIds := None;
     Listing.bookingFrom := None |}.

Definition at_four : Listing.args :=
  {| Listing.organizationId := "acme";
     Listing.page := None;
     Listing.perPage := None;
     Listing.search := None;
     Listing.statuses := None;
     Listing.custodianUserId := None;
     Listing.custodianTeamMemberId := None;
     Listing.assetIds := None;
     Listing.bookingTo := Some 4;
     Listing.excludeBookingIds := None;
     Listing.bookingFrom := Some 4 |}.

Definition from_seven_to_three : Listing.args :=
  {| Listing.organizationId := "acme";
     Listing.page := None;
     Listing.perPage := None;
     Listing.search := None;
     Listing.statuses := None;
     Listing.custodianUserId := None;
     Listing.custodianTeamMemberId := None;
     Listing.assetIds := None;
     Listing.bookingTo := Some 3;
     Listing.excludeBookingIds := None;
     Listing.bookingFrom := Some 7 |}.

(** Twenty-five bookings of [acme], numbered in the order of their
    creation. *)
Definition numbered (k : nat) : Booking :=
  {| id := "n" +:+ pretty k; name := "lathe"; status := RESERVED;
     from := Some 1; to := Some 2;
     organizationId := "acme"; creatorId := "ann";
     custodianUserId := None; custodianTeamMemberId := None;
     assets := ∅; createdAt := Z.of_nat k |}.

Definition crowded : World :=
  mkWorld (Store.set_bookings (numbered <$> seq 0 25) tables) [].

Definition first_page_of_250 : Listing.args :=
  {| Listing.organizationId := "acme";
     Listing.page := Some 1;
     Listing.perPage := Some 250;
     Listing.search := None;
     Listing.statuses := None;
     Listing.custodianUserId := None;
     Listing.custodianTeamMemberId := None;
     Listing.assetIds := None;
     Listing.bookingTo := None;
     Listing.excludeBookingIds := None;
     Listing.bookingFrom := None |}.

Definition second_page_of_250 : Listing.args :=
  {| Listing.organizationId := "acme";
     Listing.page := Some 2;
     Listing.perPage := Some 250;
     Listing.search := None;
     Listing.statuses := None;
     Listing.custodianUserId := None;
     Listing.custodianTeamMemberId := None;
     Listing.assetIds := None;
     Listing.bookingTo := None;
     Listing.excludeBookingIds := None;
     Listing.bookingFrom := None |}.

End Sample.

(** [default d o]: reduce once [o] is known. *)
Ltac defaults := cbn [default from_option Datatypes.id] in *.

(** * Vocabulary of the further properties *)

(** The same listing on another page, or with another page size. *)
Definition on_page (k : Z) (a : Listing.args) : Listing.args :=
  Listing.mkArgs (Listing.organizationId a) (Some k)
    (Listing.perPage a) (Listing.search a) (Listing.statuses a)
    (Listing.custodianUserId a) (Listing.custodianTeamMemberId a)
    (Listing.assetIds a) (Listing.bookingTo a) (Listing.excludeBookingIds a)
    (Listing.bookingFrom a).

Definition per_page (n : Z) (a : Listing.args) : Listing.args :=
  Listing.mkArgs (Listing.organizationId a) (Listing.page a)
    (Some n) (Listing.search a) (Listing.statuses a)
    (Listing.custodianUserId a) (Listing.custodianTeamMemberId a)
    (Listing.assetIds a) (Listing.bookingTo a) (Listing.excludeBookingIds a)
    (Listing.bookingFrom a).

(** The arguments with every filter that is empty left out: an empty id, an
    empty array, a search text of white space only. *)
Definition blank (s : option string) : option string :=
  match s with
  | Some s' => if String.eqb (Js.trim s') "" then None else s
  | None => None
  end.

Definition tidy (a : Listing.args) : Listing.args :=
  Listing.mkArgs (Listing.organizationId a) (Listing.page a)
    (Listing.perPage a) (blank (Listing.search a))
    (Js.has_length (Listing.statuses a))
    (Js.truthy (Listing.custodianUserId a))
    (Js.truthy (Listing.custodianTeamMemberId a))
    (Js.has_length (Listing.assetIds a)) (Listing.bookingTo a)
    (Js.has_length (Listing.excludeBookingIds a)) (Listing.bookingFrom a).

(** An order in which the store may answer the page query of a listing:
    the rows that pass the filters, newest first, the rows of one instant
    in any order. *)
Definition admissible (a : Listing.args) (w : World) (l : list Booking)
  : Prop :=
  l ≡ₚ Store.selected (bookings_where a) (db w) ∧ StronglySorted Store.newer l.

(** No two of the rows were created at the same instant. *)
Definition distinct_instants (l : list Booking) : Prop :=
  NoDup (createdAt <$> l).

(** Text in the ASCII range, where the case of a letter is the same thing
    to every database; and text that holds none of the characters which
    act in a pattern. *)
Fixpoint within_ascii (s : string) : bool :=
  match s with
  | EmptyString => true
  | String c s' => (nat_of_ascii c <? 128)%nat && within_ascii s'
  end.

Fixpoint plain (s : string) : bool :=
  match s with
  | EmptyString => true
  | String c s' =>
      negb (Ascii.eqb c Store.any_run) && negb (Ascii.eqb c Store.any_one)
      && negb (Ascii.eqb c Store.escape) && plain s'
  end.

(** [s] occurs in [field], up to the case of letters. *)
Fixpoint folded (s : string) : string :=
  match s with
  | EmptyString => EmptyString
  | String c s' => String (Store.fold c) (folded s')
  end.

Definition occurs (s field : string) : Prop :=
  ∃ pre m post, field = pre +:+ m +:+ post ∧ folded m = folded s.

(** No two rows of the booking table share an id. *)
Definition unique_ids (d : Store.Db) : Prop :=
  NoDup (id <$> Store.bookings d).

(** ** The component [GenerateBookingPdf] *)

(** One mounted component: its handlers as transitions on the cells it
    keeps, and what its render reads from them.  [handleDownload], which
    fetches the document over the network, is left out. *)
Module GenerateBookingPdf.

Local Open Scope string_scope.

(** [iframeLoaded] and [isDialogOpen] are [useState(false)] cells, [url] is
    the [useRef("")] cell. *)
Record State := mkState {
  iframeLoaded : bool;
  url : string;
  isDialogOpen : bool;
}.

Definition mounted : State := mkState false "" false.

(** [new Date().toISOString().slice(0, 10)], from the ISO text of the
    instant. *)
Definition day (iso : string) : string := String.substring 0 10 iso.

(** The value [handleOpenDialog] puts in [url.current]; [iso] and [time]
    are its two readings of the clock. *)
Definition checklistUrl (bookingId : Id) (iso : string) (time : Z) : string :=
  "/bookings/" +:+ bookingId +:+ "/generate-pdf/booking-checklist-"
  +:+ day iso +:+ ".pdf?timeStamp=" +:+ pretty time.

Inductive Event :=
| handleIframeLoad
| handleMobileView
| handleOpenDialog (iso : string) (time : Z)
| handleCloseDialog.

(** A handler changes the cells; [handleMobileView] assigns
    [window.location.href], the second component. *)
Definition step (bookingId : Id) (s : State) (e : Event)
  : State * option string :=
  match e with
  | handleIframeLoad => (mkState true (url s) (isDialogOpen s), None)
  | handleMobileView => (s, Some (url s))
  | handleOpenDialog iso time =>
      (mkState (iframeLoaded s) (checklistUrl bookingId iso time) true, None)
  | handleCloseDialog => (mkState (iframeLoaded s) (url s) false, None)
  end.

(** The state after a sequence of events, and the addresses the window was
    sent to on the way. *)
Fixpoint run (bookingId : Id) (s : State) (es : list Event)
  : State * list string :=
  match es with
  | [] => (s, [])
  | e :: es' =>
      let '(s', sent) := step bookingId s e in
      let '(s'', later) := run bookingId s' es' in
      (s'', (from_option (fun u => [u]) [] sent ++ later)%list)
  end.

(** What the render reads: [disabled={!totalAssets}] on the two buttons
    that generate, [disabled={!iframeLoaded}] on Download, and
    [!iframeLoaded && url] for the spinner, where [url] is the ref object
    and so always truthy. *)
Definition generateDisabled (totalAssets : nat) : bool := (totalAssets =? 0)%nat.
Definition downloadDisabled (s : State) : bool := negb (iframeLoaded s).
Definition spinnerShown (s : State) : bool := negb (iframeLoaded s).

(** The clock readings of the last [handleOpenDialog] among [es]. *)
Fixpoint lastOpened (es : list Event) : option (string * Z) :=
  match es with
  | [] => None
  | e :: es' =>
      match lastOpened es' with
      | Some o => Some o
      | None =>
          match e with
          | handleOpenDialog iso time => Some (iso, time)
          | _ => None
          end
      end
  end.

End GenerateBookingPdf.

(** [createdAt] orders any two bookings. *)
Global Instance newer_transitive : Transitive Store.newer.
Proof. intros x y z. unfold Store.newer. lia. Qed.

Global Instance newer_total : Total Store.newer.
Proof. intros x y. unfold Store.newer. lia. Qed.

(** ** Further samples *)

Module More.

Local Open Scope string_scope.

(** The crowded store, ten bookings to a page. *)
Definition tens : Listing.args := per_page 10 Sample.everything.

(** Listings of [acme] with nothing but empty filters, and with a text, a
    set of statuses and an excluded id. *)
Definition empty_filters : Listing.args :=
  {| Listing.organizationId := "acme";
     Listing.page := None;
     Listing.perPage := None;
     Listing.search := Some "   ";
     Listing.statuses := Some [];
     Listing.custodianUserId := Some "";
     Listing.custodianTeamMemberId := Some "";
     Listing.assetIds := Some [];
     Listing.bookingTo := None;
     Listing.excludeBookingIds := Some [];
     Listing.bookingFrom := None |}.

Definition drills_reserved : Listing.args :=
  {| Listing.organizationId := "acme";
     Listing.page := None;
     Listing.perPage := None;
     Listing.search := Some " DRILL ";
     Listing.statuses := Some [DRAFT; RESERVED];
     Listing.custodianUserId := None;
     Listing.custodianTeamMemberId := None;
     Listing.assetIds := None;
     Listing.bookingTo := None;
     Listing.excludeBookingIds := Some ["b7"];
     Listing.bookingFrom := None |}.

(** The second sample booking handed to [ann]. *)
Definition handed : World :=
  snd (upsertBooking Sample.third Sample.hand_to_ann Sample.two_bookings).

Definition of_ann_and_tom : Listing.args :=
  {| Listing.organizationId := "bolt";
     Listing.page := None;
     Listing.perPage := None;
     Listing.search := None;
     Listing.statuses := None;
     Listing.custodianUserId := Some "ann";
     Listing.custodianTeamMemberId := Some "tom";
     Listing.assetIds := None;
     Listing.bookingTo := None;
     Listing.excludeBookingIds := None;
     Listing.bookingFrom := None |}.

Definition of_ann : Listing.args :=
  {| Listing.organizationId := "bolt";
     Listing.page := None;
     Listing.perPage := None;
     Listing.search := None;
     Listing.statuses := None;
     Listing.custodianUserId := Some "ann";
     Listing.custodianTeamMemberId := None;
     Listing.assetIds := None;
     Listing.bookingTo := None;
     Listing.excludeBookingIds := None;
     Listing.bookingFrom := None |}.

(** Updates of the first sample booking: another name and other dates;
    nothing at all. *)
Definition rename : Upsert.payload :=
  {| Upsert.from := Some (Some 9);
     Upsert.id := Some "b1";
     Upsert.creatorId := None;
     Upsert.name := Some "lathe";
     Upsert.organizationId := None;
     Upsert.status := None;
     Upsert.to := Some (Some 2);
     Upsert.custodianTeamMemberId := None;
     Upsert.custodianUserId := None;
     Upsert.assetIds := None |}.

Definition renamed : Booking :=
  {| id := "b1"; name := "lathe"; status := DRAFT;
     from := Some 9; to := Some 2;
     organizationId := "acme"; creatorId := "ann";
     custodianUserId := None; custodianTeamMemberId := None;
     assets := ∅; createdAt := 100 |}.

Definition touch : Upsert.payload :=
  {| Upsert.from := None;
     Upsert.id := Some "b1";
     Upsert.creatorId := None;
     Upsert.name := None;
     Upsert.organizationId := None;
     Upsert.status := None;
     Upsert.to := None;
     Upsert.custodianTeamMemberId := None;
     Upsert.custodianUserId := None;
     Upsert.assetIds := Some [] |}.

End More.
(** * Properties of the service *)

(** ** The JavaScript tests on small inputs *)

Example truthy_id : Js.truthy (Some "b2") = Some "b2".
Proof. reflexivity. Qed.

Example truthy_empty : Js.truthy (Some "") = None.
Proof. reflexivity. Qed.

Example has_length_ids : Js.has_length (Some ["1"; "2"]) = Some ["1"; "2"].
Proof. reflexivity. Qed.

Example has_length_empty : Js.has_length (Some (@nil Id)) = None.
Proof. reflexivity. Qed.

Example trim_both_ends : Js.trim "  cordless drill " = "cordless drill".
Proof. reflexivity. Qed.

Example trim_no_break_space :
  Js.trim (String (ascii_of_nat 160) "drill") = "drill".
Proof. reflexivity. Qed.

Example contains_insensitive_drill :
  Store.contains_insensitive "DRILL" "Cordless drill" = true.
Proof. reflexivity. Qed.

(** The search text is not escaped: [_] stands for any one character. *)
Example contains_insensitive_any_one :
  Store.contains_insensitive "_" "drill" = true
  ∧ Store.contains_insensitive "d_i" "drill" = true
  ∧ Store.contains_insensitive "d_l" "drill" = false.
Proof. repeat split. Qed.

Example contains_insensitive_any_run :
  Store.contains_insensitive "d%l" "drill" = true
  ∧ Store.contains_insensitive "l%d" "drill" = false.
Proof. repeat split. Qed.

(** A backslash takes the next character as it is; at the end of the text
    that is the [%] which closes the pattern. *)
Example contains_insensitive_escape :
  Store.contains_insensitive (String Store.escape "_") "drill" = false
  ∧ Store.contains_insensitive (String Store.escape "_") "drill_2" = true
  ∧ Store.contains_insensitive (String Store.escape "") "drill" = false
  ∧ Store.contains_insensitive (String Store.escape "") "50%" = true.
Proof. repeat split. Qed.

Example take_of_8 : take 8 = 8.
Proof. reflexivity. Qed.

Example skip_of_third_page : skip 3 8 = 16.
Proof. reflexivity. Qed.

(** Beyond [2 ^ 53] a product is rounded: only every fourth integer
    between [2 ^ 54] and [2 ^ 55] is a number. *)
Example skip_rounded : skip (2 ^ 53) 3 = 3 * 2 ^ 53 - 4.
Proof. reflexivity. Qed.

Example round_ties_to_even :
  Js.round (2 ^ 53 + 1) = 2 ^ 53 ∧ Js.round (2 ^ 53 + 3) = 2 ^ 53 + 4.
Proof. split; reflexivity. Qed.

(** ** Numbers *)

Lemma round_exact (n : Z) : Z.abs n < 2 ^ 53 → Js.round n = n.
Proof.
  intros H. unfold Js.round.
  destruct (Z.ltb_spec (Z.abs n) (2 ^ 53)); [reflexivity | lia].
Qed.

(** Rounding an integer of size [2 ^ 53] or more gives one of size [2 ^ 53]
    or more, of the same sign. *)
Lemma round_large (n : Z) :
  2 ^ 53 ≤ Z.abs n →
  ∃ k, 2 ^ 53 ≤ k ∧ Js.round n = Z.sgn n * k.
Proof.
  intros H. unfold Js.round.
  destruct (Z.ltb_spec (Z.abs n) (2 ^ 53)) as [?|_]; [lia|].
  set (m := Z.abs n) in *.
  assert (Hm : 0 < m) by lia.
  assert (Hlog : 53 ≤ Z.log2 m).
  { apply Z.log2_le_pow2; [exact Hm | exact H]. }
  destruct (Z.log2_spec m Hm) as [Hlow _].
  set (ulp := 2 ^ (Z.log2 m - 52)).
  assert (Hulp : 2 ≤ ulp).
  { unfold ulp. change 2 with (2 ^ 1) at 1.
    apply Z.pow_le_mono_r; lia. }
  assert (Hsplit : 2 ^ Z.log2 m = 2 ^ 52 * ulp).
  { unfold ulp. rewrite <- Z.pow_add_r by lia. f_equal. lia. }
  assert (Hq : 2 ^ 52 ≤ m / ulp).
  { apply Z.div_le_lower_bound; [lia|]. rewrite Z.mul_comm, <- Hsplit. exact Hlow. }
  eexists. split; [|reflexivity].
  destruct (_ || _); nia.
Qed.

Lemma round_sgn (n : Z) : Z.sgn (Js.round n) = Z.sgn n.
Proof.
  destruct (Z.lt_ge_cases (Z.abs n) (2 ^ 53)) as [H|H].
  - rewrite round_exact by exact H. reflexivity.
  - destruct (round_large n H) as (k & Hk & ->).
    rewrite Z.sgn_mul, Z.sgn_sgn, (Z.sgn_pos k) by lia. lia.
Qed.

Lemma round_nonneg (n : Z) : 0 ≤ n → 0 ≤ Js.round n.
Proof. intros H. apply Z.sgn_nonneg. rewrite round_sgn. apply Z.sgn_nonneg, H. Qed.

Lemma round_neg (n : Z) : n < 0 → Js.round n < 0.
Proof. intros H. apply Z.sgn_neg_iff. rewrite round_sgn. apply Z.sgn_neg_iff, H. Qed.

Lemma round_pos (n : Z) : 0 < n → 0 < Js.round n.
Proof. intros H. apply Z.sgn_pos_iff. rewrite round_sgn. apply Z.sgn_pos_iff, H. Qed.

(** Rounding does not take a number below a smaller one that is exact. *)
Lemma round_ge (c n : Z) : 0 ≤ c < 2 ^ 53 → c ≤ n → c ≤ Js.round n.
Proof.
  intros Hc Hn.
  destruct (Z.lt_ge_cases (Z.abs n) (2 ^ 53)) as [H|H].
  - rewrite round_exact by exact H. exact Hn.
  - destruct (round_large n H) as (k & Hk & ->).
    assert (Z.sgn n = 1) as -> by (apply Z.sgn_pos; lia). lia.
Qed.

(** ** The offset *)

Lemma skip_first_page (page perPage : Z) : page ≤ 1 → skip page perPage = 0.
Proof. intros H. unfold skip. destruct (Z.ltb_spec 1 page); [lia | reflexivity]. Qed.

Lemma skip_later_page (page perPage : Z) :
  1 < page → skip page perPage = Js.times (Js.minus page 1) perPage.
Proof. intros H. unfold skip. destruct (Z.ltb_spec 1 page); [reflexivity | lia]. Qed.

Lemma minus_one_pos (page : Z) : 1 < page → 0 < Js.minus page 1.
Proof. intros H. apply round_pos. lia. Qed.

(** The offset is negative exactly for a negative [perPage] on a page after
    the first. *)
Lemma skip_negative (page perPage : Z) :
  skip page perPage < 0 ↔ 1 < page ∧ perPage < 0.
Proof.
  unfold skip. destruct (Z.ltb_spec 1 page) as [Hp|Hp]; [|lia].
  pose proof (minus_one_pos page Hp) as Hm. unfold Js.times.
  split.
  - intros Hneg. split; [exact Hp|].
    destruct (Z.lt_ge_cases perPage 0) as [?|Hge]; [assumption|].
    pose proof (round_nonneg (Js.minus page 1 * perPage) ltac:(nia)). lia.
  - intros [_ Hneg]. apply round_neg. nia.
Qed.

(** As long as the product stays below [2 ^ 53] in size, the offset is the
    product. *)
Lemma skip_exact (page perPage : Z) :
  1 < page → Z.abs ((page - 1) * perPage) < 2 ^ 53 →
  skip page perPage = (page - 1) * perPage.
Proof.
  intros Hp Hsafe. rewrite skip_later_page by exact Hp.
  unfold Js.times, Js.minus.
  destruct (Z.eq_dec perPage 0) as [->|Hne].
  - rewrite !Z.mul_0_r. reflexivity.
  - rewrite (round_exact (page - 1)) by nia. apply round_exact, Hsafe.
Qed.

(** On a page after the first the offset is no smaller than a [perPage]
    that is positive and exact. *)
Lemma skip_at_least_perPage (page perPage : Z) :
  1 < page → 0 ≤ perPage < 2 ^ 53 → perPage ≤ skip page perPage.
Proof.
  intros Hp Hpp. rewrite skip_later_page by exact Hp.
  pose proof (minus_one_pos page Hp). unfold Js.times.
  apply round_ge; [exact Hpp | nia].
Qed.

(** ** Running [getBookings] *)

Lemma getBookings_run (a : Listing.args) (w : World) :
  let page := default 1 (Listing.page a) in
  let perPage := default 8 (Listing.perPage a) in
  let where_ := bookings_where a in
  getBookings a w =
    (if skip page perPage <? 0 then inl InvalidArgument
     else inr (mkPage (slice (skip page perPage) (take perPage) (listed a w))
                 (length (Store.selected where_ (db w)))),
     mkWorld (db w)
       (journal w ++ [booking_findMany (skip page perPage) (take perPage) where_;
                      booking_count where_])).
Proof.
  intros page perPage where_.
  unfold getBookings, all, db_booking_findMany, db_booking_count, issue,
    reading, Store.findMany, Store.count, listed, slice.
  fold page perPage where_. cbn [db journal].
  destruct (skip page perPage <? 0); cbn [db journal];
    rewrite <- app_assoc; reflexivity.
Qed.

Lemma getBookings_resolved (a : Listing.args) (w : World) (p : Page) :
  fst (getBookings a w) = inr p →
  let page := default 1 (Listing.page a) in
  let perPage := default 8 (Listing.perPage a) in
  0 ≤ skip page perPage
  ∧ bookings p = slice (skip page perPage) (take perPage) (listed a w)
  ∧ bookingCount p = length (Store.selected (bookings_where a) (db w)).
Proof.
  rewrite getBookings_run. cbn [fst].
  destruct (Z.ltb_spec (skip (default 1 (Listing.page a))
                          (default 8 (Listing.perPage a))) 0) as [Hneg|Hpos].
  - discriminate.
  - intros [= <-]. cbn. auto.
Qed.

(** [getBookings] resolves unless the offset is negative, which takes a
    negative [perPage] on a page after the first. *)
Lemma getBookings_resolves (a : Listing.args) (w : World) :
  0 ≤ skip (default 1 (Listing.page a)) (default 8 (Listing.perPage a)) →
  ∃ p, fst (getBookings a w) = inr p.
Proof.
  intros H. rewrite getBookings_run. cbn [fst].
  destruct (Z.ltb_spec (skip (default 1 (Listing.page a))
                          (default 8 (Listing.perPage a))) 0); [lia|].
  eexists. reflexivity.
Qed.

Lemma skip_nonnegative (page perPage : Z) : 0 ≤ perPage → 0 ≤ skip page perPage.
Proof.
  intros H.
  destruct (Z.lt_ge_cases (skip page perPage) 0) as [Hneg|Hge]; [|exact Hge].
  apply skip_negative in Hneg. lia.
Qed.

Lemma take_range (perPage : Z) : 1 ≤ take perPage ≤ 100.
Proof.
  unfold take.
  destruct (Z.leb_spec 1 perPage), (Z.leb_spec perPage 100); cbn; lia.
Qed.

Lemma lookup_slice (s t : Z) (l : list Booking) (j : nat) (b : Booking) :
  slice s t l !! j = Some b →
  l !! (Z.to_nat s + j)%nat = Some b ∧ (j < Z.to_nat t)%nat.
Proof.
  unfold slice. intros H.
  apply lookup_take_Some in H as [H Hj].
  rewrite lookup_drop in H. auto.
Qed.

Lemma elem_of_slice (b : Booking) (s t : Z) (l : list Booking) :
  b ∈ slice s t l → b ∈ l.
Proof.
  intros H. apply list_elem_of_lookup in H as [j H].
  apply lookup_slice in H as [H _].
  eapply list_elem_of_lookup_2, H.
Qed.

Lemma length_slice (s t : Z) (l : list Booking) :
  (length (slice s t l) ≤ Z.to_nat t)%nat.
Proof. unfold slice. rewrite length_take. lia. Qed.

Lemma elem_of_listed (b : Booking) (a : Listing.args) (w : World) :
  b ∈ listed a w ↔
  b ∈ Store.bookings (db w) ∧ Store.matches (bookings_where a) b = true.
Proof.
  unfold listed, Store.newest_first, Store.selected.
  rewrite merge_sort_Permutation.
  rewrite !list_elem_of_In. apply filter_In.
Qed.

(** ** The time window *)

Lemma holds_date_lte (b : option Date) (d : Date) :
  Store.holds_date (lte d) b = true ↔ ∃ x, b = Some x ∧ x ≤ d.
Proof.
  destruct b as [x|]; cbn.
  - rewrite Z.leb_le. split; [eauto | intros (? & [= <-] & ?); done].
  - split; [done | intros (? & ? & _); done].
Qed.

Lemma holds_date_gte (b : option Date) (d : Date) :
  Store.holds_date (gte d) b = true ↔ ∃ x, b = Some x ∧ d ≤ x.
Proof.
  destruct b as [x|]; cbn.
  - rewrite Z.leb_le. split; [eauto | intros (? & [= <-] & ?); done].
  - split; [done | intros (? & ? & _); done].
Qed.

(** The condition in [where.OR], spelled out. *)
Lemma in_window_clauses (b : Booking) (targetFrom targetTo : Date) :
  in_window b targetFrom targetTo = true ↔
  ∃ f t, from b = Some f ∧ to b = Some t
         ∧ ((f ≤ targetTo ∧ targetFrom ≤ t) ∨ (targetFrom ≤ f ∧ t ≤ targetTo)).
Proof.
  unfold in_window, overlap_periods, Store.holds_period. cbn.
  rewrite orb_false_r, orb_true_iff, !andb_true_iff.
  rewrite !holds_date_lte, !holds_date_gte.
  split.
  - intros [[(f & Hf & ?) (t & Ht & ?)] | [(f & Hf & ?) (t & Ht & ?)]];
      exists f, t; auto.
  - intros (f & t & Hf & Ht & [[??] | [??]]); [left | right]; split; eauto.
Qed.

(** It is the overlap test on the endpoints taken in order: the second
    member of [OR] serves the bookings that end before they start. *)
Lemma in_window_span (b : Booking) (targetFrom targetTo : Date) :
  in_window b targetFrom targetTo = true ↔ span_overlaps b targetFrom targetTo.
Proof.
  rewrite in_window_clauses. unfold span_overlaps.
  split; intros (f & t & Hf & Ht & H); exists f, t; (split; [|split]); auto; lia.
Qed.

Lemma in_window_ordered (b : Booking) (f t targetFrom targetTo : Date) :
  from b = Some f → to b = Some t → f ≤ t →
  in_window b targetFrom targetTo = true ↔ overlaps b targetFrom targetTo.
Proof.
  intros Hf Ht Hle. rewrite in_window_clauses. unfold overlaps.
  split; intros (f' & t' & Hf' & Ht' & H); exists f', t';
    (split; [|split]); auto;
    rewrite Hf in Hf'; rewrite Ht in Ht'; simplify_eq; lia.
Qed.

(** For a booking that ends no earlier than it starts and a window that
    does the same, the condition says that some instant lies in both. *)
Lemma span_intersects (b : Booking) (f t D1 D2 : Date) :
  from b = Some f → to b = Some t → f ≤ t → D1 ≤ D2 →
  span_overlaps b D1 D2 ↔ intersects f t D1 D2.
Proof.
  intros Hf Ht Hle Hwin. unfold span_overlaps, intersects. split.
  - intros (f' & t' & Hf' & Ht' & Hmin & Hmax).
    rewrite Hf in Hf'. rewrite Ht in Ht'. simplify_eq.
    exists (Z.max f' D1). lia.
  - intros (x & Hx & Hd). exists f, t. split; [exact Hf|]. split; [exact Ht|]. lia.
Qed.

Lemma overlaps_in_window (b : Booking) (targetFrom targetTo : Date) :
  overlaps b targetFrom targetTo → in_window b targetFrom targetTo = true.
Proof.
  intros (f & t & Hf & Ht & ? & ?). apply in_window_clauses.
  exists f, t. auto.
Qed.

Lemma where_window (a : Listing.args) (D1 D2 : Date) (b : Booking) :
  Listing.bookingFrom a = Some D1 → Listing.bookingTo a = Some D2 →
  Store.matches (bookings_where a) b = other_filters a b && in_window b D1 D2.
Proof.
  intros H1 H2. unfold other_filters, Store.matches, bookings_where, in_window.
  cbn. rewrite H1, H2. cbn. rewrite andb_true_r. reflexivity.
Qed.

Lemma where_no_window (a : Listing.args) :
  Listing.bookingFrom a = None ∨ Listing.bookingTo a = None →
  bookings_where a = bookings_where (clear_window a).
Proof.
  intros H. unfold bookings_where. cbn.
  destruct (Listing.bookingFrom a), (Listing.bookingTo a), H; done.
Qed.

(** The examples of the spec: a booking from January 1 to 5 is in the
    window from January 4 to 10, a booking from January 10 to 12 is not in
    the window from January 1 to 2. *)
Example january_overlap : in_window (Sample.spanning 1 5) 4 10 = true.
Proof. reflexivity. Qed.

Example january_apart : in_window (Sample.spanning 10 12) 1 2 = false.
Proof. reflexivity. Qed.

(** ** Claims about [getBookings] *)

(** C2, as stated, fails: [upsertBooking] stores a booking with [from = 5]
    and [to = 3] as it is given; for the window from 4 to 4 that booking
    satisfies the second member of [OR] and not the general overlap test. *)
Lemma second_clause_not_subsumed :
  Store.bookings (db Sample.one_booking) = [Sample.backwards]
  ∧ in_window Sample.backwards 4 4 = true
  ∧ ¬ overlaps Sample.backwards 4 4.
Proof.
  split; [vm_compute; reflexivity|]. split; [reflexivity|].
  intros (f & t & [= <-] & [= <-] & ? & ?). lia.
Qed.

(** C2, amended: for every booking with [from <= to] and every target
    window, the two-member condition of [getBookings] is equivalent to the
    single test [from <= targetTo AND to >= targetFrom]. *)
Theorem second_clause_subsumed_when_ordered
    (b : Booking) (f t targetFrom targetTo : Date) :
  from b = Some f → to b = Some t → f ≤ t →
  in_window b targetFrom targetTo = true ↔ f ≤ targetTo ∧ targetFrom ≤ t.
Proof.
  intros Hf Ht Hle. rewrite in_window_clauses.
  split.
  - intros (f' & t' & Hf' & Ht' & H).
    rewrite Hf in Hf'. rewrite Ht in Ht'. simplify_eq. lia.
  - intros [??]. exists f, t. auto.
Qed.

Lemma second_clause_subsumed_when_ordered_witness :
  in_window Sample.saw 4 4 = true ↔ 1 ≤ 4 ∧ 4 ≤ 9.
Proof.
  apply (second_clause_subsumed_when_ordered Sample.saw 1 9 4 4);
    [reflexivity | reflexivity | lia].
Defined.

(** C1, as stated, fails: the booking of [Sample.one_booking] was stored by
    [upsertBooking] with [from = 5] and [to = 3]; the listing for the window
    from 4 to 4 returns it, although it starts after the window has ended
    and no instant lies in both.  Nor does [getBookings] compare
    [bookingFrom] with [bookingTo]: for the window that starts on day 7 and
    ends on day 3 it returns the booking from day 1 to day 10, and no
    instant lies in both. *)
Lemma window_returns_backwards_booking :
  fst (getBookings Sample.at_four Sample.one_booking)
    = inr (mkPage [Sample.backwards] 1)
  ∧ ¬ overlaps Sample.backwards 4 4
  ∧ ¬ (∃ x, (5 ≤ x ≤ 3) ∧ (4 ≤ x ≤ 4))
  ∧ fst (getBookings Sample.from_seven_to_three Sample.one_lathe)
    = inr (mkPage [Sample.spanning 1 10] 1)
  ∧ ¬ intersects 1 10 7 3.
Proof.
  split; [vm_compute; reflexivity|]. split; [|split; [|split]].
  - intros (f & t & [= <-] & [= <-] & ? & ?). lia.
  - intros (x & ? & ?). lia.
  - vm_compute. reflexivity.
  - intros (x & ? & ?). lia.
Qed.

(** C1, amended: when both [bookingFrom = D1] and [bookingTo = D2] are
    supplied, the result is the requested page, and the count, of exactly
    the bookings that pass the other filters, have both [from] and [to] set,
    and whose span between the two endpoints taken in order meets the
    window ([min from to <= D2] and [max from to >= D1]); for a booking
    with [from <= to] and a window with [D1 <= D2] that is the test that
    [[from, to]] intersects [[D1, D2]], some instant lying in both; a
    booking with both endpoints before [D1], or both after [D2], is
    excluded; and when either bound is absent the [where] object has no
    time condition. *)
Theorem getBookings_window (a : Listing.args) (w : World) :
  (∀ D1 D2 p,
     Listing.bookingFrom a = Some D1 → Listing.bookingTo a = Some D2 →
     fst (getBookings a w) = inr p →
     bookings p
       = slice (skip (default 1 (Listing.page a)) (default 8 (Listing.perPage a)))
           (take (default 8 (Listing.perPage a))) (listed a w)
     ∧ bookingCount p = length (listed a w)
     ∧ (∀ b, b ∈ listed a w ↔
             b ∈ Store.bookings (db w) ∧ other_filters a b = true
             ∧ span_overlaps b D1 D2)
     ∧ (∀ b f t, from b = Some f → to b = Some t → f ≤ t → D1 ≤ D2 →
                 span_overlaps b D1 D2 ↔ intersects f t D1 D2)
     ∧ (∀ b f t, from b = Some f → to b = Some t → f ≤ t →
                 span_overlaps b D1 D2 ↔ overlaps b D1 D2)
     ∧ (∀ b f t, b ∈ bookings p → from b = Some f → to b = Some t →
                 ¬ (f < D1 ∧ t < D1) ∧ ¬ (D2 < f ∧ D2 < t)))
  ∧ (Listing.bookingFrom a = None ∨ Listing.bookingTo a = None →
     where_OR (bookings_where a) = None
     ∧ ∀ b, b ∈ listed a w ↔
            b ∈ Store.bookings (db w) ∧ other_filters a b = true).
Proof.
  split.
  - intros D1 D2 p H1 H2 Hp.
    apply getBookings_resolved in Hp as (_ & Hbs & Hn).
    assert (Hin : ∀ b, b ∈ listed a w ↔
                       b ∈ Store.bookings (db w) ∧ other_filters a b = true
                       ∧ span_overlaps b D1 D2).
    { intros b. rewrite elem_of_listed, (where_window a D1 D2 b H1 H2).
      rewrite andb_true_iff, in_window_span. reflexivity. }
    split; [exact Hbs|]. split.
    { rewrite Hn. unfold listed, Store.newest_first.
      rewrite merge_sort_Permutation. reflexivity. }
    split; [exact Hin|]. split.
    { intros b f t Hf Ht Hle Hwin. apply span_intersects; assumption. }
    split.
    { intros b f t Hf Ht Hle.
      rewrite <- in_window_span. apply in_window_ordered with f t; done. }
    intros b f t Hb Hf Ht. rewrite Hbs in Hb.
    apply elem_of_slice, Hin in Hb as (_ & _ & (f' & t' & Hf' & Ht' & ? & ?)).
    rewrite Hf in Hf'. rewrite Ht in Ht'. simplify_eq. lia.
  - intros Hnone. split.
    + unfold bookings_where. cbn.
      destruct (Listing.bookingFrom a), (Listing.bookingTo a), Hnone; done.
    + intros b. rewrite elem_of_listed. unfold other_filters.
      rewrite <- (where_no_window a Hnone). reflexivity.
Qed.

(** The first sample booking in the window from 4 to 4; the second, from
    day 1 to day 9, meets that window in day 4. *)
Lemma getBookings_window_witness :
  bookings (mkPage [Sample.backwards] 1)
    = slice 0 8 (listed Sample.at_four Sample.one_booking)
  ∧ (span_overlaps Sample.saw 4 4 ↔ intersects 1 9 4 4)
  ∧ where_OR (bookings_where Sample.everything) = None.
Proof.
  destruct (getBookings_window Sample.at_four Sample.one_booking) as [Hw _].
  destruct (getBookings_window Sample.everything Sample.one_booking) as [_ Hn].
  destruct (Hw 4 4 (mkPage [Sample.backwards] 1))
    as (Hpage & _ & _ & Hmeet & _); [reflexivity | reflexivity | vm_compute; reflexivity |].
  split; [exact Hpage|]. split.
  - apply (Hmeet Sample.saw 1 9); [reflexivity | reflexivity | lia | lia].
  - apply Hn. left. reflexivity.
Defined.

Lemma matches_organization (a : Listing.args) (b : Booking) :
  Store.matches (bookings_where a) b = true →
  organizationId b = Listing.organizationId a.
Proof.
  unfold Store.matches. rewrite !andb_true_iff.
  intros [[[[[[[H _] _] _] _] _] _] _].
  apply bool_decide_eq_true in H. exact H.
Qed.

(** C6: every booking in the page [getBookings] returns belongs to the
    organization given as [organizationId], whatever the other filters;
    it is a row of the store. *)
Theorem getBookings_within_organization
    (a : Listing.args) (w : World) (p : Page) (b : Booking) :
  fst (getBookings a w) = inr p → b ∈ bookings p →
  organizationId b = Listing.organizationId a ∧ b ∈ Store.bookings (db w).
Proof.
  intros Hp Hb.
  apply getBookings_resolved in Hp as (_ & Hbs & _).
  rewrite Hbs in Hb. apply elem_of_slice, elem_of_listed in Hb as [Hin Hm].
  split; [apply matches_organization, Hm | exact Hin].
Qed.

Lemma getBookings_within_organization_witness :
  organizationId Sample.backwards = "acme"
  ∧ Sample.backwards ∈ Store.bookings (db Sample.two_bookings).
Proof.
  apply (getBookings_within_organization Sample.everything Sample.two_bookings
           (mkPage [Sample.backwards] 1) Sample.backwards).
  - vm_compute. reflexivity.
  - apply list_elem_of_here.
Defined.

(** C7: the page size asked of the store is [perPage] when
    [1 <= perPage <= 100] and 20 otherwise, and no more bookings than that
    are returned; so at most 20 for [perPage = 0] and [perPage = 250], and at
    most 50 for [perPage = 50]. *)
Theorem getBookings_page_size (a : Listing.args) (w : World) (perPage : Z) :
  Listing.perPage a = Some perPage →
  (1 ≤ perPage ≤ 100 → take perPage = perPage)
  ∧ (¬ (1 ≤ perPage ≤ 100) → take perPage = 20)
  ∧ (∃ s, journal (snd (getBookings a w))
          = journal w ++ [booking_findMany s (take perPage) (bookings_where a);
                          booking_count (bookings_where a)])
  ∧ (∀ p, fst (getBookings a w) = inr p →
          (length (bookings p) ≤ Z.to_nat (take perPage))%nat
          ∧ (perPage = 0 ∨ perPage = 250 → (length (bookings p) ≤ 20)%nat)
          ∧ (perPage = 50 → (length (bookings p) ≤ 50)%nat)).
Proof.
  intros Hpp.
  assert (Hin : 1 ≤ perPage ≤ 100 → take perPage = perPage).
  { intros [??]. unfold take.
    destruct (Z.leb_spec 1 perPage), (Z.leb_spec perPage 100); cbn; lia. }
  assert (Hout : ¬ (1 ≤ perPage ≤ 100) → take perPage = 20).
  { intros ?. unfold take.
    destruct (Z.leb_spec 1 perPage), (Z.leb_spec perPage 100); cbn; lia. }
  split; [exact Hin|]. split; [exact Hout|]. split.
  - rewrite getBookings_run. cbn [snd journal]. rewrite Hpp. defaults.
    eexists. reflexivity.
  - intros p Hp. apply getBookings_resolved in Hp as (_ & Hbs & _).
    rewrite Hpp in Hbs. defaults.
    assert (Hlen : (length (bookings p) ≤ Z.to_nat (take perPage))%nat).
    { rewrite Hbs. apply length_slice. }
    split; [exact Hlen|]. split.
    + intros H. rewrite Hout in Hlen by lia. lia.
    + intros ->. rewrite Hin in Hlen by lia. lia.
Qed.

Lemma getBookings_page_size_witness :
  take 250 = 20
  ∧ ∃ p, fst (getBookings Sample.first_page_of_250 Sample.crowded) = inr p
         ∧ bookingCount p = 25%nat
         ∧ (length (bookings p) ≤ 20)%nat.
Proof.
  destruct (getBookings_page_size Sample.first_page_of_250 Sample.crowded
              250 eq_refl) as (_ & Hout & _ & Hlen).
  split.
  - apply Hout. lia.
  - destruct (getBookings_resolves Sample.first_page_of_250 Sample.crowded)
      as [p Hp]; [vm_compute; discriminate|].
    exists p. split; [exact Hp|]. split.
    + apply getBookings_resolved in Hp as (_ & _ & ->). vm_compute. reflexivity.
    + apply (Hlen p Hp). right. reflexivity.
Defined.

(** Bookings created at different instants are different bookings. *)
Lemma distinct_listed (a : Listing.args) (w : World) :
  distinct_instants (Store.selected (bookings_where a) (db w)) →
  NoDup (listed a w).
Proof.
  intros H. unfold listed, Store.newest_first.
  rewrite merge_sort_Permutation. eapply NoDup_fmap_1, H.
Qed.

(** Where in the listing the rows of a page come from when [perPage] is out
    of range: from the first 20 positions, or from position [perPage] on. *)
Lemma out_of_range_positions
    (a : Listing.args) (w : World) (perPage : Z) (p : Page)
    (j : nat) (b : Booking) :
  Listing.perPage a = Some perPage → ¬ (1 ≤ perPage ≤ 100) → perPage < 2 ^ 53 →
  fst (getBookings a w) = inr p → bookings p !! j = Some b →
  ∃ i : nat, listed a w !! i = Some b
             ∧ ((i < 20)%nat ∨ (100 < perPage ∧ perPage ≤ Z.of_nat i)).
Proof.
  intros Hpp Hout Hsafe Hp Hj.
  apply getBookings_resolved in Hp as (Hskip & Hbs & _).
  rewrite Hpp in Hskip, Hbs. defaults.
  rewrite Hbs in Hj. apply lookup_slice in Hj as [Hi Hlt].
  eexists. split; [exact Hi|].
  assert (Htake : take perPage = 20).
  { unfold take.
    destruct (Z.leb_spec 1 perPage), (Z.leb_spec perPage 100); cbn; lia. }
  rewrite Htake in Hlt.
  set (page := default 1 (Listing.page a)) in *.
  destruct (Z.le_gt_cases page 1) as [Hfirst|Hlater].
  - rewrite (skip_first_page page perPage Hfirst). left. lia.
  - destruct (Z.lt_trichotomy perPage 0) as [Hneg | [-> | Hpos]].
    + assert (skip page perPage < 0) by (apply skip_negative; lia). lia.
    + rewrite (skip_exact page 0) by (try rewrite Z.mul_0_r; cbn; lia).
      left. lia.
    + pose proof (skip_at_least_perPage page perPage Hlater ltac:(lia)).
      right. lia.
Qed.

(** C10, as stated, fails for a negative [perPage]: on page 2 with
    [perPage = -5] the offset asked of the store is [-5]; the store refuses
    it and [getBookings] rejects, so that no record is skipped and none is
    returned, and nothing about it is silent.  And for a [perPage] so large
    that the product leaves the range in which numbers are exact, the
    offset is the product rounded, not the product. *)
Lemma negative_perPage_is_refused :
  getBookings (on_page 2 (per_page (-5) Sample.everything)) Sample.crowded
  = (inl InvalidArgument,
     mkWorld (db Sample.crowded)
       [booking_findMany (-5) 20 (bookings_where Sample.everything);
        booking_count (bookings_where Sample.everything)])
  ∧ ¬ (∃ p, fst (getBookings (on_page 2 (per_page (-5) Sample.everything))
                   Sample.crowded) = inr p)
  ∧ skip 4 (2 ^ 53 - 1) ≠ (4 - 1) * (2 ^ 53 - 1).
Proof.
  assert (Hrun : getBookings (on_page 2 (per_page (-5) Sample.everything))
                   Sample.crowded
                 = (inl InvalidArgument,
                    mkWorld (db Sample.crowded)
                      [booking_findMany (-5) 20 (bookings_where Sample.everything);
                       booking_count (bookings_where Sample.everything)]))
    by (vm_compute; reflexivity).
  split; [exact Hrun|]. split.
  - intros [p Hp]. rewrite Hrun in Hp. discriminate Hp.
  - vm_compute. discriminate.
Qed.

(** C10, amended: the offset is computed from the raw [perPage], not from
    the page size in effect.  For [page > 1] and a [perPage] that is 0 or
    above 100 the query skips [(page - 1) * perPage] rows (the product as
    the number type computes it, which is the product as long as that stays
    below [2 ^ 53]) and takes 20, which is not a step of [page - 1] pages of
    20.  So pages leave rows out: of no more than [perPage] bookings the
    first page returns 20 at most and every later page none; and, the
    bookings differing in [createdAt], the rows returned come from the first
    20 positions of the listing or from position [perPage] on, a row at a
    position from 20 up to [perPage] (from 20 on, for [perPage = 0]) being
    on no page.  For a negative [perPage] on a page after the first the
    offset is negative, the store refuses it and [getBookings] rejects. *)
Theorem getBookings_skip_raw_perPage
    (a : Listing.args) (w : World) (perPage : Z) :
  Listing.perPage a = Some perPage → ¬ (1 ≤ perPage ≤ 100) →
  (∀ page, Listing.page a = Some page → 1 < page →
     journal (snd (getBookings a w))
       = journal w ++ [booking_findMany (Js.times (Js.minus page 1) perPage) 20
                         (bookings_where a);
                       booking_count (bookings_where a)]
     ∧ (Z.abs ((page - 1) * perPage) < 2 ^ 53 →
        Js.times (Js.minus page 1) perPage = (page - 1) * perPage
        ∧ (page - 1) * perPage ≠ (page - 1) * take perPage)
     ∧ (perPage < 0 → fst (getBookings a w) = inl InvalidArgument)
     ∧ (0 ≤ perPage →
        ∃ p, fst (getBookings a w) = inr p
             ∧ bookings p
               = slice (Js.times (Js.minus page 1) perPage) 20 (listed a w)
             ∧ (length (bookings p) ≤ 20)%nat
             ∧ (100 < perPage < 2 ^ 53 →
                Z.of_nat (bookingCount p) ≤ perPage → bookings p = [])))
  ∧ (perPage < 2 ^ 53 →
     distinct_instants (Store.selected (bookings_where a) (db w)) →
     (∀ p (j : nat) b,
        fst (getBookings a w) = inr p → bookings p !! j = Some b →
        ∃ i : nat, listed a w !! i = Some b
                   ∧ ((i < 20)%nat ∨ (100 < perPage ∧ perPage ≤ Z.of_nat i)))
     ∧ (∀ p (i : nat) b,
          fst (getBookings a w) = inr p → listed a w !! i = Some b →
          (20 ≤ i)%nat → perPage ≤ 0 ∨ Z.of_nat i < perPage → b ∉ bookings p)).
Proof.
  intros Hpp Hout.
  assert (Htake : take perPage = 20).
  { unfold take.
    destruct (Z.leb_spec 1 perPage), (Z.leb_spec perPage 100); cbn; lia. }
  split.
  - intros page Hpage Hgt.
    pose proof (skip_later_page page perPage Hgt) as Hskip.
    assert (Hrun := getBookings_run a w). cbn zeta in Hrun.
    rewrite Hpp, Hpage in Hrun. defaults. rewrite Hskip, Htake in Hrun.
    split; [|split; [|split]].
    + rewrite Hrun. reflexivity.
    + intros Hsafe. rewrite <- Hskip, Htake.
      split; [apply skip_exact; assumption | nia].
    + intros Hneg. rewrite Hrun. cbn [fst].
      assert (skip page perPage < 0) by (apply skip_negative; lia).
      rewrite <- Hskip.
      destruct (Z.ltb_spec (skip page perPage) 0); [reflexivity | lia].
    + intros Hpos. rewrite Hrun. cbn [fst].
      pose proof (skip_nonnegative page perPage Hpos).
      rewrite <- Hskip.
      destruct (Z.ltb_spec (skip page perPage) 0); [lia|].
      eexists. split; [reflexivity|]. cbn [bookings bookingCount].
      split; [reflexivity|]. split; [apply (length_slice _ 20)|].
      intros Hlarge Hfew.
      pose proof (skip_at_least_perPage page perPage Hgt ltac:(lia)).
      unfold slice. rewrite drop_ge; [reflexivity|].
      unfold listed, Store.newest_first. rewrite merge_sort_Permutation. lia.
  - intros Hsafe Hdistinct. split.
    + intros p j b Hp Hj.
      exact (out_of_range_positions a w perPage p j b Hpp Hout Hsafe Hp Hj).
    + intros p i b Hp Hi Hge Hlt Hb.
      apply list_elem_of_lookup in Hb as [j Hj].
      destruct (out_of_range_positions a w perPage p j b Hpp Hout Hsafe Hp Hj)
        as (i' & Hi' & Hpos).
      assert (i = i') as <-.
      { eapply NoDup_lookup;
          [apply distinct_listed, Hdistinct | exact Hi | exact Hi']. }
      lia.
Qed.

(** Of twenty-five bookings, listed 250 to a page, the second page is empty
    and the first one stops after twenty: the booking at position 22 of the
    listing is on neither. *)
Lemma getBookings_skip_raw_perPage_witness :
  fst (getBookings Sample.second_page_of_250 Sample.crowded)
    = inr (mkPage [] 25)
  ∧ journal (snd (getBookings Sample.second_page_of_250 Sample.crowded))
    = journal Sample.crowded
      ++ [booking_findMany 250 20 (bookings_where Sample.second_page_of_250);
          booking_count (bookings_where Sample.second_page_of_250)]
  ∧ (2 - 1) * 250 ≠ (2 - 1) * take 250
  ∧ ∀ p, fst (getBookings Sample.first_page_of_250 Sample.crowded) = inr p →
         Sample.numbered 2 ∉ bookings p.
Proof.
  assert (Hout : ¬ (1 ≤ 250 ≤ 100)) by lia.
  destruct (getBookings_skip_raw_perPage Sample.second_page_of_250
              Sample.crowded 250 eq_refl Hout) as (Hq & _).
  destruct (getBookings_skip_raw_perPage Sample.first_page_of_250
              Sample.crowded 250 eq_refl Hout) as (_ & Hrows).
  destruct (Hq 2 eq_refl ltac:(lia)) as (Hj & Hexact & _).
  destruct (Hexact ltac:(vm_compute; reflexivity)) as [_ Hne].
  destruct (Hrows ltac:(vm_compute; reflexivity)
              ltac:(apply (bool_decide_unpack _); vm_compute; exact I))
    as [_ Hgap].
  split; [vm_compute; reflexivity|].
  split; [exact Hj|]. split; [exact Hne|].
  intros p Hp. apply (Hgap p 22%nat); [exact Hp | | lia | lia].
  vm_compute. reflexivity.
Defined.

(** ** Running the writes *)

Lemma find_Some (i : Id) (d : Store.Db) (b : Booking) :
  Store.find i d = Some b → b ∈ Store.bookings d ∧ id b = i.
Proof.
  unfold Store.find. intros H. apply List.find_some in H as [Hin Hid].
  apply list_elem_of_In in Hin. apply bool_decide_eq_true in Hid. auto.
Qed.

Lemma db_booking_update_run (i : Id) (data : BookingData) (w : World) :
  db_booking_update i data w =
    (match Store.update i data (db w) with
     | inr (b', d') => (inr b', mkWorld d' (journal w ++ [booking_update i data]))
     | inl e => (inl e, mkWorld (db w) (journal w ++ [booking_update i data]))
     end).
Proof. reflexivity. Qed.

Lemma db_booking_update_resolved
    (i : Id) (data : BookingData) (w : World) (b' : Booking) :
  fst (db_booking_update i data w) = inr b' →
  ∃ b, Store.find i (db w) = Some b
       ∧ b' = Store.write data b
       ∧ db (snd (db_booking_update i data w))
         = Store.set_bookings (Store.replace b' (Store.bookings (db w))) (db w).
Proof.
  rewrite db_booking_update_run. unfold Store.update.
  destruct (Store.find i (db w)) as [b|]; [|discriminate].
  destruct (Store.targets_known (db w) data); [|discriminate].
  cbn. intros [= <-]. eauto.
Qed.

Lemma db_booking_update_rejected
    (i : Id) (data : BookingData) (w : World) (e : Error) :
  fst (db_booking_update i data w) = inl e →
  db (snd (db_booking_update i data w)) = db w.
Proof.
  rewrite db_booking_update_run.
  destruct (Store.update i data (db w)) as [e'|[b' d']]; [reflexivity|discriminate].
Qed.

Lemma db_booking_create_run
    (g : Store.Generated) (data : BookingData) (w : World) :
  db_booking_create g data w =
    (match Store.create g data (db w) with
     | inr (b', d') => (inr b', mkWorld d' (journal w ++ [booking_create data]))
     | inl e => (inl e, mkWorld (db w) (journal w ++ [booking_create data]))
     end).
Proof. reflexivity. Qed.

Lemma db_booking_create_resolved
    (g : Store.Generated) (data : BookingData) (w : World) (b' : Booking) :
  fst (db_booking_create g data w) = inr b' →
  ∃ n c o, data_name data = Some n ∧ data_creator data = Some c
           ∧ data_organization data = Some o
           ∧ b' = Store.write data
                    (mkBooking (Store.new_id g) n (Store.default_status g) None None
                       o c None None ∅ (Store.now g))
           ∧ db (snd (db_booking_create g data w))
             = Store.set_bookings (Store.bookings (db w) ++ [b']) (db w).
Proof.
  rewrite db_booking_create_run. unfold Store.create.
  destruct (data_name data) as [n|]; [|discriminate].
  destruct (data_creator data) as [c|]; [|discriminate].
  destruct (data_organization data) as [o|]; [|discriminate].
  destruct (Store.creatable data); [|discriminate]. cbn [negb].
  destruct (Store.targets_known (db w) data); [|discriminate]. cbn [negb].
  destruct (Store.find (Store.new_id g) (db w)); [discriminate|].
  cbn. intros [= <-]. exists n, c, o. auto.
Qed.

(** A create resolves only under an id that is not taken. *)
Lemma create_fresh
    (g : Store.Generated) (data : BookingData) (w : World) (b' : Booking) :
  fst (db_booking_create g data w) = inr b' →
  Store.find (Store.new_id g) (db w) = None.
Proof.
  rewrite db_booking_create_run. unfold Store.create.
  destruct (data_name data); [|discriminate].
  destruct (data_creator data); [|discriminate].
  destruct (data_organization data); [|discriminate].
  destruct (negb (Store.creatable data)); [discriminate|].
  destruct (negb (Store.targets_known (db w) data)); [discriminate|].
  destruct (Store.find (Store.new_id g) (db w)); [discriminate | reflexivity].
Qed.

(** A [data] object that holds a [disconnect] is refused by [create],
    whatever else it holds and whatever the tables hold. *)
Lemma create_not_creatable
    (g : Store.Generated) (data : BookingData) (w : World) :
  Store.creatable data = false →
  db_booking_create g data w
  = (inl InvalidData, mkWorld (db w) (journal w ++ [booking_create data])).
Proof.
  intros H. rewrite db_booking_create_run. unfold Store.create. rewrite H.
  destruct (data_name data), (data_creator data), (data_organization data);
    reflexivity.
Qed.

Lemma db_booking_create_rejected
    (g : Store.Generated) (data : BookingData) (w : World) (e : Error) :
  fst (db_booking_create g data w) = inl e →
  db (snd (db_booking_create g data w)) = db w.
Proof.
  rewrite db_booking_create_run.
  destruct (Store.create g data (db w)) as [e'|[b' d']]; [reflexivity|discriminate].
Qed.

(** The keys of the [data] object of [upsertBooking]. *)
Lemma upsert_data_assets (booking : Upsert.payload) :
  data_assets (upsert_data booking)
  = ConnectMany <$> Js.has_length (Upsert.assetIds booking).
Proof.
  unfold upsert_data.
  destruct (Js.has_length (Upsert.assetIds booking)),
    (Js.truthy (Upsert.custodianUserId booking)),
    (Js.truthy (Upsert.custodianTeamMemberId booking)); reflexivity.
Qed.

Lemma upsert_data_custodians (booking : Upsert.payload) :
  (data_custodianUser (upsert_data booking),
   data_custodianTeamMember (upsert_data booking))
  = match Js.truthy (Upsert.custodianUserId booking),
          Js.truthy (Upsert.custodianTeamMemberId booking) with
    | Some u, _ => (Some (Connect u), Some Disconnect)
    | None, Some t => (Some Disconnect, Some (Connect t))
    | None, None => (None, None)
    end.
Proof.
  unfold upsert_data.
  destruct (Js.has_length (Upsert.assetIds booking)),
    (Js.truthy (Upsert.custodianUserId booking)),
    (Js.truthy (Upsert.custodianTeamMemberId booking)); reflexivity.
Qed.

Lemma upsert_data_owner (booking : Upsert.payload) :
  data_creator (upsert_data booking) = None
  ∧ data_organization (upsert_data booking) = None.
Proof.
  unfold upsert_data.
  destruct (Js.has_length (Upsert.assetIds booking)),
    (Js.truthy (Upsert.custodianUserId booking)),
    (Js.truthy (Upsert.custodianTeamMemberId booking)); auto.
Qed.

Lemma create_data_owner (booking : Upsert.payload) :
  data_creator (create_data booking) = Js.truthy (Upsert.creatorId booking)
  ∧ data_organization (create_data booking)
    = Js.truthy (Upsert.organizationId booking).
Proof.
  unfold create_data. destruct (upsert_data_owner booking) as [Hc Ho].
  destruct (Js.truthy (Upsert.creatorId booking)),
    (Js.truthy (Upsert.organizationId booking)); cbn; auto.
Qed.

(** With a custodian in the payload the [data] object holds a [disconnect],
    on the way to [create] as on the way to [update]. *)
Lemma create_data_custodian (booking : Upsert.payload) :
  Js.truthy (Upsert.custodianUserId booking) ≠ None
  ∨ Js.truthy (Upsert.custodianTeamMemberId booking) ≠ None →
  Store.creatable (create_data booking) = false.
Proof.
  intros H. unfold Store.creatable, create_data, upsert_data.
  destruct (Js.has_length (Upsert.assetIds booking)),
    (Js.truthy (Upsert.custodianUserId booking)),
    (Js.truthy (Upsert.custodianTeamMemberId booking)),
    (Js.truthy (Upsert.creatorId booking)),
    (Js.truthy (Upsert.organizationId booking)); try reflexivity;
    destruct H; congruence.
Qed.

Lemma create_data_rest (booking : Upsert.payload) :
  data_assets (create_data booking) = data_assets (upsert_data booking)
  ∧ data_custodianUser (create_data booking)
    = data_custodianUser (upsert_data booking)
  ∧ data_custodianTeamMember (create_data booking)
    = data_custodianTeamMember (upsert_data booking).
Proof.
  unfold create_data.
  destruct (Js.truthy (Upsert.creatorId booking)),
    (Js.truthy (Upsert.organizationId booking)); cbn; auto.
Qed.

(** What a resolved [upsertBooking] has done: an update of an existing row,
    or a create on a blank one. *)
Lemma upsertBooking_resolved
    (g : Store.Generated) (booking : Upsert.payload) (w : World) (b' : Booking) :
  fst (upsertBooking g booking w) = inr b' →
  (∃ i b, Js.truthy (Upsert.id booking) = Some i
          ∧ Store.find i (db w) = Some b
          ∧ b' = Store.write (upsert_data booking) b
          ∧ db (snd (upsertBooking g booking w))
            = Store.set_bookings (Store.replace b' (Store.bookings (db w)))
                (db w))
  ∨ (∃ n c o, Js.truthy (Upsert.id booking) = None
              ∧ Js.truthy (Upsert.creatorId booking) = Some c
              ∧ Js.truthy (Upsert.organizationId booking) = Some o
              ∧ b' = Store.write (create_data booking)
                       (mkBooking (Store.new_id g) n (Store.default_status g)
                          None None o c None None ∅ (Store.now g))
              ∧ db (snd (upsertBooking g booking w))
                = Store.set_bookings (Store.bookings (db w) ++ [b']) (db w)).
Proof.
  unfold upsertBooking.
  destruct (Js.truthy (Upsert.id booking)) as [i|].
  - intros H. apply db_booking_update_resolved in H as (b & ? & ? & ?).
    left. exists i, b. auto.
  - intros H. apply db_booking_create_resolved in H
      as (n & c & o & _ & Hc & Ho & ? & ?).
    destruct (create_data_owner booking) as [Hc' Ho'].
    rewrite Hc' in Hc. rewrite Ho' in Ho.
    right. exists n, c, o. auto.
Qed.

Lemma upsertBooking_rejected
    (g : Store.Generated) (booking : Upsert.payload) (w : World) (e : Error) :
  fst (upsertBooking g booking w) = inl e →
  db (snd (upsertBooking g booking w)) = db w.
Proof.
  unfold upsertBooking. destruct (Js.truthy (Upsert.id booking)).
  - apply db_booking_update_rejected.
  - apply db_booking_create_rejected.
Qed.

(** When [upsertBooking] resolves. *)
Lemma upsertBooking_update_resolves
    (g : Store.Generated) (booking : Upsert.payload) (w : World)
    (i : Id) (b : Booking) :
  Js.truthy (Upsert.id booking) = Some i →
  Store.find i (db w) = Some b →
  Store.targets_known (db w) (upsert_data booking) = true →
  fst (upsertBooking g booking w) = inr (Store.write (upsert_data booking) b).
Proof.
  intros Hid Hfind Hknown. unfold upsertBooking. rewrite Hid.
  rewrite db_booking_update_run. unfold Store.update.
  rewrite Hfind, Hknown. reflexivity.
Qed.

Lemma upsertBooking_create_resolves
    (g : Store.Generated) (booking : Upsert.payload) (w : World)
    (n : string) (c o : Id) :
  Js.truthy (Upsert.id booking) = None →
  data_name (create_data booking) = Some n →
  Js.truthy (Upsert.creatorId booking) = Some c →
  Js.truthy (Upsert.organizationId booking) = Some o →
  Store.creatable (create_data booking) = true →
  Store.targets_known (db w) (create_data booking) = true →
  Store.find (Store.new_id g) (db w) = None →
  ∃ b', fst (upsertBooking g booking w) = inr b'.
Proof.
  intros Hid Hn Hc Ho Hable Hknown Hfresh. unfold upsertBooking. rewrite Hid.
  rewrite db_booking_create_run. unfold Store.create.
  destruct (create_data_owner booking) as [Hc' Ho'].
  rewrite Hn, Hc', Ho', Hc, Ho, Hable, Hknown, Hfresh. cbn. eauto.
Qed.

Lemma find_replace (i : Id) (bs : list Booking) (b b' : Booking) :
  List.find (fun x => bool_decide (id x = i)) bs = Some b → id b' = i →
  List.find (fun x => bool_decide (id x = i)) (Store.replace b' bs) = Some b'.
Proof.
  intros Hfind <-. induction bs as [|x bs IH]; [discriminate|].
  cbn in *. case_bool_decide as Hx.
  - rewrite bool_decide_eq_true_2 by reflexivity. reflexivity.
  - rewrite bool_decide_eq_false_2 by exact Hx. apply IH, Hfind.
Qed.

Lemma find_snoc {A} (f : A → bool) (l : list A) (x : A) :
  List.find f (l ++ [x])
  = match List.find f l with
    | Some y => Some y
    | None => if f x then Some x else None
    end.
Proof.
  induction l as [|y l IH]; [reflexivity|].
  cbn. destruct (f y); [reflexivity | exact IH].
Qed.

(** The booking a resolved [upsertBooking] returns is the row the table
    holds under its id from then on. *)
Lemma upsertBooking_stored
    (g : Store.Generated) (booking : Upsert.payload) (w : World) (b' : Booking) :
  fst (upsertBooking g booking w) = inr b' →
  Store.find (id b') (db (snd (upsertBooking g booking w))) = Some b'.
Proof.
  intros Hrun. pose proof Hrun as Hcase.
  apply upsertBooking_resolved in Hcase
    as [(i & b & Hid & Hfind & Hb' & Hdb) | (n & c & o & Hid & _ & _ & Hb' & Hdb)].
  - rewrite Hdb. unfold Store.find. cbn [Store.bookings Store.set_bookings].
    assert (Hi : id b' = i).
    { rewrite Hb'. cbn. apply (find_Some i (db w) b Hfind). }
    rewrite Hi. apply find_replace with b; [exact Hfind | exact Hi].
  - rewrite Hdb. unfold Store.find. cbn [Store.bookings Store.set_bookings].
    assert (Hnew : id b' = Store.new_id g) by (rewrite Hb'; reflexivity).
    unfold upsertBooking in Hrun. rewrite Hid in Hrun.
    apply create_fresh in Hrun. unfold Store.find in Hrun.
    rewrite find_snoc, Hnew, Hrun.
    rewrite bool_decide_eq_true_2 by reflexivity. reflexivity.
Qed.

(** The id under which an update stores, and the id a create stores
    under, which no row had. *)
Lemma upsertBooking_id
    (g : Store.Generated) (booking : Upsert.payload) (w : World) (b' : Booking) :
  fst (upsertBooking g booking w) = inr b' →
  (∀ i, Js.truthy (Upsert.id booking) = Some i → id b' = i)
  ∧ (Js.truthy (Upsert.id booking) = None →
     id b' = Store.new_id g ∧ Store.find (id b') (db w) = None).
Proof.
  intros Hrun. pose proof Hrun as Hcase.
  apply upsertBooking_resolved in Hcase
    as [(i & b & Hid & Hfind & Hb' & _) | (n & c & o & Hid & _ & _ & Hb' & _)].
  - split; [|rewrite Hid; discriminate].
    intros i0 Hi0. rewrite Hid in Hi0. injection Hi0 as <-.
    rewrite Hb'. cbn. apply (find_Some i (db w) b Hfind).
  - split; [intros i0 Hi0; rewrite Hid in Hi0; discriminate|].
    intros _. assert (Hnew : id b' = Store.new_id g) by (rewrite Hb'; reflexivity).
    split; [exact Hnew|]. rewrite Hnew.
    unfold upsertBooking in Hrun. rewrite Hid in Hrun.
    eapply create_fresh, Hrun.
Qed.

(** ** Claims about [upsertBooking] *)

(** The custodian columns after the [data] of [upsertBooking] is written. *)
Lemma written_custodians
    (booking : Upsert.payload) (data : BookingData) (b : Booking) :
  data_custodianUser data = data_custodianUser (upsert_data booking) →
  data_custodianTeamMember data
    = data_custodianTeamMember (upsert_data booking) →
  custodianUserId (Store.write data b)
  = match Js.truthy (Upsert.custodianUserId booking),
          Js.truthy (Upsert.custodianTeamMemberId booking) with
    | Some u, _ => Some u
    | None, Some t => None
    | None, None => custodianUserId b
    end
  ∧ custodianTeamMemberId (Store.write data b)
    = match Js.truthy (Upsert.custodianUserId booking),
            Js.truthy (Upsert.custodianTeamMemberId booking) with
      | Some u, _ => None
      | None, Some t => Some t
      | None, None => custodianTeamMemberId b
      end.
Proof.
  intros Hu Ht. cbn. rewrite Hu, Ht.
  pose proof (upsert_data_custodians booking) as H.
  destruct (Js.truthy (Upsert.custodianUserId booking)),
    (Js.truthy (Upsert.custodianTeamMemberId booking));
    injection H as -> ->; auto.
Qed.

Lemma written_exclusive
    (booking : Upsert.payload) (data : BookingData) (b : Booking) :
  data_custodianUser data = data_custodianUser (upsert_data booking) →
  data_custodianTeamMember data
    = data_custodianTeamMember (upsert_data booking) →
  exclusive b → exclusive (Store.write data b).
Proof.
  intros Hu Ht Hb.
  destruct (written_custodians booking data b Hu Ht) as [Hcu Hct].
  unfold exclusive. rewrite Hcu, Hct.
  destruct (Js.truthy (Upsert.custodianUserId booking)),
    (Js.truthy (Upsert.custodianTeamMemberId booking)); auto.
Qed.

Lemma replace_Forall (P : Booking → Prop) (b' : Booking) (bs : list Booking) :
  P b' → Forall P bs → Forall P (Store.replace b' bs).
Proof.
  intros Hb' Hbs. unfold Store.replace. apply Forall_fmap.
  eapply Forall_impl; [exact Hbs|].
  intros x Hx. cbn. case_bool_decide; assumption.
Qed.

Lemma upsertBooking_keeps_exclusive
    (g : Store.Generated) (booking : Upsert.payload) (w : World) :
  Forall exclusive (Store.bookings (db w)) →
  Forall exclusive (Store.bookings (db (snd (upsertBooking g booking w)))).
Proof.
  intros Hall.
  destruct (fst (upsertBooking g booking w)) as [e|b'] eqn:Hrun.
  - rewrite (upsertBooking_rejected g booking w e Hrun). exact Hall.
  - apply upsertBooking_resolved in Hrun
      as [(i & b & _ & Hfind & -> & ->) | (n & c & o & _ & _ & _ & -> & ->)].
    + cbn. apply find_Some in Hfind as [Hin _].
      apply replace_Forall; [|exact Hall].
      apply (written_exclusive booking); [reflexivity | reflexivity |].
      rewrite Forall_forall in Hall. apply Hall, Hin.
    + cbn. apply Forall_app. split; [exact Hall|].
      apply Forall_singleton.
      destruct (create_data_rest booking) as (_ & Hu & Ht).
      apply (written_exclusive booking); [exact Hu | exact Ht |].
      left. reflexivity.
Qed.

Lemma removeAssets_keeps_exclusive (i : Id) (assetIds : list Id) (w : World) :
  Forall exclusive (Store.bookings (db w)) →
  Forall exclusive (Store.bookings (db (snd (removeAssets i assetIds w)))).
Proof.
  intros Hall. unfold removeAssets.
  set (data := mkData _ _ _ _ _ _ _ _ _).
  destruct (fst (db_booking_update i data w)) as [e|b'] eqn:Hrun.
  - rewrite (db_booking_update_rejected i data w e Hrun). exact Hall.
  - apply db_booking_update_resolved in Hrun as (b & Hfind & -> & ->).
    cbn. apply find_Some in Hfind as [Hin _].
    apply replace_Forall; [|exact Hall].
    rewrite Forall_forall in Hall. exact (Hall b Hin).
Qed.

Lemma deleteBooking_run (i : Id) (w : World) :
  deleteBooking i w =
    (match Store.find i (db w) with
     | Some b =>
         (inr b,
          mkWorld
            (Store.set_bookings
               (List.filter (fun x => negb (bool_decide (id x = i)))
                  (Store.bookings (db w))) (db w))
            (journal w ++ [booking_delete i]))
     | None => (inl RecordNotFound, mkWorld (db w) (journal w ++ [booking_delete i]))
     end).
Proof.
  unfold deleteBooking, db_booking_delete, issue, Store.delete.
  destruct (Store.find i (db w)); reflexivity.
Qed.

Lemma getBooking_run (i : Id) (w : World) :
  getBooking i w
  = (inr (Store.find i (db w)), mkWorld (db w) (journal w ++ [booking_findFirst i])).
Proof. reflexivity. Qed.

Lemma deleteBooking_keeps_exclusive (i : Id) (w : World) :
  Forall exclusive (Store.bookings (db w)) →
  Forall exclusive (Store.bookings (db (snd (deleteBooking i w)))).
Proof.
  intros Hall. rewrite deleteBooking_run.
  destruct (Store.find i (db w)); [|exact Hall].
  cbn. rewrite Forall_forall in *. intros x Hx. apply Hall.
  apply list_elem_of_In, List.filter_In in Hx as [Hx _].
  apply list_elem_of_In, Hx.
Qed.

(** Every booking the service has stored has at most one custodian. *)
Lemma Reachable_exclusive (w : World) :
  Reachable w → Forall exclusive (Store.bookings (db w)).
Proof.
  induction 1 as [d Hd | g booking w _ IH | i assetIds w _ IH | a w _ IH
                 | i w _ IH | i w _ IH].
  - cbn. rewrite Hd. constructor.
  - apply upsertBooking_keeps_exclusive, IH.
  - apply removeAssets_keeps_exclusive, IH.
  - rewrite getBookings_run. exact IH.
  - apply deleteBooking_keeps_exclusive, IH.
  - rewrite getBooking_run. exact IH.
Qed.

(** C3: [upsertBooking] keeps every booking of the store with at most one
    custodian (the bookings of a store have at most one to begin with, see
    [Reachable_exclusive]).  An update stores the booking it returns, and
    in that booking a user custodian id that is supplied is connected and
    the team-member custodian is cleared; else a team-member custodian id
    that is supplied is connected and the user custodian is cleared; with
    neither, both columns are left as they were.  A create does so only
    when no custodian is supplied, and then leaves both columns empty: when
    one is supplied, the [data] object holds the [disconnect] meant for the
    update, the store refuses it, and nothing is created.  Supplied is what
    the code tests: present and not the empty string. *)
Theorem upsertBooking_custodian
    (g : Store.Generated) (booking : Upsert.payload) (w : World) :
  let after := snd (upsertBooking g booking w) in
  (Forall exclusive (Store.bookings (db w)) →
   Forall exclusive (Store.bookings (db after)))
  ∧ (∀ i b b', Js.truthy (Upsert.id booking) = Some i →
       Store.find i (db w) = Some b →
       fst (upsertBooking g booking w) = inr b' →
       Store.find i (db after) = Some b'
       ∧ (exclusive b → exclusive b')
       ∧ (∀ u, Js.truthy (Upsert.custodianUserId booking) = Some u →
               custodianUserId b' = Some u ∧ custodianTeamMemberId b' = None)
       ∧ (∀ t, Js.truthy (Upsert.custodianUserId booking) = None →
               Js.truthy (Upsert.custodianTeamMemberId booking) = Some t →
               custodianTeamMemberId b' = Some t ∧ custodianUserId b' = None)
       ∧ (Js.truthy (Upsert.custodianUserId booking) = None →
          Js.truthy (Upsert.custodianTeamMemberId booking) = None →
          custodianUserId b' = custodianUserId b
          ∧ custodianTeamMemberId b' = custodianTeamMemberId b))
  ∧ (Js.truthy (Upsert.id booking) = None →
     (Js.truthy (Upsert.custodianUserId booking) ≠ None
      ∨ Js.truthy (Upsert.custodianTeamMemberId booking) ≠ None →
      fst (upsertBooking g booking w) = inl InvalidData
      ∧ journal after = journal w ++ [booking_create (create_data booking)]
      ∧ db after = db w)
     ∧ (∀ b', fst (upsertBooking g booking w) = inr b' →
              Store.find (id b') (db after) = Some b'
              ∧ custodianUserId b' = None ∧ custodianTeamMemberId b' = None)).
Proof.
  intros after. split; [apply upsertBooking_keeps_exclusive|]. split.
  - intros i b b' Hid Hfind Hrun.
    pose proof (upsertBooking_stored g booking w b' Hrun) as Hstored.
    destruct (upsertBooking_id g booking w b' Hrun) as [Hi _].
    rewrite (Hi i Hid) in Hstored.
    apply upsertBooking_resolved in Hrun
      as [(i' & b0 & Hid' & Hfind' & Hb' & _) | (n & c & o & Hid' & _)];
      [|congruence].
    assert (i' = i) as -> by congruence.
    assert (b0 = b) as -> by congruence.
    destruct (written_custodians booking _ b eq_refl eq_refl) as [Hcu Hct].
    rewrite <- Hb' in Hcu, Hct.
    split; [exact Hstored|]. split; [|split; [|split]].
    + intros Hb. rewrite Hb'. apply (written_exclusive booking); done.
    + intros u Hsome. rewrite Hsome in Hcu, Hct. done.
    + intros t Hnone Hsome. rewrite Hnone, Hsome in Hcu, Hct. done.
    + intros Hnu Hnt. rewrite Hnu, Hnt in Hcu, Hct. done.
  - intros Hid. split.
    + intros Hcustodian. unfold after, upsertBooking. rewrite Hid.
      rewrite (create_not_creatable g _ w
                 (create_data_custodian booking Hcustodian)).
      auto.
    + intros b' Hrun.
      split; [apply upsertBooking_stored, Hrun|].
      destruct (Js.truthy (Upsert.custodianUserId booking)) as [u|] eqn:Hu.
      { unfold upsertBooking in Hrun. rewrite Hid in Hrun.
        rewrite create_not_creatable in Hrun; [discriminate|].
        apply create_data_custodian. left. rewrite Hu. discriminate. }
      destruct (Js.truthy (Upsert.custodianTeamMemberId booking)) as [t|] eqn:Ht.
      { unfold upsertBooking in Hrun. rewrite Hid in Hrun.
        rewrite create_not_creatable in Hrun; [discriminate|].
        apply create_data_custodian. right. rewrite Ht. discriminate. }
      destruct (create_data_rest booking) as (_ & Hdu & Hdt).
      apply upsertBooking_resolved in Hrun
        as [(i & b & Hid' & _) | (n & c & o & _ & _ & _ & Hb' & _)];
        [congruence|].
      destruct (written_custodians booking (create_data booking)
                  (mkBooking (Store.new_id g) n (Store.default_status g) None None
                     o c None None ∅ (Store.now g)) Hdu Hdt) as [Hcu Hct].
      rewrite <- Hb', Hu, Ht in Hcu, Hct. auto.
Qed.

Lemma two_bookings_reachable : Reachable Sample.two_bookings.
Proof. do 2 apply reach_upsertBooking. apply reach_start. reflexivity. Qed.

(** The second sample booking, handed to [ann] by an update; and the same
    booking created for [ann] from the start, which the store refuses. *)
Lemma upsertBooking_custodian_witness :
  (Store.find "b2"
     (db (snd (upsertBooking Sample.third Sample.hand_to_ann
                 Sample.two_bookings)))
   = Some Sample.saw_of_ann
   ∧ custodianUserId Sample.saw_of_ann = Some "ann"
   ∧ custodianTeamMemberId Sample.saw_of_ann = None)
  ∧ fst (upsertBooking Sample.second Sample.saw_for_ann Sample.one_booking)
    = inl InvalidData
  ∧ db (snd (upsertBooking Sample.second Sample.saw_for_ann Sample.one_booking))
    = db Sample.one_booking.
Proof.
  destruct (upsertBooking_custodian Sample.third Sample.hand_to_ann
              Sample.two_bookings) as (_ & Hupdate & _).
  destruct (upsertBooking_custodian Sample.second Sample.saw_for_ann
              Sample.one_booking) as (_ & _ & Hcreate).
  split.
  - destruct (Hupdate "b2" Sample.saw Sample.saw_of_ann)
      as (Hstored & _ & Hu & _);
      [reflexivity | vm_compute; reflexivity | vm_compute; reflexivity |].
    split; [exact Hstored|]. apply (Hu "ann"). reflexivity.
  - destruct (Hcreate eq_refl) as [Hrefused _].
    destruct Hrefused as (Hr & _ & Hdb); [left; discriminate|].
    split; [exact Hr | exact Hdb].
Defined.

Lemma truthy_Some (s : option string) (v : string) :
  Js.truthy s = Some v → s = Some v.
Proof. destruct s as [[|c s]|]; cbn; congruence. Qed.

Lemma has_length_Some {A} (xs : option (list A)) (v : list A) :
  Js.has_length xs = Some v → xs = Some v ∧ v ≠ [].
Proof.
  destruct xs as [[|x xs]|]; cbn; [discriminate | | discriminate].
  intros [= <-]. done.
Qed.

(** C4, as stated, fails: the second sample booking has the assets 1, 2 and
    3; after [upsertBooking] with its id and [assetIds = ["4"]] the table
    holds it with the assets 1, 2, 3 and 4, not with the asset 4 alone. *)
Lemma assets_are_added_not_replaced :
  fst (upsertBooking Sample.third Sample.add_fourth_asset Sample.two_bookings)
    = inr Sample.saw_with_four
  ∧ assets Sample.saw_with_four ≠ list_to_set ["4"]
  ∧ Store.find "b2"
      (db (snd (upsertBooking Sample.third Sample.add_fourth_asset
                  Sample.two_bookings)))
    = Some Sample.saw_with_four.
Proof.
  split; [vm_compute; reflexivity|]. split; [|vm_compute; reflexivity].
  intros H. assert (Hin : "1" ∈ assets Sample.saw_with_four) by (cbn; set_solver).
  rewrite H in Hin. set_solver.
Qed.

(** C4, amended: a call of [upsertBooking] with a non-empty [assetIds] that
    succeeds connects the given ids in addition to the assets already
    connected: in the row the table holds afterwards under the id of the
    booking, the asset set is, after an update, the union of the previous
    asset set of that row and the given ids, and after a create, of a row
    that was not there before, exactly the given ids. *)
Theorem upsertBooking_assets
    (g : Store.Generated) (booking : Upsert.payload) (w : World)
    (assetIds : list Id) (b' : Booking) :
  Js.has_length (Upsert.assetIds booking) = Some assetIds →
  fst (upsertBooking g booking w) = inr b' →
  ∃ r, Store.find (id b') (db (snd (upsertBooking g booking w))) = Some r
       ∧ (∀ x, x ∈ assetIds → x ∈ assets r)
       ∧ (∀ i b, Js.truthy (Upsert.id booking) = Some i →
                 Store.find i (db w) = Some b →
                 id b' = i
                 ∧ assets r = assets b ∪ list_to_set assetIds
                 ∧ ∀ x, x ∈ assets b → x ∈ assets r)
       ∧ (Js.truthy (Upsert.id booking) = None →
          Store.find (id b') (db w) = None
          ∧ assets r = list_to_set assetIds).
Proof.
  intros Hids Hrun.
  pose proof (upsert_data_assets booking) as Hdata. rewrite Hids in Hdata.
  destruct (create_data_rest booking) as (Hcreate & _ & _).
  rewrite Hdata in Hcreate.
  exists b'. split; [apply upsertBooking_stored, Hrun|].
  destruct (upsertBooking_id g booking w b' Hrun) as [Hupd Hnew].
  apply upsertBooking_resolved in Hrun
    as [(i & b & Hid & Hfind & -> & _) | (n & c & o & Hid & _ & _ & -> & _)].
  - cbn [assets Store.write]. rewrite Hdata.
    cbn [Store.link fmap option_fmap option_map]. split; [|split].
    + intros x Hx. apply elem_of_union. right. apply elem_of_list_to_set, Hx.
    + intros i0 b0 Hid0 Hfind0. rewrite Hid in Hid0. simplify_eq.
      split; [apply Hupd, Hid|]. split; [reflexivity|].
      intros x Hx. apply elem_of_union. left. exact Hx.
    + rewrite Hid. discriminate.
  - cbn [assets Store.write]. rewrite Hcreate.
    cbn [Store.link fmap option_fmap option_map]. split; [|split].
    + intros x Hx. apply elem_of_union. right. apply elem_of_list_to_set, Hx.
    + intros i0 b0 Hid0. rewrite Hid in Hid0. discriminate.
    + intros _. split; [apply Hnew, Hid | apply union_empty_l_L].
Qed.

Lemma upsertBooking_assets_witness :
  ∃ r, Store.find "b2"
         (db (snd (upsertBooking Sample.third Sample.add_fourth_asset
                     Sample.two_bookings))) = Some r
       ∧ assets r = assets Sample.saw ∪ list_to_set ["4"].
Proof.
  destruct (upsertBooking_assets Sample.third Sample.add_fourth_asset
              Sample.two_bookings ["4"] Sample.saw_with_four)
    as (r & Hstored & _ & Hupdate & _).
  - reflexivity.
  - vm_compute. reflexivity.
  - exists r. split; [exact Hstored|].
    apply (Hupdate "b2" Sample.saw).
    + reflexivity.
    + vm_compute. reflexivity.
Defined.

(** C5: the row [upsertBooking] without an id adds to the table has the
    [creatorId] and the [organizationId] of the payload; [upsertBooking]
    with an id leaves the [creatorId] and the [organizationId] of the row
    with that id as they are, whatever the payload holds for them. *)
Theorem upsertBooking_creator_organization
    (g : Store.Generated) (booking : Upsert.payload) (w : World) (b' : Booking) :
  fst (upsertBooking g booking w) = inr b' →
  ∃ r, Store.find (id b') (db (snd (upsertBooking g booking w))) = Some r
       ∧ (Js.truthy (Upsert.id booking) = None →
          Store.find (id b') (db w) = None
          ∧ Upsert.creatorId booking = Some (creatorId r)
          ∧ Upsert.organizationId booking = Some (organizationId r))
       ∧ (∀ i b, Js.truthy (Upsert.id booking) = Some i →
                 Store.find i (db w) = Some b →
                 id b' = i
                 ∧ creatorId r = creatorId b
                 ∧ organizationId r = organizationId b).
Proof.
  intros Hrun.
  destruct (upsert_data_owner booking) as [Hc Ho].
  destruct (create_data_owner booking) as [Hc' Ho'].
  exists b'. split; [apply upsertBooking_stored, Hrun|].
  destruct (upsertBooking_id g booking w b' Hrun) as [Hupd Hnew].
  apply upsertBooking_resolved in Hrun
    as [(i & b & Hid & Hfind & -> & _) | (n & c & o & Hid & Hcr & Hor & -> & _)].
  - split.
    + rewrite Hid. discriminate.
    + intros i0 b0 Hid0 Hfind0. rewrite Hid in Hid0. simplify_eq.
      split; [apply Hupd, Hid|].
      cbn. rewrite Hc, Ho. done.
  - split.
    + intros _. split; [apply Hnew, Hid|].
      cbn. rewrite Hc', Ho', Hcr, Hor. cbn.
      split; apply truthy_Some; assumption.
    + intros i0 b0 Hid0. rewrite Hid in Hid0. discriminate.
Qed.

(** The second sample booking as it is created, for [ann] and [bolt]; and
    after an update whose payload names [bob] and [acme], still theirs. *)
Lemma upsertBooking_creator_organization_witness :
  (∃ r, Store.find "b2" (db Sample.two_bookings) = Some r
        ∧ Some "ann" = Some (creatorId r) ∧ Some "bolt" = Some (organizationId r))
  ∧ (∃ r, Store.find "b2"
            (db (snd (upsertBooking Sample.third Sample.change_owner
                        Sample.two_bookings))) = Some r
          ∧ creatorId r = "ann" ∧ organizationId r = "bolt").
Proof.
  split.
  - destruct (upsertBooking_creator_organization Sample.second
                Sample.saw_payload Sample.one_booking Sample.saw)
      as (r & Hstored & Hcreate & _); [vm_compute; reflexivity|].
    exists r. split; [exact Hstored|]. apply (Hcreate eq_refl).
  - destruct (upsertBooking_creator_organization Sample.third
                Sample.change_owner Sample.two_bookings Sample.saw)
      as (r & Hstored & _ & Hupdate); [vm_compute; reflexivity|].
    exists r. split; [exact Hstored|].
    apply (Hupdate "b2" Sample.saw); [reflexivity | vm_compute; reflexivity].
Defined.

(** C9, as stated, fails: [upsertBooking] without an id and without a
    [creatorId] does issue a store operation, the [create] call, and it is
    the store that turns the call down; the record of calls is not what it
    was. *)
Lemma create_without_creator_reaches_store :
  upsertBooking Sample.second Sample.no_creator Sample.start
    = (inl InvalidData,
       mkWorld Sample.tables
         [booking_create
            (mkData (Some "drill") None (Some (Some 1)) (Some (Some 2))
               None None None None (Some "acme"))])
  ∧ ¬ ∃ e, upsertBooking Sample.second Sample.no_creator Sample.start
           = (inl e, Sample.start).
Proof.
  assert (Hrun : upsertBooking Sample.second Sample.no_creator Sample.start
                 = (inl InvalidData,
                    mkWorld Sample.tables
                      [booking_create
                         (mkData (Some "drill") None (Some (Some 1))
                            (Some (Some 2)) None None None None (Some "acme"))]))
    by (vm_compute; reflexivity).
  split; [exact Hrun|].
  intros [e H]. rewrite Hrun in H. discriminate H.
Qed.

(** C9, amended: [upsertBooking] called without an id checks nothing itself.
    It always issues the [create] call of the store, with the [data] it has
    assembled (without a creator link when [creatorId] is missing, without
    an organization link when [organizationId] is), and its outcome is the
    outcome of that call: the store turns down a create that lacks the
    name, the creator or the organization, and whenever the call is turned
    down the tables are left as they were. *)
Theorem upsertBooking_create_unvalidated
    (g : Store.Generated) (booking : Upsert.payload) (w : World) :
  Js.truthy (Upsert.id booking) = None →
  upsertBooking g booking w = db_booking_create g (create_data booking) w
  ∧ journal (snd (upsertBooking g booking w))
    = journal w ++ [booking_create (create_data booking)]
  ∧ (Js.truthy (Upsert.creatorId booking) = None →
     data_creator (create_data booking) = None)
  ∧ (Js.truthy (Upsert.organizationId booking) = None →
     data_organization (create_data booking) = None)
  ∧ (Js.truthy (Upsert.creatorId booking) = None
     ∨ Js.truthy (Upsert.organizationId booking) = None
     ∨ Upsert.name booking = None →
     fst (upsertBooking g booking w) = inl InvalidData)
  ∧ (∀ e, fst (upsertBooking g booking w) = inl e →
          db (snd (upsertBooking g booking w)) = db w).
Proof.
  intros Hid.
  assert (Hrun : upsertBooking g booking w
                 = db_booking_create g (create_data booking) w).
  { unfold upsertBooking. rewrite Hid. reflexivity. }
  destruct (create_data_owner booking) as [Hc Ho].
  assert (Hn : data_name (create_data booking) = Upsert.name booking).
  { unfold create_data, upsert_data.
    destruct (Js.has_length (Upsert.assetIds booking)),
      (Js.truthy (Upsert.custodianUserId booking)),
      (Js.truthy (Upsert.custodianTeamMemberId booking)),
      (Js.truthy (Upsert.creatorId booking)),
      (Js.truthy (Upsert.organizationId booking)); reflexivity. }
  split; [exact Hrun|]. split; [|split; [|split; [|split]]].
  - rewrite Hrun, db_booking_create_run.
    destruct (Store.create g (create_data booking) (db w)) as [e|[b' d']];
      reflexivity.
  - intros Hnone. rewrite Hc. exact Hnone.
  - intros Hnone. rewrite Ho. exact Hnone.
  - intros Hmissing. rewrite Hrun, db_booking_create_run. unfold Store.create.
    rewrite Hn, Hc, Ho.
    destruct Hmissing as [-> | [-> | ->]];
      destruct (Upsert.name booking); try reflexivity;
      destruct (Js.truthy (Upsert.creatorId booking)); reflexivity.
  - intros e. apply upsertBooking_rejected.
Qed.

(** A create without creator, and the second sample booking created
    without organization. *)
Lemma upsertBooking_create_unvalidated_witness :
  journal (snd (upsertBooking Sample.second Sample.no_creator Sample.start))
    = journal Sample.start ++ [booking_create (create_data Sample.no_creator)]
  ∧ fst (upsertBooking Sample.second Sample.no_creator Sample.start)
    = inl InvalidData
  ∧ fst (upsertBooking Sample.second Sample.no_organization Sample.one_booking)
    = inl InvalidData.
Proof.
  destruct (upsertBooking_create_unvalidated Sample.second Sample.no_creator
              Sample.start eq_refl) as (_ & Hj & _ & _ & Hc & _).
  destruct (upsertBooking_create_unvalidated Sample.second
              Sample.no_organization Sample.one_booking eq_refl)
    as (_ & _ & _ & _ & Ho & _).
  split; [exact Hj|]. split.
  - apply Hc. left. reflexivity.
  - apply Ho. right. left. reflexivity.
Defined.

(** ** Claims about [removeAssets] *)

Lemma replace_again (b' : Booking) (bs : list Booking) :
  Store.replace b' (Store.replace b' bs) = Store.replace b' bs.
Proof.
  unfold Store.replace. rewrite <- list_fmap_compose.
  apply list_fmap_ext. intros k x _. cbn.
  destruct (bool_decide (id x = id b')) eqn:Hx.
  - rewrite bool_decide_eq_true_2 by reflexivity. reflexivity.
  - rewrite Hx. reflexivity.
Qed.

Lemma lookup_replace (b' : Booking) (bs : list Booking) (k : nat) (x : Booking) :
  bs !! k = Some x → id x ≠ id b' → Store.replace b' bs !! k = Some x.
Proof.
  intros Hk Hne. unfold Store.replace. rewrite list_lookup_fmap, Hk. cbn.
  rewrite bool_decide_eq_false_2 by exact Hne. reflexivity.
Qed.

Lemma removeAssets_run (i : Id) (assetIds : list Id) (w : World) (b : Booking) :
  Store.find i (db w) = Some b →
  removeAssets i assetIds w
  = (inr (without assetIds b),
     mkWorld
       (Store.set_bookings
          (Store.replace (without assetIds b) (Store.bookings (db w))) (db w))
       (journal w
          ++ [booking_update i
                (mkData None None None None (Some (DisconnectMany assetIds))
                   None None None None)])).
Proof.
  intros Hfind. unfold removeAssets. rewrite db_booking_update_run.
  unfold Store.update. rewrite Hfind. reflexivity.
Qed.

Lemma without_again (assetIds : list Id) (b : Booking) :
  without assetIds (without assetIds b) = without assetIds b.
Proof.
  unfold without. cbn. f_equal.
  apply set_eq. intros x. rewrite !elem_of_difference. tauto.
Qed.

(** C8: on an existing booking [removeAssets] resolves, with the booking
    less exactly the given assets (assets that were not connected are
    ignored); the other bookings of the store stay as they are, whatever
    assets they hold; and a second call with the same arguments resolves
    again, to the same booking, and leaves the tables unchanged.  With the
    assets 1, 2 and 3 and the ids 2 and 4 the booking is left with 1
    and 3. *)
Theorem removeAssets_disconnects
    (i : Id) (assetIds : list Id) (w : World) (b : Booking) :
  Store.find i (db w) = Some b →
  let after := snd (removeAssets i assetIds w) in
  fst (removeAssets i assetIds w) = inr (without assetIds b)
  ∧ (∀ x, x ∈ assets (without assetIds b) ↔ x ∈ assets b ∧ x ∉ assetIds)
  ∧ (∀ k x, Store.bookings (db w) !! k = Some x → id x ≠ i →
            Store.bookings (db after) !! k = Some x)
  ∧ length (Store.bookings (db after)) = length (Store.bookings (db w))
  ∧ Store.find i (db after) = Some (without assetIds b)
  ∧ fst (removeAssets i assetIds after) = inr (without assetIds b)
  ∧ db (snd (removeAssets i assetIds after)) = db after
  ∧ (assets b = {["1"; "2"; "3"]} → assetIds = ["2"; "4"] →
     assets (without assetIds b) = {["1"; "3"]}).
Proof.
  intros Hfind after.
  assert (Hid : id (without assetIds b) = i).
  { apply find_Some in Hfind as [_ Hid]. exact Hid. }
  assert (Hafter : Store.find i (db after) = Some (without assetIds b)).
  { unfold after. rewrite (removeAssets_run i assetIds w b Hfind).
    cbn. apply find_replace with b; [exact Hfind | exact Hid]. }
  split; [|split; [|split; [|split; [|split; [|split; [|split]]]]]].
  - rewrite (removeAssets_run i assetIds w b Hfind). reflexivity.
  - intros x. cbn. rewrite elem_of_difference, elem_of_list_to_set. reflexivity.
  - intros k x Hk Hne. unfold after.
    rewrite (removeAssets_run i assetIds w b Hfind). cbn.
    apply lookup_replace; [exact Hk|]. rewrite Hid. exact Hne.
  - unfold after. rewrite (removeAssets_run i assetIds w b Hfind). cbn.
    unfold Store.replace. apply length_fmap.
  - exact Hafter.
  - rewrite (removeAssets_run i assetIds after _ Hafter). cbn.
    rewrite without_again. reflexivity.
  - rewrite (removeAssets_run i assetIds after _ Hafter). cbn.
    rewrite without_again. unfold after.
    rewrite (removeAssets_run i assetIds w b Hfind).
    cbn [snd db]. unfold Store.set_bookings. cbn [Store.bookings].
    rewrite replace_again. reflexivity.
  - intros Hb ->. cbn. rewrite Hb. vm_compute. reflexivity.
Qed.

Lemma removeAssets_disconnects_witness :
  fst (removeAssets "b2" ["2"; "4"] Sample.two_bookings)
    = inr Sample.saw_without_two
  ∧ fst (removeAssets "b2" ["2"; "4"]
           (snd (removeAssets "b2" ["2"; "4"] Sample.two_bookings)))
    = inr Sample.saw_without_two.
Proof.
  assert (Hfind : Store.find "b2" (db Sample.two_bookings) = Some Sample.saw)
    by (vm_compute; reflexivity).
  assert (Hleft : without ["2"; "4"] Sample.saw = Sample.saw_without_two)
    by (vm_compute; reflexivity).
  rewrite <- Hleft.
  destruct (removeAssets_disconnects "b2" ["2"; "4"] Sample.two_bookings
              Sample.saw Hfind) as (Hfirst & _ & _ & _ & _ & Hsecond & _).
  split; [exact Hfirst | exact Hsecond].
Defined.

(** ** [getBooking] and [deleteBooking] *)

(** No booking with the id: [getBooking] resolves, to [null]. *)
Lemma getBooking_absent (i : Id) (w : World) :
  Store.find i (db w) = None → fst (getBooking i w) = inr None.
Proof. intros H. rewrite getBooking_run. cbn. rewrite H. reflexivity. Qed.

Lemma find_filtered (i : Id) (bs : list Booking) :
  List.find (fun x => bool_decide (id x = i))
    (List.filter (fun x => negb (bool_decide (id x = i))) bs) = None.
Proof.
  induction bs as [|x bs IH]; [reflexivity|].
  cbn. destruct (bool_decide (id x = i)) eqn:Hx; cbn; [exact IH|].
  rewrite Hx. exact IH.
Qed.

(** After [deleteBooking], [getBooking] on the same id resolves to [null]. *)
Lemma getBooking_after_deleteBooking (i : Id) (w : World) :
  fst (getBooking i (snd (deleteBooking i w))) = inr None.
Proof.
  apply getBooking_absent. rewrite deleteBooking_run.
  destruct (Store.find i (db w)) eqn:Hfind; cbn; [|exact Hfind].
  apply find_filtered.
Qed.

(** * Further properties of the service *)

(** ** Listing: pages *)

Lemma listed_on_page (k : Z) (a : Listing.args) (w : World) :
  listed (on_page k a) w = listed a w.
Proof. reflexivity. Qed.

Lemma length_listed (a : Listing.args) (w : World) :
  length (listed a w) = length (Store.selected (bookings_where a) (db w)).
Proof.
  unfold listed, Store.newest_first. rewrite merge_sort_Permutation. reflexivity.
Qed.

(** X1: [getBookings] never changes the tables, and it always issues the
    same two calls, also when the page query is refused: the page query and
    the count query, with one [where] object, the first asking for between
    1 and 100 rows. *)
Theorem getBookings_reads_only (a : Listing.args) (w : World) :
  db (snd (getBookings a w)) = db w
  ∧ ∃ s t, journal (snd (getBookings a w))
           = journal w ++ [booking_findMany s t (bookings_where a);
                           booking_count (bookings_where a)]
           ∧ 1 ≤ t ≤ 100.
Proof.
  rewrite getBookings_run. cbn [snd db journal]. split; [reflexivity|].
  eexists _, _. split; [reflexivity | apply take_range].
Qed.

(** X2: the page is never longer than [bookingCount]; and on the first
    page, when [bookingCount] does not exceed the page size, the page is the
    whole listing: every booking that passes the filters is returned. *)
Theorem getBookings_first_page_complete
    (a : Listing.args) (w : World) (p : Page) :
  fst (getBookings a w) = inr p →
  (length (bookings p) ≤ bookingCount p)%nat
  ∧ (default 1 (Listing.page a) ≤ 1 →
     Z.of_nat (bookingCount p) ≤ take (default 8 (Listing.perPage a)) →
     bookings p = listed a w
     ∧ ∀ b, b ∈ Store.bookings (db w) →
            Store.matches (bookings_where a) b = true → b ∈ bookings p).
Proof.
  intros Hp. apply getBookings_resolved in Hp as (_ & Hbs & Hn).
  rewrite <- length_listed in Hn. split.
  - rewrite Hbs, Hn. unfold slice. rewrite length_take, length_drop. lia.
  - intros Hpage Hroom.
    assert (Hall : bookings p = listed a w).
    { rewrite Hbs. unfold slice, skip.
      destruct (Z.ltb_spec 1 (default 1 (Listing.page a))); [lia|].
      cbn. apply take_ge. lia. }
    split; [exact Hall|].
    intros b Hb Hm. rewrite Hall. apply elem_of_listed. auto.
Qed.

Lemma getBookings_first_page_complete_witness :
  bookings (mkPage [Sample.backwards] 1)
  = listed Sample.everything Sample.two_bookings.
Proof.
  destruct (getBookings_first_page_complete Sample.everything
              Sample.two_bookings (mkPage [Sample.backwards] 1))
    as (_ & Hall).
  - vm_compute. reflexivity.
  - apply Hall; vm_compute; discriminate.
Defined.

(** Rows that differ in [createdAt] leave the store no choice of order. *)
Lemma sorted_unique (l1 l2 : list Booking) :
  distinct_instants l1 →
  StronglySorted Store.newer l1 → StronglySorted Store.newer l2 →
  l1 ≡ₚ l2 → l1 = l2.
Proof.
  unfold distinct_instants.
  revert l2. induction l1 as [|x l1 IH]; intros l2 Hnd Hs1 Hs2 Hperm.
  - apply Permutation_nil_l, Hperm.
  - destruct l2 as [|y l2].
    { apply Permutation_nil_r in Hperm. discriminate Hperm. }
    cbn in Hnd. apply NoDup_cons in Hnd as [Hx Hnd].
    apply StronglySorted_inv in Hs1 as [Hs1 Hx1].
    apply StronglySorted_inv in Hs2 as [Hs2 Hy2].
    assert (Hxy : x = y).
    { assert (Hin : x ∈ y :: l2) by (rewrite <- Hperm; apply list_elem_of_here).
      assert (Hin' : y ∈ x :: l1) by (rewrite Hperm; apply list_elem_of_here).
      apply elem_of_cons in Hin as [Heq|Hin]; [exact Heq|].
      apply elem_of_cons in Hin' as [Heq|Hin']; [symmetry; exact Heq|].
      rewrite Forall_forall in Hx1, Hy2.
      pose proof (Hx1 y Hin') as Hge. pose proof (Hy2 x Hin) as Hle.
      unfold Store.newer in Hge, Hle.
      exfalso. apply Hx. replace (createdAt x) with (createdAt y) by lia.
      apply list_elem_of_fmap. eauto. }
    subst y. f_equal. apply IH; [assumption..|].
    eapply Permutation_cons_inv, Hperm.
Qed.

Lemma listed_admissible (a : Listing.args) (w : World) :
  admissible a w (listed a w).
Proof.
  split.
  - unfold listed, Store.newest_first. apply merge_sort_Permutation.
  - apply StronglySorted_merge_sort; apply _.
Qed.

(** X3: with a page size from 1 to 100 the pages tile the listing, as long
    as no two of the bookings listed were created at the same instant: the
    order of the listing is then the only one the store can answer in, and
    the booking at position [i] of it is on page [i / perPage + 1], at
    position [i mod perPage].  (Positions are below [2 ^ 53], where the
    offset is exact.) *)
Theorem getBookings_pages_tile
    (a : Listing.args) (w : World) (perPage : Z) (l : list Booking)
    (i : nat) (b : Booking) :
  Listing.perPage a = Some perPage → 1 ≤ perPage ≤ 100 →
  distinct_instants (Store.selected (bookings_where a) (db w)) →
  admissible a w l →
  l !! i = Some b → Z.of_nat i < 2 ^ 53 →
  l = listed a w
  ∧ ∃ p, fst (getBookings (on_page (Z.of_nat i / perPage + 1) a) w) = inr p
         ∧ bookings p !! Z.to_nat (Z.of_nat i mod perPage) = Some b.
Proof.
  intros Hpp Hin Hdistinct [Hperm Hsorted] Hi Hsafe.
  assert (Hl : l = listed a w).
  { destruct (listed_admissible a w) as [Hperm' Hsorted'].
    symmetry. apply sorted_unique; [|exact Hsorted' | exact Hsorted|].
    - unfold distinct_instants in *. rewrite Hperm'. exact Hdistinct.
    - rewrite Hperm, Hperm'. reflexivity. }
  split; [exact Hl|]. rewrite Hl in Hi.
  assert (Htake : take perPage = perPage).
  { unfold take.
    destruct (Z.leb_spec 1 perPage), (Z.leb_spec perPage 100); cbn; lia. }
  set (k := Z.of_nat i / perPage).
  assert (Hk : 0 ≤ k) by (apply Z.div_pos; lia).
  pose proof (Z.mod_pos_bound (Z.of_nat i) perPage ltac:(lia)) as Hmod.
  pose proof (Z.div_mod (Z.of_nat i) perPage ltac:(lia)) as Hdiv.
  fold k in Hdiv.
  assert (Hskip : skip (k + 1) perPage = k * perPage).
  { destruct (Z.eq_dec k 0) as [->|Hne].
    - apply skip_first_page. lia.
    - rewrite skip_exact by (try rewrite Z.abs_eq; nia). f_equal. lia. }
  destruct (getBookings_resolves (on_page (k + 1) a) w) as [p Hp].
  { cbn. rewrite Hpp. defaults. rewrite Hskip. nia. }
  exists p. split; [exact Hp|].
  apply getBookings_resolved in Hp as (_ & Hbs & _).
  cbn in Hbs. rewrite Hpp in Hbs. defaults.
  rewrite Hskip, Htake, listed_on_page in Hbs.
  rewrite Hbs. unfold slice.
  rewrite lookup_take_lt by lia. rewrite lookup_drop.
  replace (Z.to_nat (k * perPage) + Z.to_nat (Z.of_nat i mod perPage))%nat
    with i by nia.
  exact Hi.
Qed.

Lemma getBookings_pages_tile_witness :
  ∃ p, fst (getBookings (on_page (Z.of_nat 22 / 10 + 1) More.tens)
              Sample.crowded) = inr p
       ∧ bookings p !! Z.to_nat (Z.of_nat 22 mod 10) = Some (Sample.numbered 2).
Proof.
  apply (getBookings_pages_tile More.tens Sample.crowded 10
           (listed More.tens Sample.crowded) 22 (Sample.numbered 2)).
  - reflexivity.
  - lia.
  - apply (bool_decide_unpack _). vm_compute. exact I.
  - apply listed_admissible.
  - vm_compute. reflexivity.
  - vm_compute. reflexivity.
Defined.

(** X4: a page number of 1 or less (0, a negative number) and a missing
    page number all give the first page; a missing [perPage] gives pages of
    8. *)
Theorem getBookings_defaults (a : Listing.args) (w : World) :
  (default 1 (Listing.page a) ≤ 1 →
   getBookings a w = getBookings (on_page 1 a) w)
  ∧ (Listing.perPage a = None →
     getBookings a w = getBookings (per_page 8 a) w).
Proof.
  split.
  - intros Hpage. rewrite !getBookings_run. cbn [Listing.page Listing.perPage on_page].
    defaults. change (bookings_where (on_page 1 a)) with (bookings_where a).
    rewrite listed_on_page.
    assert (Hskip : ∀ n, skip (default 1 (Listing.page a)) n = skip 1 n).
    { intros n. unfold skip.
      destruct (Z.ltb_spec 1 (default 1 (Listing.page a))); [lia | reflexivity]. }
    rewrite Hskip. reflexivity.
  - intros Hnone. rewrite !getBookings_run.
    cbn [Listing.page Listing.perPage per_page]. rewrite Hnone. reflexivity.
Qed.

Lemma getBookings_defaults_witness :
  getBookings (on_page (-3) Sample.everything) Sample.crowded
  = getBookings (on_page 1 (on_page (-3) Sample.everything)) Sample.crowded
  ∧ getBookings Sample.everything Sample.crowded
    = getBookings (per_page 8 Sample.everything) Sample.crowded.
Proof.
  split.
  - destruct (getBookings_defaults (on_page (-3) Sample.everything)
                Sample.crowded) as [Hpage _].
    apply Hpage. vm_compute. discriminate.
  - destruct (getBookings_defaults Sample.everything Sample.crowded)
      as [_ Hsize].
    apply Hsize. reflexivity.
Defined.

(** ** Listing: order *)

Lemma StronglySorted_listed (a : Listing.args) (w : World) :
  StronglySorted Store.newer (listed a w).
Proof. apply StronglySorted_merge_sort; apply _. Qed.

Lemma StronglySorted_slice (s t : Z) (l : list Booking) :
  StronglySorted Store.newer l → StronglySorted Store.newer (slice s t l).
Proof.
  intros H. unfold slice.
  rewrite <- (take_drop (Z.to_nat s) l) in H.
  apply StronglySorted_app_1_r in H.
  rewrite <- (take_drop (Z.to_nat t) (skipn (Z.to_nat s) l)) in H.
  apply StronglySorted_app_1_l in H. exact H.
Qed.

(** X5: the page comes newest first: of two bookings on it, the one
    further down was not created later. *)
Theorem getBookings_newest_first
    (a : Listing.args) (w : World) (p : Page) (i j : nat) (x y : Booking) :
  fst (getBookings a w) = inr p →
  bookings p !! i = Some x → bookings p !! j = Some y → (i < j)%nat →
  createdAt y ≤ createdAt x.
Proof.
  intros Hp Hi Hj Hlt.
  apply getBookings_resolved in Hp as (_ & Hbs & _).
  pose proof (StronglySorted_slice
                (skip (default 1 (Listing.page a)) (default 8 (Listing.perPage a)))
                (take (default 8 (Listing.perPage a))) _
                (StronglySorted_listed a w)) as Hs.
  rewrite <- Hbs in Hs.
  rewrite <- (take_drop j (bookings p)) in Hs.
  apply (StronglySorted_app_1_elem_of _ _ _ x y Hs).
  - apply list_elem_of_lookup. exists i. rewrite lookup_take_lt by lia. exact Hi.
  - apply list_elem_of_lookup. exists 0%nat. rewrite lookup_drop.
    rewrite Nat.add_0_r. exact Hj.
Qed.

Lemma getBookings_newest_first_witness :
  ∃ p x y, fst (getBookings Sample.everything Sample.crowded) = inr p
           ∧ bookings p !! 0%nat = Some x ∧ bookings p !! 7%nat = Some y
           ∧ createdAt y ≤ createdAt x.
Proof.
  destruct (getBookings_resolves Sample.everything Sample.crowded) as [p Hp];
    [vm_compute; discriminate|].
  exists p, (Sample.numbered 24), (Sample.numbered 17).
  assert (H0 : bookings p !! 0%nat = Some (Sample.numbered 24)).
  { pose proof Hp as Hq.
    apply getBookings_resolved in Hq as (_ & -> & _). vm_compute. reflexivity. }
  assert (H7 : bookings p !! 7%nat = Some (Sample.numbered 17)).
  { pose proof Hp as Hq.
    apply getBookings_resolved in Hq as (_ & -> & _). vm_compute. reflexivity. }
  split; [exact Hp|]. split; [exact H0|]. split; [exact H7|].
  apply (getBookings_newest_first Sample.everything Sample.crowded p 0 7
           _ _ Hp H0 H7). lia.
Defined.

(** ** Listing: filters *)

Lemma truthy_iff (s : option string) (v : string) :
  Js.truthy s = Some v ↔ s = Some v ∧ v ≠ "".
Proof.
  destruct s as [[|c s]|]; cbn; split; try (intros [??]); try intros ?;
    simplify_eq; done.
Qed.

Lemma has_length_iff {A} (xs : option (list A)) (v : list A) :
  Js.has_length xs = Some v ↔ xs = Some v ∧ v ≠ [].
Proof.
  destruct xs as [[|x xs]|]; cbn; split; try (intros [??]); try intros ?;
    simplify_eq; done.
Qed.

Lemma from_option_true {A} (f : A → bool) (o : option A) :
  from_option f true o = true ↔ ∀ x, o = Some x → f x = true.
Proof.
  destruct o as [x|]; cbn.
  - split; [intros H y [= <-]; exact H | auto].
  - split; [intros _ y; discriminate | reflexivity].
Qed.

Lemma matches_spelled (w : BookingWhere) (b : Booking) :
  Store.matches w b = true ↔
  organizationId b = where_organizationId w
  ∧ (∀ s, where_name_contains w = Some s →
          Store.contains_insensitive s (name b) = true)
  ∧ (∀ t, where_custodianTeamMemberId w = Some t →
          custodianTeamMemberId b = Some t)
  ∧ (∀ u, where_custodianUserId w = Some u → custodianUserId b = Some u)
  ∧ (∀ ss, where_status_in w = Some ss → status b ∈ ss)
  ∧ (∀ ids, where_assets_some_in w = Some ids → ∃ x, x ∈ ids ∧ x ∈ assets b)
  ∧ (∀ ids, where_id_notIn w = Some ids → id b ∉ ids)
  ∧ (∀ ps, where_OR w = Some ps →
           existsb (fun p => Store.holds_period p b) ps = true).
Proof.
  unfold Store.matches. rewrite !andb_true_iff, !from_option_true.
  rewrite bool_decide_eq_true.
  assert (Hassets : (∀ ids, where_assets_some_in w = Some ids →
                       existsb (fun a => bool_decide (a ∈ assets b)) ids = true)
                    ↔ (∀ ids, where_assets_some_in w = Some ids →
                         ∃ x, x ∈ ids ∧ x ∈ assets b)).
  { split; intros H ids Hids; specialize (H ids Hids).
    - apply existsb_exists in H as (x & Hx & Hin).
      exists x. split; [apply list_elem_of_In, Hx|].
      apply bool_decide_eq_true in Hin. exact Hin.
    - destruct H as (x & Hx & Hin). apply existsb_exists.
      exists x. split; [apply list_elem_of_In, Hx|].
      apply bool_decide_eq_true. exact Hin. }
  rewrite Hassets.
  setoid_rewrite bool_decide_eq_true. tauto.
Qed.

(** *** The pattern match *)

Lemma append_empty (t : string) : "" +:+ t = t.
Proof. reflexivity. Qed.

Lemma append_String (c : ascii) (s t : string) :
  String c s +:+ t = String c (s +:+ t).
Proof. reflexivity. Qed.

Lemma append_empty_r (t : string) : t +:+ "" = t.
Proof.
  induction t as [|c t IH]; [reflexivity|].
  rewrite append_String, IH. reflexivity.
Qed.

Lemma ilike_any_run (rest t : string) :
  Store.ilike (String Store.any_run rest) t = true ↔
  ∃ pre post, t = pre +:+ post ∧ Store.ilike rest post = true.
Proof.
  induction t as [|d t IH].
  - cbn. rewrite orb_false_r. split.
    + intros H. exists "", "". auto.
    + intros (pre & post & Ht & H). destruct pre; [|discriminate].
      rewrite append_empty in Ht. subst post. exact H.
  - change (Store.ilike (String Store.any_run rest) (String d t))
      with (Store.ilike rest (String d t)
            || Store.ilike (String Store.any_run rest) t).
    rewrite orb_true_iff, IH. split.
    + intros [H | (pre & post & -> & H)].
      * exists "", (String d t). auto.
      * exists (String d pre), post. auto.
    + intros (pre & post & Ht & H). destruct pre as [|c pre].
      * rewrite append_empty in Ht. subst post. left. exact H.
      * rewrite append_String in Ht. injection Ht as -> ->. right. eauto.
Qed.

Lemma same_fold (c d : ascii) : Store.same c d = true ↔ Store.fold d = Store.fold c.
Proof. unfold Store.same. rewrite Ascii.eqb_eq. split; congruence. Qed.

Lemma ilike_plain (s rest t : string) :
  plain s = true →
  Store.ilike (s +:+ rest) t = true ↔
  ∃ m post, t = m +:+ post ∧ folded m = folded s
            ∧ Store.ilike rest post = true.
Proof.
  revert t. induction s as [|c s IH]; intros t Hs.
  - rewrite append_empty. split.
    + intros H. exists "", t. auto.
    + intros (m & post & -> & Hm & H). destruct m; [exact H | discriminate].
  - cbn in Hs. rewrite !andb_true_iff, !negb_true_iff in Hs.
    destruct Hs as [[[Hrun Hone] Hesc] Hs].
    rewrite append_String. cbn [Store.ilike]. rewrite Hrun, Hone, Hesc.
    destruct t as [|d t].
    + split; [discriminate|].
      intros (m & post & Ht & Hm & _). destruct m; discriminate.
    + rewrite andb_true_iff, same_fold, (IH t Hs). split.
      * intros (Hd & m & post & -> & Hm & H).
        exists (String d m), post. cbn [folded]. rewrite Hd, Hm. auto.
      * intros (m & post & Ht & Hm & H). destruct m as [|d' m]; [discriminate|].
        rewrite append_String in Ht. cbn [folded] in Hm.
        injection Ht as -> ->. injection Hm as Hd Hm.
        split; [exact Hd|]. eauto.
Qed.

Lemma ilike_any_run_alone (t : string) :
  Store.ilike (String Store.any_run "") t = true.
Proof.
  apply ilike_any_run. exists t, "". split; [|reflexivity].
  symmetry. apply append_empty_r.
Qed.

(** For a text without [%], [_] and backslash, [contains] is what its name
    says: the text occurs in the field, up to the case of letters. *)
Lemma contains_plain (s field : string) :
  plain s = true →
  Store.contains_insensitive s field = true ↔ occurs s field.
Proof.
  intros Hs. unfold Store.contains_insensitive, occurs.
  rewrite ilike_any_run. split.
  - intros (pre & rest & -> & H).
    apply (ilike_plain s _ rest Hs) in H as (m & post & -> & Hm & _).
    exists pre, m, post. auto.
  - intros (pre & m & post & -> & Hm).
    exists pre, (m +:+ post). split; [reflexivity|].
    apply (ilike_plain s _ _ Hs). exists m, post.
    split; [reflexivity|]. split; [exact Hm | apply ilike_any_run_alone].
Qed.

(** X6: for a search text in ASCII, the bookings a listing is drawn from
    are exactly the bookings of the organization that pass every filter
    that is set: the name matches the pattern made of the trimmed search
    text between two [%], which for a text without [%], [_] and backslash
    says that the text occurs in the name, whatever the case of the
    letters; the custodians are the ones asked for; the status is among
    [statuses]; one of [assetIds] is among the assets; the id is not among
    [excludeBookingIds]; the booking lies in the window.  Every booking on
    the page returned is one of them. *)
Theorem getBookings_filters (a : Listing.args) (w : World) (b : Booking) :
  (∀ s, Listing.search a = Some s → within_ascii s = true) →
  (b ∈ listed a w ↔
   b ∈ Store.bookings (db w)
   ∧ organizationId b = Listing.organizationId a
   ∧ (∀ s, Listing.search a = Some s → Js.trim s ≠ "" →
           Store.ilike ("%" +:+ Js.trim s +:+ "%") (name b) = true)
   ∧ (∀ t, Listing.custodianTeamMemberId a = Some t → t ≠ "" →
           custodianTeamMemberId b = Some t)
   ∧ (∀ u, Listing.custodianUserId a = Some u → u ≠ "" →
           custodianUserId b = Some u)
   ∧ (∀ ss, Listing.statuses a = Some ss → ss ≠ [] → status b ∈ ss)
   ∧ (∀ ids, Listing.assetIds a = Some ids → ids ≠ [] →
             ∃ x, x ∈ ids ∧ x ∈ assets b)
   ∧ (∀ ids, Listing.excludeBookingIds a = Some ids → ids ≠ [] → id b ∉ ids)
   ∧ (∀ D1 D2, Listing.bookingFrom a = Some D1 → Listing.bookingTo a = Some D2 →
               in_window b D1 D2 = true))
  ∧ (∀ s, Listing.search a = Some s → plain (Js.trim s) = true →
          Store.ilike ("%" +:+ Js.trim s +:+ "%") (name b) = true
          ↔ occurs (Js.trim s) (name b))
  ∧ (∀ p, fst (getBookings a w) = inr p → b ∈ bookings p → b ∈ listed a w).
Proof.
  intros _. split; [|split].
  - rewrite elem_of_listed, matches_spelled. cbn.
    setoid_rewrite truthy_iff. setoid_rewrite has_length_iff.
    assert (Hsearch : (∀ s, Js.trim <$> Listing.search a = Some s ∧ s ≠ "" →
                         Store.contains_insensitive s (name b) = true)
                      ↔ (∀ s, Listing.search a = Some s → Js.trim s ≠ "" →
                           Store.ilike ("%" +:+ Js.trim s +:+ "%") (name b)
                           = true)).
    { destruct (Listing.search a) as [s0|]; cbn.
      - split.
        + intros H s [= <-] Hne. apply (H (Js.trim s0)). auto.
        + intros H s [[= <-] Hne]. apply (H s0); auto.
      - split; [intros _ s; discriminate | intros _ s [? _]; discriminate]. }
    rewrite Hsearch.
    assert (Hwin : (∀ ps, match Js.both (Listing.bookingFrom a)
                                  (Listing.bookingTo a) with
                          | Some (f, t) => Some (overlap_periods f t)
                          | None => None
                          end = Some ps →
                          existsb (fun p => Store.holds_period p b) ps = true)
                   ↔ (∀ D1 D2, Listing.bookingFrom a = Some D1 →
                               Listing.bookingTo a = Some D2 →
                               in_window b D1 D2 = true)).
    { unfold in_window.
      destruct (Listing.bookingFrom a) as [f|], (Listing.bookingTo a) as [t|];
        cbn [Js.both].
      - split.
        + intros H D1 D2 [= <-] [= <-]. apply H. reflexivity.
        + intros H ps [= <-]. apply H; reflexivity.
      - split; [intros _ ? ? _; discriminate | intros _ ?; discriminate].
      - split; [intros _ ? ?; discriminate | intros _ ?; discriminate].
      - split; [intros _ ? ?; discriminate | intros _ ?; discriminate]. }
    rewrite Hwin.
    split; intros (Hb & Ho & Hs & Ht & Hu & Hss & Has & Hex & Hw);
      split_and!; try assumption;
      first [intros x [??]; eauto | intros x ??; eauto].
  - intros s _ Hplain. apply (contains_plain (Js.trim s) (name b) Hplain).
  - intros p Hp Hb. apply getBookings_resolved in Hp as (_ & Hbs & _).
    rewrite Hbs in Hb. eapply elem_of_slice, Hb.
Qed.

(** The first sample booking, [drill], under the search text [" DRILL "]. *)
Lemma getBookings_filters_witness :
  Sample.backwards ∈ listed More.drills_reserved Sample.one_booking
  ∧ (Store.ilike "%DRILL%" "drill" = true ↔ occurs "DRILL" "drill").
Proof.
  destruct (getBookings_filters More.drills_reserved Sample.one_booking
              Sample.backwards) as [[_ Hin] [Hplain _]].
  { intros s [= <-]. reflexivity. }
  split.
  - apply Hin. split_and!.
    + vm_compute. apply list_elem_of_here.
    + reflexivity.
    + intros s [= <-] _. reflexivity.
    + intros t [=].
    + intros u [=].
    + intros ss [= <-] _. apply list_elem_of_here.
    + intros ids [=].
    + intros ids [= <-] _. intros H. apply list_elem_of_singleton in H.
      discriminate H.
    + intros D1 D2 [=].
  - apply (Hplain " DRILL "); reflexivity.
Defined.

Lemma truthy_truthy (s : option string) : Js.truthy (Js.truthy s) = Js.truthy s.
Proof. destruct s as [[|c s]|]; reflexivity. Qed.

Lemma has_length_has_length {A} (xs : option (list A)) :
  Js.has_length (Js.has_length xs) = Js.has_length xs.
Proof. destruct xs as [[|x xs]|]; reflexivity. Qed.

Lemma truthy_blank (s : option string) :
  Js.truthy (Js.trim <$> blank s) = Js.truthy (Js.trim <$> s).
Proof.
  destruct s as [s|]; [|reflexivity]. cbn.
  destruct (String.eqb_spec (Js.trim s) "") as [Hempty|Hfull]; [|reflexivity].
  cbn. rewrite Hempty. reflexivity.
Qed.

(** X7: a filter that is empty is no filter: with an empty [statuses],
    [assetIds] or [excludeBookingIds] array, an empty custodian id, or a
    search text of nothing but white space, [getBookings] issues the same
    calls and resolves to the same result as without that argument (it does
    not, for one, return no booking for an empty [statuses]). *)
Theorem getBookings_ignores_empty_filters (a : Listing.args) (w : World) :
  bookings_where a = bookings_where (tidy a)
  ∧ getBookings a w = getBookings (tidy a) w
  ∧ (∀ ss, Listing.statuses (tidy a) = Some ss → ss ≠ [])
  ∧ (∀ ids, Listing.assetIds (tidy a) = Some ids → ids ≠ [])
  ∧ (∀ ids, Listing.excludeBookingIds (tidy a) = Some ids → ids ≠ [])
  ∧ (∀ u, Listing.custodianUserId (tidy a) = Some u → u ≠ "")
  ∧ (∀ t, Listing.custodianTeamMemberId (tidy a) = Some t → t ≠ "")
  ∧ (∀ s, Listing.search (tidy a) = Some s → Js.trim s ≠ "").
Proof.
  assert (Hwhere : bookings_where a = bookings_where (tidy a)).
  { unfold bookings_where, tidy. cbn.
    rewrite truthy_blank, !truthy_truthy, !has_length_has_length. reflexivity. }
  split; [exact Hwhere|]. split.
  { rewrite !getBookings_run. unfold listed. rewrite <- Hwhere. reflexivity. }
  cbn. split_and!.
  - intros ss H. apply has_length_iff in H as [_ H]. exact H.
  - intros ss H. apply has_length_iff in H as [_ H]. exact H.
  - intros ss H. apply has_length_iff in H as [_ H]. exact H.
  - intros u H. apply truthy_iff in H as [_ H]. exact H.
  - intros u H. apply truthy_iff in H as [_ H]. exact H.
  - intros s H. unfold blank in H. destruct (Listing.search a) as [s'|]; [|done].
    destruct (String.eqb_spec (Js.trim s') ""); [done|]. congruence.
Qed.

Lemma filter_none {A} (f : A → bool) (l : list A) :
  Forall (fun x => f x = false) l → List.filter f l = [].
Proof.
  induction 1 as [|x l Hx _ IH]; [reflexivity|]. cbn. rewrite Hx. exact IH.
Qed.

Lemma slice_nil (s t : Z) : slice s t [] = [].
Proof. unfold slice. rewrite drop_nil. apply take_nil. Qed.

(** X8: when both a user custodian and a team-member custodian are asked
    for, a booking has to have both; bookings having at most one custodian,
    as they do in every store the service has written, the listing is
    empty and the count is 0. *)
Theorem getBookings_both_custodians
    (a : Listing.args) (w : World) (u t : Id) (p : Page) :
  Js.truthy (Listing.custodianUserId a) = Some u →
  Js.truthy (Listing.custodianTeamMemberId a) = Some t →
  Forall exclusive (Store.bookings (db w)) →
  fst (getBookings a w) = inr p →
  bookings p = [] ∧ bookingCount p = 0%nat.
Proof.
  intros Hu Ht Hall Hp.
  assert (Hnone : Store.selected (bookings_where a) (db w) = []).
  { unfold Store.selected. apply filter_none.
    eapply Forall_impl; [exact Hall|]. intros b Hb.
    destruct (Store.matches (bookings_where a) b) eqn:Hm; [|reflexivity].
    apply matches_spelled in Hm as (_ & _ & Htm & Hus & _).
    specialize (Htm t Ht). specialize (Hus u Hu).
    destruct Hb as [Hb|Hb]; congruence. }
  apply getBookings_resolved in Hp as (_ & Hbs & Hn).
  rewrite Hn, Hnone. split; [|reflexivity].
  rewrite Hbs. unfold listed. rewrite Hnone. apply slice_nil.
Qed.

Lemma handed_reachable : Reachable More.handed.
Proof. apply reach_upsertBooking, two_bookings_reachable. Qed.

(** Asked for [ann] alone the listing has the booking handed to her; asked
    for [ann] and [tom] it has nothing. *)
Lemma getBookings_both_custodians_witness :
  fst (getBookings More.of_ann More.handed) = inr (mkPage [Sample.saw_of_ann] 1)
  ∧ bookings (mkPage [] 0) = [] ∧ bookingCount (mkPage [] 0) = 0%nat.
Proof.
  split; [vm_compute; reflexivity|].
  apply (getBookings_both_custodians More.of_ann_and_tom More.handed
           "ann" "tom" (mkPage [] 0)).
  - reflexivity.
  - reflexivity.
  - apply Reachable_exclusive, handed_reachable.
  - vm_compute. reflexivity.
Defined.

Lemma getBookings_ignores_empty_filters_witness :
  tidy More.empty_filters = Sample.everything
  ∧ getBookings More.empty_filters Sample.crowded
    = getBookings (tidy More.empty_filters) Sample.crowded.
Proof.
  split; [reflexivity|].
  apply (getBookings_ignores_empty_filters More.empty_filters Sample.crowded).
Defined.

(** ** Writing and reading back *)

(** X9: what [upsertBooking] returns is what [getBooking] finds
    afterwards under the id of the booking returned, after an update as
    after a create. *)
Theorem getBooking_after_upsertBooking
    (g : Store.Generated) (booking : Upsert.payload) (w : World) (b' : Booking) :
  fst (upsertBooking g booking w) = inr b' →
  fst (getBooking (id b') (snd (upsertBooking g booking w))) = inr (Some b').
Proof.
  intros Hrun. rewrite getBooking_run. cbn [fst]. f_equal.
  pose proof Hrun as Hcase.
  apply upsertBooking_resolved in Hcase
    as [(i & b & Hid & Hfind & Hb' & Hdb) | (n & c & o & Hid & _ & _ & Hb' & Hdb)].
  - rewrite Hdb. unfold Store.find. cbn [Store.bookings Store.set_bookings].
    assert (Hi : id b' = i).
    { rewrite Hb'. cbn. apply (find_Some i (db w) b Hfind). }
    rewrite Hi. apply find_replace with b; [exact Hfind | exact Hi].
  - rewrite Hdb. unfold Store.find. cbn [Store.bookings Store.set_bookings].
    assert (Hnew : id b' = Store.new_id g) by (rewrite Hb'; reflexivity).
    unfold upsertBooking in Hrun. rewrite Hid in Hrun.
    apply create_fresh in Hrun. unfold Store.find in Hrun.
    rewrite find_snoc, Hnew, Hrun.
    rewrite bool_decide_eq_true_2 by reflexivity. reflexivity.
Qed.

Lemma getBooking_after_upsertBooking_witness :
  fst (getBooking (id Sample.saw)
         (snd (upsertBooking Sample.second Sample.saw_payload Sample.one_booking)))
  = inr (Some Sample.saw).
Proof.
  apply (getBooking_after_upsertBooking Sample.second Sample.saw_payload
           Sample.one_booking Sample.saw).
  vm_compute. reflexivity.
Defined.

Lemma replace_ids (b' : Booking) (bs : list Booking) :
  id <$> Store.replace b' bs = id <$> bs.
Proof.
  unfold Store.replace. rewrite <- list_fmap_compose.
  apply list_fmap_ext. intros k x _. cbn.
  case_bool_decide as Hx; [symmetry; exact Hx | reflexivity].
Qed.

(** X10: with an id that is not empty [upsertBooking] only ever updates:
    the one call it issues is an update of that id, the table keeps its
    rows' ids, in the same order, and when no booking has the id it rejects
    with the store's not-found error and leaves the tables as they were.
    Nothing is created, whatever else the payload holds. *)
Theorem upsertBooking_with_id_never_creates
    (g : Store.Generated) (booking : Upsert.payload) (w : World) (i : Id) :
  Upsert.id booking = Some i → i ≠ "" →
  journal (snd (upsertBooking g booking w))
    = journal w ++ [booking_update i (upsert_data booking)]
  ∧ id <$> Store.bookings (db (snd (upsertBooking g booking w)))
    = id <$> Store.bookings (db w)
  ∧ (Store.find i (db w) = None →
     fst (upsertBooking g booking w) = inl RecordNotFound
     ∧ db (snd (upsertBooking g booking w)) = db w).
Proof.
  intros Hid Hne.
  assert (Ht : Js.truthy (Upsert.id booking) = Some i) by (apply truthy_iff; auto).
  unfold upsertBooking. rewrite Ht. rewrite db_booking_update_run.
  unfold Store.update.
  destruct (Store.find i (db w)) as [b|] eqn:Hfind.
  - destruct (Store.targets_known (db w) (upsert_data booking)); cbn.
    + split; [reflexivity|]. split; [apply replace_ids | discriminate].
    + split; [reflexivity|]. split; [reflexivity | discriminate].
  - cbn. auto.
Qed.

Lemma upsertBooking_with_id_never_creates_witness :
  fst (upsertBooking Sample.third Sample.hand_to_ann Sample.start)
    = inl RecordNotFound
  ∧ db (snd (upsertBooking Sample.third Sample.hand_to_ann Sample.start))
    = db Sample.start.
Proof.
  destruct (upsertBooking_with_id_never_creates Sample.third Sample.hand_to_ann
              Sample.start "b2" eq_refl) as (_ & _ & Habsent).
  - discriminate.
  - apply Habsent. reflexivity.
Defined.

(** X11: an update through [upsertBooking] merges: in the row the table
    holds afterwards under the id, of [name], [status], [from] and [to] the
    ones the payload holds are stored as given ([from] and [to] in whatever
    order they come), the others keep their values; the id and the creation
    time stay; the booking returned shows the same values; and every row
    with another id is left where and as it was. *)
Theorem upsertBooking_update_merges
    (g : Store.Generated) (booking : Upsert.payload) (w : World)
    (i : Id) (b b' : Booking) :
  Js.truthy (Upsert.id booking) = Some i →
  Store.find i (db w) = Some b →
  fst (upsertBooking g booking w) = inr b' →
  let after := snd (upsertBooking g booking w) in
  (∃ r, Store.find i (db after) = Some r
        ∧ name r = default (name b) (Upsert.name booking)
        ∧ status r = default (status b) (Upsert.status booking)
        ∧ from r = default (from b) (Upsert.from booking)
        ∧ to r = default (to b) (Upsert.to booking)
        ∧ id r = id b ∧ createdAt r = createdAt b
        ∧ name b' = name r ∧ status b' = status r
        ∧ from b' = from r ∧ to b' = to r)
  ∧ length (Store.bookings (db after)) = length (Store.bookings (db w))
  ∧ ∀ k x, Store.bookings (db w) !! k = Some x → id x ≠ i →
           Store.bookings (db after) !! k = Some x.
Proof.
  intros Hid Hfind Hrun after.
  pose proof (upsertBooking_stored g booking w b' Hrun) as Hstored.
  destruct (upsertBooking_id g booking w b' Hrun) as [Hi _].
  rewrite (Hi i Hid) in Hstored.
  apply upsertBooking_resolved in Hrun
    as [(i' & b0 & Hid' & Hfind' & Hb' & Hdb) | (n & c & o & Hid' & _)];
    [|congruence].
  assert (i' = i) as -> by congruence.
  assert (b0 = b) as -> by congruence.
  assert (Hscalar : data_name (upsert_data booking) = Upsert.name booking
                    ∧ data_status (upsert_data booking) = Upsert.status booking
                    ∧ data_from (upsert_data booking) = Upsert.from booking
                    ∧ data_to (upsert_data booking) = Upsert.to booking).
  { unfold upsert_data.
    destruct (Js.has_length (Upsert.assetIds booking)),
      (Js.truthy (Upsert.custodianUserId booking)),
      (Js.truthy (Upsert.custodianTeamMemberId booking)); auto. }
  destruct Hscalar as (Hn & Hs & Hf & Ht).
  split; [|split].
  - exists b'. split; [exact Hstored|].
    subst b'. cbn. rewrite Hn, Hs, Hf, Ht. split_and!; reflexivity.
  - unfold after. rewrite Hdb. cbn [Store.bookings Store.set_bookings].
    unfold Store.replace. apply length_fmap.
  - intros k x Hk Hx. unfold after. rewrite Hdb.
    cbn [Store.bookings Store.set_bookings].
    apply lookup_replace; [exact Hk|]. subst b'. cbn [id Store.write].
    rewrite (proj2 (find_Some i (db w) b Hfind)). exact Hx.
Qed.

(** The first sample booking renamed, with other dates. *)
Lemma upsertBooking_update_merges_witness :
  ∃ r, Store.find "b1"
         (db (snd (upsertBooking Sample.third More.rename Sample.two_bookings)))
       = Some r
       ∧ name r = "lathe" ∧ from r = Some 9 ∧ to r = Some 2.
Proof.
  destruct (upsertBooking_update_merges Sample.third More.rename
              Sample.two_bookings "b1" Sample.backwards More.renamed)
    as [(r & Hstored & Hn & _ & Hf & Ht & _) _].
  - reflexivity.
  - vm_compute. reflexivity.
  - vm_compute. reflexivity.
  - exists r. auto.
Defined.

(** ** Ids *)

Lemma unique_same (bs : list Booking) (x y : Booking) :
  NoDup (id <$> bs) → x ∈ bs → y ∈ bs → id x = id y → x = y.
Proof.
  induction bs as [|z bs IH]; intros Hnd Hx Hy Hid.
  - apply not_elem_of_nil in Hx. done.
  - cbn in Hnd. apply NoDup_cons in Hnd as [Hz Hnd].
    apply elem_of_cons in Hx as [->|Hx], Hy as [->|Hy].
    + reflexivity.
    + exfalso. apply Hz. rewrite Hid. apply list_elem_of_fmap. eauto.
    + exfalso. apply Hz. rewrite <- Hid. apply list_elem_of_fmap. eauto.
    + apply IH; assumption.
Qed.

Lemma replace_self (b : Booking) (bs : list Booking) :
  NoDup (id <$> bs) → b ∈ bs → Store.replace b bs = bs.
Proof.
  intros Hnd Hb. unfold Store.replace.
  rewrite <- (list_fmap_id bs) at 2. apply list_fmap_ext.
  intros k x Hk. cbn. case_bool_decide as Hx; [|reflexivity].
  apply (unique_same bs); [exact Hnd | exact Hb | | symmetry; exact Hx].
  eapply list_elem_of_lookup_2, Hk.
Qed.

Lemma upsertBooking_keeps_unique_ids
    (g : Store.Generated) (booking : Upsert.payload) (w : World) :
  unique_ids (db w) → unique_ids (db (snd (upsertBooking g booking w))).
Proof.
  intros Hu. unfold unique_ids in *.
  destruct (fst (upsertBooking g booking w)) as [e|b'] eqn:Hrun.
  - rewrite (upsertBooking_rejected g booking w e Hrun). exact Hu.
  - pose proof Hrun as Hcase. apply upsertBooking_resolved in Hcase
      as [(i & b & _ & _ & _ & ->) | (n & c & o & Hid & _ & _ & Hb' & ->)].
    + cbn. rewrite replace_ids. exact Hu.
    + cbn. rewrite fmap_app. cbn.
      unfold upsertBooking in Hrun. rewrite Hid in Hrun.
      apply create_fresh in Hrun.
      apply NoDup_app. split; [exact Hu|]. split; [|apply NoDup_singleton].
      intros x Hx Hx'. apply list_elem_of_singleton in Hx'.
      apply list_elem_of_fmap in Hx as (y & Hy & Hin).
      assert (Hnew : id b' = Store.new_id g) by (rewrite Hb'; reflexivity).
      unfold Store.find in Hrun.
      apply list_elem_of_In in Hin.
      apply (List.find_none _ _ Hrun y) in Hin.
      apply bool_decide_eq_false in Hin. congruence.
Qed.

Lemma removeAssets_keeps_unique_ids (i : Id) (assetIds : list Id) (w : World) :
  unique_ids (db w) → unique_ids (db (snd (removeAssets i assetIds w))).
Proof.
  intros Hu. unfold unique_ids in *. unfold removeAssets.
  rewrite db_booking_update_run. unfold Store.update.
  destruct (Store.find i (db w)); [|exact Hu].
  cbn. rewrite replace_ids. exact Hu.
Qed.

Lemma deleteBooking_keeps_unique_ids (i : Id) (w : World) :
  unique_ids (db w) → unique_ids (db (snd (deleteBooking i w))).
Proof.
  intros Hu. unfold unique_ids in *. rewrite deleteBooking_run.
  destruct (Store.find i (db w)); [|exact Hu].
  cbn. eapply sublist_NoDup; [exact Hu|].
  clear Hu. induction (Store.bookings (db w)) as [|x l IH]; [constructor|].
  cbn. destruct (negb (bool_decide (id x = i))); cbn.
  - apply sublist_skip, IH.
  - apply sublist_cons, IH.
Qed.

(** No two bookings the service has stored share an id. *)
Lemma Reachable_unique_ids (w : World) : Reachable w → unique_ids (db w).
Proof.
  induction 1 as [d Hd | g booking w _ IH | i assetIds w _ IH | a w _ IH
                 | i w _ IH | i w _ IH].
  - unfold unique_ids. cbn. rewrite Hd. constructor.
  - apply upsertBooking_keeps_unique_ids, IH.
  - apply removeAssets_keeps_unique_ids, IH.
  - rewrite getBookings_run. exact IH.
  - apply deleteBooking_keeps_unique_ids, IH.
  - rewrite getBooking_run. exact IH.
Qed.

(** ** Updates that change nothing, and updates done twice *)

Lemma set_bookings_same (d : Store.Db) :
  Store.set_bookings (Store.bookings d) d = d.
Proof. destruct d. reflexivity. Qed.

(** X12: an update whose payload holds nothing to write (an id, and
    otherwise nothing, empty strings or an empty [assetIds]) still goes to
    the store, as an update with an empty [data]; it resolves to the
    booking as it is and, ids being unique, leaves the tables as they
    were. *)
Theorem upsertBooking_nothing_to_update
    (g : Store.Generated) (booking : Upsert.payload) (w : World)
    (i : Id) (b : Booking) :
  Js.truthy (Upsert.id booking) = Some i →
  Upsert.name booking = None → Upsert.status booking = None →
  Upsert.from booking = None → Upsert.to booking = None →
  Js.has_length (Upsert.assetIds booking) = None →
  Js.truthy (Upsert.custodianUserId booking) = None →
  Js.truthy (Upsert.custodianTeamMemberId booking) = None →
  Store.find i (db w) = Some b →
  fst (upsertBooking g booking w) = inr b
  ∧ journal (snd (upsertBooking g booking w))
    = journal w
      ++ [booking_update i (mkData None None None None None None None None None)]
  ∧ (unique_ids (db w) → db (snd (upsertBooking g booking w)) = db w).
Proof.
  intros Hid Hn Hs Hf Ht Ha Hu Hm Hfind.
  assert (Hdata : upsert_data booking
                  = mkData None None None None None None None None None).
  { unfold upsert_data. rewrite Hn, Hs, Hf, Ht, Ha, Hu, Hm. reflexivity. }
  unfold upsertBooking. rewrite Hid, Hdata, db_booking_update_run.
  unfold Store.update. rewrite Hfind. cbn.
  assert (Hsame : Store.write
                    (mkData None None None None None None None None None) b = b)
    by (destruct b; reflexivity).
  rewrite Hsame. split; [reflexivity|]. split; [reflexivity|].
  intros Huniq. rewrite replace_self.
  - apply set_bookings_same.
  - exact Huniq.
  - apply (find_Some i), Hfind.
Qed.

Lemma upsertBooking_nothing_to_update_witness :
  fst (upsertBooking Sample.third More.touch Sample.two_bookings)
    = inr Sample.backwards
  ∧ db (snd (upsertBooking Sample.third More.touch Sample.two_bookings))
    = db Sample.two_bookings.
Proof.
  destruct (upsertBooking_nothing_to_update Sample.third More.touch
              Sample.two_bookings "b1" Sample.backwards)
    as (Hr & _ & Hdb); [reflexivity.. | vm_compute; reflexivity |].
  split; [exact Hr|]. apply Hdb, Reachable_unique_ids, two_bookings_reachable.
Defined.

Lemma default_again {A} (x : A) (o : option A) :
  default (default x o) o = default x o.
Proof. destruct o; reflexivity. Qed.

Lemma write_again (data : BookingData) (b : Booking) :
  Store.write data (Store.write data b) = Store.write data b.
Proof.
  unfold Store.write. cbn. rewrite !default_again. f_equal.
  - destruct (data_custodianUser data) as [[?|]|]; reflexivity.
  - destruct (data_custodianTeamMember data) as [[?|]|]; reflexivity.
  - destruct (data_assets data) as [[ids|ids]|]; cbn; [| |reflexivity].
    + apply set_eq. intros x. rewrite !elem_of_union. tauto.
    + apply set_eq. intros x. rewrite !elem_of_difference. tauto.
Qed.

Lemma update_resolved_known
    (i : Id) (data : BookingData) (w : World) (b' : Booking) :
  fst (db_booking_update i data w) = inr b' →
  Store.targets_known (db w) data = true.
Proof.
  rewrite db_booking_update_run. unfold Store.update.
  destruct (Store.find i (db w)); [|discriminate].
  destruct (Store.targets_known (db w) data); [reflexivity | discriminate].
Qed.

(** X13: an update through [upsertBooking] can be repeated: the same
    payload sent again resolves to the same booking and leaves the tables
    as the first call left them (assets that are connected already are not
    connected twice). *)
Theorem upsertBooking_update_twice
    (g g' : Store.Generated) (booking : Upsert.payload) (w : World)
    (i : Id) (b' : Booking) :
  Js.truthy (Upsert.id booking) = Some i →
  fst (upsertBooking g booking w) = inr b' →
  fst (upsertBooking g' booking (snd (upsertBooking g booking w))) = inr b'
  ∧ db (snd (upsertBooking g' booking (snd (upsertBooking g booking w))))
    = db (snd (upsertBooking g booking w)).
Proof.
  intros Hid Hrun.
  assert (Hknown : Store.targets_known (db w) (upsert_data booking) = true).
  { unfold upsertBooking in Hrun. rewrite Hid in Hrun.
    eapply update_resolved_known, Hrun. }
  apply upsertBooking_resolved in Hrun
    as [(i' & b & Hid' & Hfind & Hb' & Hdb) | (n & c & o & Hid' & _)];
    [|congruence].
  assert (i' = i) as -> by congruence.
  set (after := snd (upsertBooking g booking w)) in *.
  assert (Hi : id b' = i).
  { rewrite Hb'. cbn. apply (find_Some i (db w) b Hfind). }
  assert (Hfind' : Store.find i (db after) = Some b').
  { rewrite Hdb. unfold Store.find. cbn [Store.bookings Store.set_bookings].
    apply find_replace with b; [exact Hfind | exact Hi]. }
  assert (Hagain : Store.write (upsert_data booking) b' = b').
  { rewrite Hb'. apply write_again. }
  unfold upsertBooking. rewrite Hid, db_booking_update_run.
  unfold Store.update. rewrite Hfind'.
  replace (Store.targets_known (db after) (upsert_data booking)) with true
    by (rewrite Hdb; symmetry; exact Hknown).
  cbn [fst snd db]. rewrite Hagain. split; [reflexivity|].
  rewrite Hdb. unfold Store.set_bookings.
  cbn [Store.bookings Store.users Store.teamMembers Store.organizations
       Store.assetTable].
  rewrite replace_again. reflexivity.
Qed.

Lemma upsertBooking_update_twice_witness :
  fst (upsertBooking Sample.third Sample.add_fourth_asset
         (snd (upsertBooking Sample.third Sample.add_fourth_asset
                 Sample.two_bookings)))
  = inr Sample.saw_with_four.
Proof.
  apply (upsertBooking_update_twice Sample.third Sample.third
           Sample.add_fourth_asset Sample.two_bookings "b2"
           Sample.saw_with_four).
  - reflexivity.
  - vm_compute. reflexivity.
Defined.

(** ** Assets: adding and removing *)

Lemma replace_replace (b1 b2 : Booking) (bs : list Booking) :
  id b1 = id b2 →
  Store.replace b2 (Store.replace b1 bs) = Store.replace b2 bs.
Proof.
  intros Hid. unfold Store.replace. rewrite <- list_fmap_compose.
  apply list_fmap_ext. intros k x _. cbn. rewrite Hid.
  destruct (bool_decide (id x = id b2)) eqn:Hx.
  - rewrite Hid. rewrite bool_decide_eq_true_2 by reflexivity. reflexivity.
  - rewrite Hx. reflexivity.
Qed.

(** X14: assets added through [upsertBooking] and then removed through
    [removeAssets] with the same ids: the table holds the booking first
    with the assets it had and the ids given, then with the assets it had
    less those ids, which, if none of them was connected before, are
    exactly the assets it had. *)
Theorem removeAssets_after_upsertBooking
    (g : Store.Generated) (booking : Upsert.payload) (w : World)
    (i : Id) (assetIds : list Id) (b b1 : Booking) :
  Js.truthy (Upsert.id booking) = Some i →
  Js.has_length (Upsert.assetIds booking) = Some assetIds →
  Store.find i (db w) = Some b →
  fst (upsertBooking g booking w) = inr b1 →
  let added := snd (upsertBooking g booking w) in
  let removed := snd (removeAssets i assetIds added) in
  ∃ r1 r2,
    Store.find i (db added) = Some r1
    ∧ assets r1 = assets b ∪ list_to_set assetIds
    ∧ (∃ b2, fst (removeAssets i assetIds added) = inr b2)
    ∧ Store.find i (db removed) = Some r2
    ∧ assets r2 = assets b ∖ list_to_set assetIds
    ∧ ((∀ x, x ∈ assetIds → x ∉ assets b) → assets r2 = assets b).
Proof.
  intros Hid Hids Hfind Hrun added removed.
  pose proof (upsert_data_assets booking) as Hdata. rewrite Hids in Hdata.
  pose proof (upsertBooking_stored g booking w b1 Hrun) as Hfind1.
  destruct (upsertBooking_id g booking w b1 Hrun) as [Hi _].
  rewrite (Hi i Hid) in Hfind1. fold added in Hfind1.
  apply upsertBooking_resolved in Hrun
    as [(i' & b0 & Hid' & Hfind' & Hb1 & Hdb) | (n & c & o & Hid' & _)];
    [|congruence].
  assert (i' = i) as -> by congruence.
  assert (b0 = b) as -> by congruence.
  assert (Hadded : assets b1 = assets b ∪ list_to_set assetIds).
  { rewrite Hb1. cbn [assets Store.write]. rewrite Hdata. reflexivity. }
  assert (Hassets : assets (without assetIds b1)
                    = assets b ∖ list_to_set assetIds).
  { cbn [assets without]. rewrite Hadded.
    apply set_eq. intros x. rewrite !elem_of_difference, elem_of_union. tauto. }
  exists b1, (without assetIds b1).
  split; [exact Hfind1|]. split; [exact Hadded|].
  split.
  { exists (without assetIds b1).
    rewrite (removeAssets_run i assetIds added b1 Hfind1). reflexivity. }
  split.
  { unfold removed. rewrite (removeAssets_run i assetIds added b1 Hfind1).
    cbn [snd db]. unfold Store.find. cbn [Store.bookings Store.set_bookings].
    apply find_replace with b1; [exact Hfind1|].
    cbn. apply (find_Some i (db added) b1 Hfind1). }
  split; [exact Hassets|].
  intros Hnew. rewrite Hassets. apply set_eq. intros x.
  rewrite elem_of_difference, elem_of_list_to_set.
  split; [tauto|]. intros Hx. split; [exact Hx|]. intros Hin.
  exact (Hnew x Hin Hx).
Qed.

(** The second sample booking has the assets 1, 2 and 3: with asset 4
    added it has four, with asset 4 removed again the three it had. *)
Lemma removeAssets_after_upsertBooking_witness :
  ∃ r1 r2,
    Store.find "b2"
      (db (snd (upsertBooking Sample.third Sample.add_fourth_asset
                  Sample.two_bookings))) = Some r1
    ∧ assets r1 = assets Sample.saw ∪ list_to_set ["4"]
    ∧ Store.find "b2"
        (db (snd (removeAssets "b2" ["4"]
                    (snd (upsertBooking Sample.third Sample.add_fourth_asset
                            Sample.two_bookings))))) = Some r2
    ∧ assets r2 = assets Sample.saw.
Proof.
  destruct (removeAssets_after_upsertBooking Sample.third
              Sample.add_fourth_asset Sample.two_bookings "b2" ["4"]
              Sample.saw Sample.saw_with_four)
    as (r1 & r2 & Hadded & Hunion & _ & Hremoved & _ & Hback);
    [reflexivity | reflexivity | vm_compute; reflexivity
    | vm_compute; reflexivity |].
  exists r1, r2. split; [exact Hadded|]. split; [exact Hunion|].
  split; [exact Hremoved|]. apply Hback.
  intros x Hx Hin. apply list_elem_of_singleton in Hx. subst x.
  revert Hin. vm_compute. discriminate.
Defined.

(** X15: removing assets in two calls comes to the same as removing them
    in one: the second call resolves to the booking, and leaves the tables,
    that one call with both lists of ids gives. *)
Theorem removeAssets_in_two_calls
    (i : Id) (first second : list Id) (w : World) (b : Booking) :
  Store.find i (db w) = Some b →
  fst (removeAssets i second (snd (removeAssets i first w)))
    = fst (removeAssets i (first ++ second) w)
  ∧ db (snd (removeAssets i second (snd (removeAssets i first w))))
    = db (snd (removeAssets i (first ++ second) w)).
Proof.
  intros Hfind.
  assert (Hid : id (without first b) = i).
  { apply find_Some in Hfind as [_ Hid]. exact Hid. }
  assert (Hfind1 : Store.find i (db (snd (removeAssets i first w)))
                   = Some (without first b)).
  { rewrite (removeAssets_run i first w b Hfind). cbn.
    apply find_replace with b; [exact Hfind | exact Hid]. }
  assert (Hboth : without second (without first b) = without (first ++ second) b).
  { unfold without. cbn. f_equal. rewrite list_to_set_app_L.
    apply set_eq. intros x. rewrite !elem_of_difference, elem_of_union. tauto. }
  rewrite (removeAssets_run i second _ _ Hfind1).
  rewrite (removeAssets_run i (first ++ second) w b Hfind).
  cbn [fst snd db]. rewrite Hboth. split; [reflexivity|].
  rewrite (removeAssets_run i first w b Hfind). cbn [snd db].
  unfold Store.set_bookings.
  cbn [Store.bookings Store.users Store.teamMembers Store.organizations
       Store.assetTable].
  rewrite replace_replace by reflexivity. reflexivity.
Qed.

Lemma removeAssets_in_two_calls_witness :
  fst (removeAssets "b2" ["4"] (snd (removeAssets "b2" ["2"] Sample.two_bookings)))
  = fst (removeAssets "b2" (["2"] ++ ["4"]) Sample.two_bookings).
Proof.
  apply (removeAssets_in_two_calls "b2" ["2"] ["4"] Sample.two_bookings
           Sample.saw).
  vm_compute. reflexivity.
Defined.

(** X16: [removeAssets] on an id no booking has rejects with the store's
    not-found error and changes nothing; with an empty list of ids it
    still issues its update, resolves to the booking as it is and, ids
    being unique, leaves the tables as they were. *)
Theorem removeAssets_edges (i : Id) (assetIds : list Id) (w : World) :
  (Store.find i (db w) = None →
   fst (removeAssets i assetIds w) = inl RecordNotFound
   ∧ db (snd (removeAssets i assetIds w)) = db w)
  ∧ (∀ b, Store.find i (db w) = Some b →
          fst (removeAssets i [] w) = inr b
          ∧ journal (snd (removeAssets i [] w))
            = journal w
              ++ [booking_update i
                    (mkData None None None None (Some (DisconnectMany []))
                       None None None None)]
          ∧ (unique_ids (db w) → db (snd (removeAssets i [] w)) = db w)).
Proof.
  split.
  - intros Hnone. unfold removeAssets. rewrite db_booking_update_run.
    unfold Store.update. rewrite Hnone. auto.
  - intros b Hfind. rewrite (removeAssets_run i [] w b Hfind).
    assert (Hsame : without [] b = b).
    { unfold without. cbn. rewrite difference_empty_L. destruct b. reflexivity. }
    cbn [fst snd db journal]. rewrite Hsame.
    split; [reflexivity|]. split; [reflexivity|].
    intros Huniq. rewrite replace_self.
    + apply set_bookings_same.
    + exact Huniq.
    + apply (find_Some i), Hfind.
Qed.

Lemma removeAssets_edges_witness :
  (fst (removeAssets "b7" ["1"] Sample.two_bookings) = inl RecordNotFound
   ∧ db (snd (removeAssets "b7" ["1"] Sample.two_bookings))
     = db Sample.two_bookings)
  ∧ fst (removeAssets "b2" [] Sample.two_bookings) = inr Sample.saw.
Proof.
  split.
  - apply (removeAssets_edges "b7" ["1"] Sample.two_bookings).
    vm_compute. reflexivity.
  - apply (removeAssets_edges "b2" [] Sample.two_bookings).
    vm_compute. reflexivity.
Defined.

(** ** Deleting and fetching *)

Lemma elem_of_kept (i : Id) (bs : list Booking) (x : Booking) :
  x ∈ List.filter (fun y => negb (bool_decide (id y = i))) bs
  ↔ x ∈ bs ∧ id x ≠ i.
Proof.
  rewrite !list_elem_of_In, List.filter_In, negb_true_iff, bool_decide_eq_false.
  reflexivity.
Qed.

(** X17: [deleteBooking] on an existing booking resolves to the booking
    as it was stored, assets included, and takes it out of the table: what
    stays are the bookings with another id, and the table has become
    shorter.  On an id no booking has it rejects with the store's
    not-found error and changes nothing.  The status of the booking deleted
    ([ONGOING], [OVERDUE] or any other) makes no difference: one call is
    issued, the delete. *)
Theorem deleteBooking_removes (i : Id) (w : World) :
  journal (snd (deleteBooking i w)) = journal w ++ [booking_delete i]
  ∧ (∀ b, Store.find i (db w) = Some b →
          fst (deleteBooking i w) = inr b
          ∧ (∀ x, x ∈ Store.bookings (db (snd (deleteBooking i w)))
                  ↔ x ∈ Store.bookings (db w) ∧ id x ≠ i)
          ∧ (length (Store.bookings (db (snd (deleteBooking i w))))
             < length (Store.bookings (db w)))%nat)
  ∧ (Store.find i (db w) = None →
     fst (deleteBooking i w) = inl RecordNotFound
     ∧ db (snd (deleteBooking i w)) = db w).
Proof.
  rewrite deleteBooking_run. split; [|split].
  - destruct (Store.find i (db w)); reflexivity.
  - intros b Hfind. rewrite Hfind. cbn [fst snd db].
    split; [reflexivity|]. split.
    + intros x. cbn. apply elem_of_kept.
    + cbn. apply find_Some in Hfind as [Hin Hid].
      clear -Hin Hid. induction (Store.bookings (db w)) as [|y l IH].
      * apply not_elem_of_nil in Hin. done.
      * cbn. apply elem_of_cons in Hin as [<-|Hin].
        -- rewrite bool_decide_eq_true_2 by exact Hid. cbn.
           pose proof (List.filter_length_le
                         (fun y => negb (bool_decide (id y = i))) l). lia.
        -- specialize (IH Hin).
           destruct (negb (bool_decide (id y = i))); cbn; lia.
  - intros Hnone. rewrite Hnone. auto.
Qed.

Lemma deleteBooking_removes_witness :
  fst (deleteBooking "b2" Sample.two_bookings) = inr Sample.saw
  ∧ Store.bookings (db (snd (deleteBooking "b2" Sample.two_bookings)))
    = [Sample.backwards]
  ∧ fst (deleteBooking "b7" Sample.two_bookings) = inl RecordNotFound.
Proof.
  destruct (deleteBooking_removes "b2" Sample.two_bookings) as (_ & Hthere & _).
  destruct (deleteBooking_removes "b7" Sample.two_bookings) as (_ & _ & Habsent).
  split; [|split].
  - apply (Hthere Sample.saw). vm_compute. reflexivity.
  - vm_compute. reflexivity.
  - apply Habsent. vm_compute. reflexivity.
Defined.

(** X18: once [deleteBooking] has been called on an id, whether it
    resolved or not, the booking is gone: [getBooking] resolves to [null],
    another [deleteBooking] rejects with the not-found error, an update
    through [upsertBooking] or [removeAssets] rejects with it too, and no
    listing returns a booking with that id. *)
Theorem deleteBooking_gone (i : Id) (w : World) :
  let after := snd (deleteBooking i w) in
  fst (getBooking i after) = inr None
  ∧ fst (deleteBooking i after) = inl RecordNotFound
  ∧ (∀ assetIds, fst (removeAssets i assetIds after) = inl RecordNotFound)
  ∧ (∀ g booking, Js.truthy (Upsert.id booking) = Some i →
                  fst (upsertBooking g booking after) = inl RecordNotFound)
  ∧ (∀ a p b, fst (getBookings a after) = inr p → b ∈ bookings p → id b ≠ i).
Proof.
  intros after.
  assert (Hgone : Store.find i (db after) = None).
  { unfold after. rewrite deleteBooking_run.
    destruct (Store.find i (db w)) eqn:Hfind; cbn; [|exact Hfind].
    apply find_filtered. }
  split_and!.
  - apply getBooking_absent, Hgone.
  - rewrite deleteBooking_run, Hgone. reflexivity.
  - intros assetIds. unfold removeAssets. rewrite db_booking_update_run.
    unfold Store.update. rewrite Hgone. reflexivity.
  - intros g booking Hid. unfold upsertBooking.
    rewrite Hid, db_booking_update_run. unfold Store.update.
    rewrite Hgone. reflexivity.
  - intros a p b Hp Hb Hid.
    apply getBookings_resolved in Hp as (_ & Hbs & _).
    rewrite Hbs in Hb. apply elem_of_slice, elem_of_listed in Hb as [Hin _].
    unfold Store.find in Hgone.
    apply list_elem_of_In in Hin.
    apply (List.find_none _ _ Hgone b) in Hin.
    apply bool_decide_eq_false in Hin. contradiction.
Qed.

Lemma deleteBooking_gone_witness :
  fst (getBooking "b2" (snd (deleteBooking "b2" Sample.two_bookings)))
    = inr None
  ∧ fst (upsertBooking Sample.third Sample.hand_to_ann
           (snd (deleteBooking "b2" Sample.two_bookings)))
    = inl RecordNotFound.
Proof.
  destruct (deleteBooking_gone "b2" Sample.two_bookings)
    as (Hget & _ & _ & Hupsert & _).
  split; [exact Hget|]. apply Hupsert. reflexivity.
Defined.

(** X19: [getBooking] never rejects and never changes the tables.  It
    resolves to a booking of the store with the id asked for when there is
    one, and to [null] exactly when no booking has that id. *)
Theorem getBooking_finds (i : Id) (w : World) :
  db (snd (getBooking i w)) = db w
  ∧ ∃ r, fst (getBooking i w) = inr r
         ∧ (∀ b, r = Some b → b ∈ Store.bookings (db w) ∧ id b = i)
         ∧ (r = None ↔ ∀ b, b ∈ Store.bookings (db w) → id b ≠ i).
Proof.
  rewrite getBooking_run. cbn [fst snd db]. split; [reflexivity|].
  exists (Store.find i (db w)). split; [reflexivity|]. split.
  - intros b Hb. apply find_Some, Hb.
  - split.
    + intros Hnone b Hin Hid. unfold Store.find in Hnone.
      apply list_elem_of_In in Hin.
      apply (List.find_none _ _ Hnone b) in Hin.
      apply bool_decide_eq_false in Hin. contradiction.
    + intros Hno. destruct (Store.find i (db w)) as [b|] eqn:Hfind;
        [|reflexivity].
      apply find_Some in Hfind as [Hin Hid]. destruct (Hno b Hin Hid).
Qed.

Lemma getBooking_finds_witness :
  ∃ r, fst (getBooking "b7" Sample.two_bookings) = inr r ∧ r = None.
Proof.
  destruct (getBooking_finds "b7" Sample.two_bookings) as (_ & r & Hr & _ & Hnone).
  exists r. split; [exact Hr|]. apply Hnone.
  intros b Hb. vm_compute in Hb.
  apply elem_of_cons in Hb as [->|Hb]; [discriminate|].
  apply elem_of_cons in Hb as [->|Hb]; [discriminate|].
  apply not_elem_of_nil in Hb. done.
Defined.

(** ** Creating *)

(** X20: a create through [upsertBooking] adds one booking and touches no
    other: the table is the old table followed by the booking returned,
    which has the id and the creation time the store generated, the name,
    dates and status of the payload (a missing status being the store's
    default, missing dates null), and which every listing whose filters it
    passes has from then on. *)
Theorem upsertBooking_creates
    (g : Store.Generated) (booking : Upsert.payload) (w : World) (b' : Booking) :
  Js.truthy (Upsert.id booking) = None →
  fst (upsertBooking g booking w) = inr b' →
  let after := snd (upsertBooking g booking w) in
  Store.bookings (db after) = Store.bookings (db w) ++ [b']
  ∧ id b' = Store.new_id g ∧ createdAt b' = Store.now g
  ∧ (∀ x, x ∈ Store.bookings (db w) → id x ≠ id b')
  ∧ Upsert.name booking = Some (name b')
  ∧ status b' = default (Store.default_status g) (Upsert.status booking)
  ∧ from b' = default None (Upsert.from booking)
  ∧ to b' = default None (Upsert.to booking)
  ∧ (∀ a, Store.matches (bookings_where a) b' = true → b' ∈ listed a after).
Proof.
  intros Hid Hrun after.
  pose proof Hrun as Hfresh.
  unfold upsertBooking in Hfresh. rewrite Hid in Hfresh.
  pose proof Hfresh as Hname.
  apply create_fresh in Hfresh.
  apply db_booking_create_resolved in Hname as (n0 & _ & _ & Hn0 & _).
  apply upsertBooking_resolved in Hrun
    as [(i & b & Hid' & _) | (n & c & o & _ & _ & _ & Hb' & Hdb)];
    [congruence|].
  assert (Hscalar : data_name (create_data booking) = Upsert.name booking
                    ∧ data_status (create_data booking) = Upsert.status booking
                    ∧ data_from (create_data booking) = Upsert.from booking
                    ∧ data_to (create_data booking) = Upsert.to booking).
  { unfold create_data, upsert_data.
    destruct (Js.has_length (Upsert.assetIds booking)),
      (Js.truthy (Upsert.custodianUserId booking)),
      (Js.truthy (Upsert.custodianTeamMemberId booking)),
      (Js.truthy (Upsert.creatorId booking)),
      (Js.truthy (Upsert.organizationId booking)); auto. }
  destruct Hscalar as (Hn & Hs & Hf & Ht).
  assert (Hbs : Store.bookings (db after) = Store.bookings (db w) ++ [b']).
  { unfold after. rewrite Hdb. reflexivity. }
  assert (Hlisted : ∀ a, Store.matches (bookings_where a) b' = true →
                         b' ∈ listed a after).
  { intros a Hm. apply elem_of_listed. split; [|exact Hm].
    rewrite Hbs. apply elem_of_app. right. apply list_elem_of_here. }
  assert (Hothers : ∀ x, x ∈ Store.bookings (db w) → id x ≠ Store.new_id g).
  { intros x Hin Hx. unfold Store.find in Hfresh.
    apply list_elem_of_In in Hin.
    apply (List.find_none _ _ Hfresh x) in Hin.
    apply bool_decide_eq_false in Hin. contradiction. }
  split; [exact Hbs|].
  assert (Hnew : id b' = Store.new_id g) by (rewrite Hb'; reflexivity).
  split; [exact Hnew|].
  split; [rewrite Hb'; reflexivity|].
  split; [rewrite Hnew; exact Hothers|].
  split; [|split; [|split; [|split; [|exact Hlisted]]]]; rewrite Hb'; cbn.
  - rewrite <- Hn, Hn0. reflexivity.
  - rewrite Hs. reflexivity.
  - rewrite Hf. reflexivity.
  - rewrite Ht. reflexivity.
Qed.

Lemma upsertBooking_creates_witness :
  Store.bookings (db Sample.two_bookings)
    = Store.bookings (db Sample.one_booking) ++ [Sample.saw]
  ∧ id Sample.saw = "b2".
Proof.
  destruct (upsertBooking_creates Sample.second Sample.saw_payload
              Sample.one_booking Sample.saw) as (Hbs & Hnew & _).
  - reflexivity.
  - vm_compute. reflexivity.
  - split; [exact Hbs | exact Hnew].
Defined.

(** ** The component [GenerateBookingPdf] *)

Lemma run_app (bookingId : Id) (s : GenerateBookingPdf.State)
    (es1 es2 : list GenerateBookingPdf.Event) :
  GenerateBookingPdf.run bookingId s (es1 ++ es2)
  = (fst (GenerateBookingPdf.run bookingId
            (fst (GenerateBookingPdf.run bookingId s es1)) es2),
     snd (GenerateBookingPdf.run bookingId s es1)
     ++ snd (GenerateBookingPdf.run bookingId
               (fst (GenerateBookingPdf.run bookingId s es1)) es2)).
Proof.
  revert s. induction es1 as [|e es1 IH]; intros s.
  - cbn. destruct (GenerateBookingPdf.run bookingId s es2). reflexivity.
  - cbn. destruct (GenerateBookingPdf.step bookingId s e) as [s' sent].
    rewrite IH. destruct (GenerateBookingPdf.run bookingId s' es1) as [s1 later].
    cbn. rewrite app_assoc. reflexivity.
Qed.

Lemma url_after (bookingId : Id) (s : GenerateBookingPdf.State)
    (es : list GenerateBookingPdf.Event) :
  GenerateBookingPdf.url (fst (GenerateBookingPdf.run bookingId s es))
  = match GenerateBookingPdf.lastOpened es with
    | Some (iso, time) => GenerateBookingPdf.checklistUrl bookingId iso time
    | None => GenerateBookingPdf.url s
    end.
Proof.
  revert s. induction es as [|e es IH]; intros s; [reflexivity|].
  cbn. destruct (GenerateBookingPdf.step bookingId s e) as [s' sent] eqn:Hstep.
  specialize (IH s').
  destruct (GenerateBookingPdf.run bookingId s' es) as [s'' later]. cbn in *.
  rewrite IH.
  destruct (GenerateBookingPdf.lastOpened es) as [[iso time]|]; [reflexivity|].
  destruct e; cbn in Hstep; injection Hstep as <- _; reflexivity.
Qed.

Lemma loaded_stays (bookingId : Id) (s : GenerateBookingPdf.State)
    (es : list GenerateBookingPdf.Event) :
  GenerateBookingPdf.iframeLoaded s = true →
  GenerateBookingPdf.iframeLoaded (fst (GenerateBookingPdf.run bookingId s es))
  = true.
Proof.
  revert s. induction es as [|e es IH]; intros s Hs; [exact Hs|].
  cbn. destruct (GenerateBookingPdf.step bookingId s e) as [s' sent] eqn:Hstep.
  specialize (IH s').
  destruct (GenerateBookingPdf.run bookingId s' es) as [s'' later]. cbn in *.
  apply IH. destruct e; cbn in Hstep; injection Hstep as <- _; cbn; auto.
Qed.

Lemma sent_before_open (bookingId : Id) (s : GenerateBookingPdf.State)
    (es : list GenerateBookingPdf.Event) :
  GenerateBookingPdf.url s = "" →
  GenerateBookingPdf.lastOpened es = None →
  Forall (fun sent => sent = "") (snd (GenerateBookingPdf.run bookingId s es)).
Proof.
  revert s. induction es as [|e es IH]; intros s Hs Hnone; [constructor|].
  cbn in Hnone.
  destruct (GenerateBookingPdf.lastOpened es) eqn:Hl; [discriminate|].
  cbn. destruct (GenerateBookingPdf.step bookingId s e) as [s' sent] eqn:Hstep.
  specialize (IH s').
  destruct (GenerateBookingPdf.run bookingId s' es) as [s'' later]. cbn in *.
  destruct e; cbn in Hstep; try discriminate;
    injection Hstep as <- <-; cbn; try (apply IH; auto).
  constructor; [exact Hs | apply IH; auto].
Qed.

(** X21: [handleMobileView] sends the window to what the last
    [handleOpenDialog] has left in [url]: the checklist address of this
    booking with the clock readings of that call, however long ago and
    whether or not the dialog was closed since; and as long as the dialog
    was never opened, as on a freshly mounted component, to the empty
    address. *)
Theorem handleMobileView_target
    (bookingId : Id) (es : list GenerateBookingPdf.Event) :
  snd (GenerateBookingPdf.run bookingId GenerateBookingPdf.mounted
         (es ++ [GenerateBookingPdf.handleMobileView]))
  = snd (GenerateBookingPdf.run bookingId GenerateBookingPdf.mounted es)
    ++ [match GenerateBookingPdf.lastOpened es with
        | Some (iso, time) => GenerateBookingPdf.checklistUrl bookingId iso time
        | None => ""
        end]
  ∧ (GenerateBookingPdf.lastOpened es = None →
     Forall (fun sent => sent = "")
       (snd (GenerateBookingPdf.run bookingId GenerateBookingPdf.mounted
               (es ++ [GenerateBookingPdf.handleMobileView])))).
Proof.
  rewrite run_app. cbn [snd]. cbn [GenerateBookingPdf.run GenerateBookingPdf.step].
  cbn [from_option app snd]. rewrite url_after. cbn [GenerateBookingPdf.url
    GenerateBookingPdf.mounted].
  split; [reflexivity|].
  intros Hnone. rewrite Hnone. apply Forall_app. split.
  - apply sent_before_open; [reflexivity | exact Hnone].
  - repeat constructor.
Qed.

Lemma handleMobileView_target_witness :
  Forall (fun sent => sent = "")
    (snd (GenerateBookingPdf.run "b2" GenerateBookingPdf.mounted
            ([GenerateBookingPdf.handleCloseDialog;
              GenerateBookingPdf.handleMobileView]
             ++ [GenerateBookingPdf.handleMobileView]))).
Proof.
  apply (handleMobileView_target "b2"
           [GenerateBookingPdf.handleCloseDialog;
            GenerateBookingPdf.handleMobileView]).
  reflexivity.
Defined.

(** X22: no handler sets [iframeLoaded] back: once the frame has loaded,
    Download stays enabled and the spinner stays hidden whatever follows,
    also after the dialog has been closed and opened again on a new
    address whose frame has not loaded yet. *)
Theorem iframeLoaded_never_reset
    (bookingId : Id) (before after : list GenerateBookingPdf.Event) :
  let s := fst (GenerateBookingPdf.run bookingId GenerateBookingPdf.mounted
                  (before ++ GenerateBookingPdf.handleIframeLoad :: after)) in
  GenerateBookingPdf.downloadDisabled s = false
  ∧ GenerateBookingPdf.spinnerShown s = false
  ∧ ∀ iso time,
      let s' := fst (GenerateBookingPdf.run bookingId s
                       [GenerateBookingPdf.handleCloseDialog;
                        GenerateBookingPdf.handleOpenDialog iso time]) in
      GenerateBookingPdf.url s'
        = GenerateBookingPdf.checklistUrl bookingId iso time
      ∧ GenerateBookingPdf.isDialogOpen s' = true
      ∧ GenerateBookingPdf.downloadDisabled s' = false
      ∧ GenerateBookingPdf.spinnerShown s' = false.
Proof.
  intros s.
  assert (Hs : GenerateBookingPdf.iframeLoaded s = true).
  { unfold s. rewrite run_app. cbn [fst].
    change (GenerateBookingPdf.handleIframeLoad :: after)
      with ([GenerateBookingPdf.handleIframeLoad] ++ after).
    rewrite run_app. cbn [fst]. apply loaded_stays. reflexivity. }
  unfold GenerateBookingPdf.downloadDisabled, GenerateBookingPdf.spinnerShown.
  rewrite Hs. split; [reflexivity|]. split; [reflexivity|].
  intros iso time. cbn. rewrite Hs. auto.
Qed.

(** ** Listing: the count, and when a page is refused *)

(** X23: [bookingCount] is the number of bookings of the store that pass
    the filters, whatever page and page size are asked for: it is the same
    on every page. *)
Theorem bookingCount_total
    (a : Listing.args) (w : World) (k n : Z) (p p' : Page) :
  fst (getBookings a w) = inr p →
  fst (getBookings (on_page k (per_page n a)) w) = inr p' →
  bookingCount p = bookingCount p'
  ∧ bookingCount p
    = length (List.filter (Store.matches (bookings_where a))
                (Store.bookings (db w))).
Proof.
  intros Hp Hp'.
  apply getBookings_resolved in Hp as (_ & _ & Hn).
  apply getBookings_resolved in Hp' as (_ & _ & Hn').
  rewrite Hn, Hn'. split; reflexivity.
Qed.

Lemma bookingCount_total_witness :
  ∃ p p', fst (getBookings Sample.everything Sample.crowded) = inr p
          ∧ fst (getBookings (on_page 3 (per_page 10 Sample.everything))
                   Sample.crowded) = inr p'
          ∧ bookingCount p = bookingCount p'.
Proof.
  destruct (getBookings_resolves Sample.everything Sample.crowded) as [p Hp];
    [vm_compute; discriminate|].
  destruct (getBookings_resolves (on_page 3 (per_page 10 Sample.everything))
              Sample.crowded) as [p' Hp']; [vm_compute; discriminate|].
  exists p, p'. split; [exact Hp|]. split; [exact Hp'|].
  apply (bookingCount_total Sample.everything Sample.crowded 3 10 p p' Hp Hp').
Defined.

(** X24: the offset asked of the store is negative only for a negative
    [perPage] on a page after the first.  The store refuses it, and then
    [getBookings] rejects although the count query went through; in every
    other case (a page of 1 or less, or a [perPage] of 0 or more)
    [getBookings] resolves. *)
Theorem getBookings_rejects_negative_offset (a : Listing.args) (w : World) :
  let page := default 1 (Listing.page a) in
  let perPage := default 8 (Listing.perPage a) in
  (1 < page ∧ perPage < 0 → fst (getBookings a w) = inl InvalidArgument)
  ∧ (page ≤ 1 ∨ 0 ≤ perPage → ∃ p, fst (getBookings a w) = inr p).
Proof.
  intros page perPage. split.
  - intros Hneg. apply skip_negative in Hneg.
    rewrite getBookings_run. cbn [fst]. fold page perPage.
    destruct (Z.ltb_spec (skip page perPage) 0) as [_|Hpos]; [reflexivity | lia].
  - intros Hok. apply getBookings_resolves. fold page perPage.
    destruct (Z.lt_ge_cases (skip page perPage) 0) as [Hneg|Hge]; [|exact Hge].
    apply skip_negative in Hneg. lia.
Qed.

Lemma getBookings_rejects_negative_offset_witness :
  fst (getBookings (on_page 2 (per_page (-5) Sample.everything)) Sample.crowded)
    = inl InvalidArgument
  ∧ ∃ p, fst (getBookings (on_page 1 (per_page (-5) Sample.everything))
                Sample.crowded) = inr p.
Proof.
  split.
  - apply (getBookings_rejects_negative_offset
             (on_page 2 (per_page (-5) Sample.everything)) Sample.crowded).
    split; vm_compute; reflexivity.
  - apply (getBookings_rejects_negative_offset
             (on_page 1 (per_page (-5) Sample.everything)) Sample.crowded).
    left. vm_compute. discriminate.
Defined.
